(** * Scaladoc linting tools: a shallow embedding and its properties

    The development follows the three Python tools of the repository:
    - [tools/scaladoc_checker.py]      (module [Checker]),
    - [tools/scaladoc_indent_fixer.py] (module [IndentFixer]),
    - [check_docs.py]                  (module [CheckDocs]).

    Text is a list of characters.  A character is an 8-bit code point, so the
    character classes below are Python's classes for [str] restricted to the
    code points 0..255.  Regular expressions are kept as syntax trees that
    mirror the pattern strings of the source, and are run by a backtracking
    matcher with Python's priorities (leftmost alternative first, greedy and
    lazy repetition, capture groups). *)

From Stdlib Require Import Ascii String List Arith Bool NArith ZArith Lia.
Import ListNotations.

Set Implicit Arguments.

Local Open Scope list_scope.

(** ** Characters and text *)

Definition text := list ascii.

Definition str (s : string) : text := list_ascii_of_string s.

Definition code (c : ascii) : N := N_of_ascii c.

Definition chr_eqb (a b : ascii) : bool := Ascii.eqb a b.

Definition in_range (lo hi : N) (c : ascii) : bool :=
  (N.leb lo (code c) && N.leb (code c) hi)%bool.

Definition NL : ascii := ascii_of_N 10.
Definition CR : ascii := ascii_of_N 13.
Definition SP : ascii := ascii_of_N 32.

(** [str.isspace] on one character: TAB..CR, FS..US, space, NEL, NBSP. *)
Definition is_space (c : ascii) : bool :=
  (in_range 9 13 c || in_range 28 32 c
   || N.eqb (code c) 133 || N.eqb (code c) 160)%bool.

(** The [\w] class of [re] for [str] patterns: alphanumerics and underscore. *)
Definition is_word (c : ascii) : bool :=
  (in_range 48 57 c || in_range 65 90 c || in_range 97 122 c
   || N.eqb (code c) 95
   || N.eqb (code c) 170 || N.eqb (code c) 178 || N.eqb (code c) 179
   || N.eqb (code c) 181 || N.eqb (code c) 185 || N.eqb (code c) 186
   || in_range 188 190 c || in_range 192 214 c || in_range 216 246 c
   || in_range 248 255 c)%bool.

(** Line boundaries of [str.splitlines]. *)
Definition is_linebreak (c : ascii) : bool :=
  (in_range 10 13 c || in_range 28 30 c || N.eqb (code c) 133)%bool.

(** [str.lower] on one character. *)
Definition lower_chr (c : ascii) : ascii :=
  if (in_range 65 90 c
      || (in_range 192 222 c && negb (N.eqb (code c) 215)))%bool
  then ascii_of_N (code c + 32) else c.

Fixpoint text_eqb (a b : text) : bool :=
  match a, b with
  | [], [] => true
  | x :: a', y :: b' => (chr_eqb x y && text_eqb a' b')%bool
  | _, _ => false
  end.

(** ** Python string methods *)

Module Py.

(** [s[i:j]] for [0 <= i <= j]. *)
Definition slice (s : text) (i j : nat) : text := firstn (j - i) (skipn i s).

(** [s[:i]] and [s[i:]] for an integer [i]: a negative index counts from
    the end of the string. *)
Definition norm_index (s : text) (i : Z) : nat :=
  if (i <? 0)%Z then Z.to_nat (Z.max 0 (Z.of_nat (length s) + i))
  else Z.to_nat i.

Definition prefix (s : text) (i : Z) : text := firstn (norm_index s i) s.
Definition suffix (s : text) (i : Z) : text := skipn (norm_index s i) s.

(** [s.startswith(p)] *)
Fixpoint startswith (s p : text) : bool :=
  match p, s with
  | [], _ => true
  | c :: p', d :: s' => (chr_eqb c d && startswith s' p')%bool
  | _ :: _, [] => false
  end.

(** [p in s] *)
Fixpoint contains (s p : text) : bool :=
  (startswith s p ||
   match s with
   | [] => false
   | _ :: s' => contains s' p
   end)%bool.

(** [s.endswith(p)] *)
Definition endswith (s p : text) : bool := startswith (rev s) (rev p).

(** [s.lstrip()] *)
Fixpoint lstrip (s : text) : text :=
  match s with
  | c :: s' => if is_space c then lstrip s' else s
  | [] => []
  end.

(** [s.rstrip()] *)
Definition rstrip (s : text) : text := rev (lstrip (rev s)).

(** [s.strip()] *)
Definition strip (s : text) : text := rstrip (lstrip s).

(** [s.lower()] *)
Definition lower (s : text) : text := map lower_chr s.

(** [s.count(c)] for a one-character [c]. *)
Definition count (c : ascii) (s : text) : nat :=
  length (filter (chr_eqb c) s).

(** [sep.join(parts)] *)
Fixpoint join (sep : text) (parts : list text) : text :=
  match parts with
  | [] => []
  | [p] => p
  | p :: ps => p ++ sep ++ join sep ps
  end.

(** [s.split(c)] for a one-character separator: never empty. *)
Fixpoint split_chr (c : ascii) (s : text) : list text :=
  match s with
  | [] => [[]]
  | d :: s' =>
      if chr_eqb c d then [] :: split_chr c s'
      else match split_chr c s' with
           | w :: ws => (d :: w) :: ws
           | [] => [[d]]
           end
  end.

(** [s.split()]: maximal runs of non-space characters. *)
Fixpoint split_ws_aux (cur : text) (s : text) : list text :=
  match s with
  | [] => match cur with [] => [] | _ => [rev cur] end
  | c :: s' =>
      if is_space c
      then match cur with
           | [] => split_ws_aux [] s'
           | _ => rev cur :: split_ws_aux [] s'
           end
      else split_ws_aux (c :: cur) s'
  end.

Definition split_ws (s : text) : list text := split_ws_aux [] s.

(** [s.splitlines()]: a CR LF pair is one boundary; no empty last line. *)
Fixpoint splitlines_aux (cur : text) (s : text) : list text :=
  match s with
  | [] => match cur with [] => [] | _ => [rev cur] end
  | c :: s' =>
      if is_linebreak c
      then rev cur ::
           match s' with
           | d :: s'' =>
               if (chr_eqb c CR && chr_eqb d NL)%bool
               then splitlines_aux [] s''
               else splitlines_aux [] s'
           | [] => splitlines_aux [] s'
           end
      else splitlines_aux (c :: cur) s'
  end.

Definition splitlines (s : text) : list text := splitlines_aux [] s.

(** [s.rfind("\n", 0, stop)]: index of the last newline before [stop]. *)
Fixpoint rfind_nl_aux (s : text) (i stop : nat) (found : option nat)
  : option nat :=
  match stop, s with
  | S stop', c :: s' =>
      rfind_nl_aux s' (S i) stop' (if chr_eqb c NL then Some i else found)
  | _, _ => found
  end.

Definition rfind_nl (s : text) (stop : nat) : option nat :=
  rfind_nl_aux s 0 stop None.

End Py.

(** ** Regular expressions, run as Python's [re] runs them *)

Module Re.

(** Pattern syntax.  [Cls p] is one character satisfying [p]; [Star g r] is
    [r*] (greedy when [g]) or [r*?]; [Grp n r] is capture group number [n];
    [Bol] is [^] and [BolM] is [^] under MULTILINE; [Eol] is [$] without
    MULTILINE; [WordB] is [\b]. *)
Inductive re : Type :=
| Eps : re
| Cls : (ascii -> bool) -> re
| Seq : re -> re -> re
| Alt : re -> re -> re
| Star : bool -> re -> re
| Grp : nat -> re -> re
| Bol : re
| BolM : re
| Eol : re
| WordB : re.

Definition Chr (c : ascii) : re := Cls (chr_eqb c).
Definition Not (p : ascii -> bool) : re := Cls (fun c => negb (p c)).
(** [.] under DOTALL, and without it. *)
Definition AnyS : re := Cls (fun _ => true).
Definition Any : re := Cls (fun c => negb (chr_eqb c NL)).
Definition Plus (r : re) : re := Seq r (Star true r).
Definition Opt (r : re) : re := Alt r Eps.
Definition Space : re := Cls is_space.
Definition Word : re := Cls is_word.

Fixpoint Lit (s : text) : re :=
  match s with
  | [] => Eps
  | [c] => Chr c
  | c :: s' => Seq (Chr c) (Lit s')
  end.

Fixpoint Seqs (rs : list re) : re :=
  match rs with
  | [] => Eps
  | [r] => r
  | r :: rs' => Seq r (Seqs rs')
  end.

Fixpoint Alts (rs : list re) : re :=
  match rs with
  | [] => Eps
  | [r] => r
  | r :: rs' => Alt r (Alts rs')
  end.

(** Matcher state: the position, the character before it, the text from it
    on, and the spans of the groups that have matched so far. *)
Record mstate : Type := MState {
  pos : nat;
  prev : option ascii;
  rest : text;
  caps : list (nat * (nat * nat))
}.

Definition advance (c : ascii) (tl : text) (st : mstate) : mstate :=
  MState (S (pos st)) (Some c) tl (caps st).

Definition set_cap (n a b : nat) (st : mstate) : mstate :=
  MState (pos st) (prev st) (rest st) ((n, (a, b)) :: caps st).

Fixpoint get_cap (n : nat) (cs : list (nat * (nat * nat)))
  : option (nat * nat) :=
  match cs with
  | [] => None
  | (m, ab) :: cs' => if Nat.eqb n m then Some ab else get_cap n cs'
  end.

Definition word_opt (o : option ascii) : bool :=
  match o with Some c => is_word c | None => false end.

Definition at_boundary (st : mstate) : bool :=
  xorb (word_opt (prev st)) (word_opt (hd_error (rest st))).

(** The loop of a repetition [r*] (greedy when [g]) or [r*?]: [body] runs
    [r] once and [k] is what has to match after the repetition.  A further
    round is only taken when the body has consumed a character. *)
Fixpoint star_loop (g : bool)
  (body : mstate -> (mstate -> option mstate) -> option mstate)
  (k : mstate -> option mstate) (fuel : nat) (s0 : mstate) {struct fuel}
  : option mstate :=
  match fuel with
  | O => k s0
  | S f =>
      let more :=
        body s0 (fun s1 => if pos s0 <? pos s1 then star_loop g body k f s1
                           else None) in
      if g then
        match more with Some x => Some x | None => k s0 end
      else
        match k s0 with Some x => Some x | None => more end
  end.

(** Backtracking matcher in continuation-passing style: [k] is what has to
    match after [r].  The bound [S (length (rest st))] of a repetition is
    never reached, since every round consumes a character. *)
Fixpoint run (r : re) (st : mstate) (k : mstate -> option mstate)
  {struct r} : option mstate :=
  match r with
  | Eps => k st
  | Cls p =>
      match rest st with
      | c :: tl => if p c then k (advance c tl st) else None
      | [] => None
      end
  | Seq a b => run a st (fun st1 => run b st1 k)
  | Alt a b =>
      match run a st k with
      | Some x => Some x
      | None => run b st k
      end
  | Star g a => star_loop g (run a) k (S (length (rest st))) st
  | Grp n a => run a st (fun s1 => k (set_cap n (pos st) (pos s1) s1))
  | Bol => if pos st =? 0 then k st else None
  | BolM =>
      match prev st with
      | None => k st
      | Some c => if chr_eqb c NL then k st else None
      end
  | Eol =>
      match rest st with
      | [] => k st
      | [c] => if chr_eqb c NL then k st else None
      | _ => None
      end
  | WordB => if at_boundary st then k st else None
  end.

(** A match object: span and group spans, over the searched text. *)
Record match_obj : Type := Match {
  m_start : nat;
  m_end : nat;
  m_caps : list (nat * (nat * nat))
}.

Definition match_at (r : re) (p : nat) (pv : option ascii) (s : text)
  : option match_obj :=
  match run r (MState p pv s []) Some with
  | Some st => Some (Match p (pos st) (caps st))
  | None => None
  end.

(** [re.match(r, s)] *)
Definition rmatch (r : re) (s : text) : option match_obj :=
  match_at r 0 None s.

(** Leftmost match at or after position [p]; [s] is the text from [p]. *)
Fixpoint search_from (r : re) (p : nat) (pv : option ascii) (s : text)
  : option match_obj :=
  match match_at r p pv s with
  | Some m => Some m
  | None =>
      match s with
      | [] => None
      | c :: s' => search_from r (S p) (Some c) s'
      end
  end.

(** [re.search(r, s)] *)
Definition search (r : re) (s : text) : option match_obj :=
  search_from r 0 None s.

(** [m.group(n)]: [None] when the group did not take part in the match. *)
Definition group (s : text) (m : match_obj) (n : nat) : option text :=
  match n with
  | O => Some (Py.slice s (m_start m) (m_end m))
  | _ =>
      match get_cap n (m_caps m) with
      | Some (a, b) => Some (Py.slice s a b)
      | None => None
      end
  end.

(** [m.group(n) or ""] *)
Definition group_or_empty (s : text) (m : match_obj) (n : nat) : text :=
  match group s m n with Some t => t | None => [] end.

Definition last_chr (pv : option ascii) (s : text) : option ascii :=
  match rev s with c :: _ => Some c | [] => pv end.

(** [re.finditer(r, s)] for patterns that match no empty text: the scan
    resumes where the last match ended. *)
Fixpoint finditer_from (fuel : nat) (r : re) (p : nat) (pv : option ascii)
  (s : text) : list match_obj :=
  match fuel with
  | O => []
  | S f =>
      match search_from r p pv s with
      | None => []
      | Some m =>
          let n := m_end m - p in
          if n =? 0 then [m]
          else m :: finditer_from f r (m_end m) (last_chr pv (firstn n s))
                      (skipn n s)
      end
  end.

Definition finditer (r : re) (s : text) : list match_obj :=
  finditer_from (S (length s)) r 0 None s.

(** [re.findall(r, s)] for a pattern with one group. *)
Definition findall1 (r : re) (s : text) : list text :=
  map (fun m => group_or_empty s m 1) (finditer r s).

(** [re.sub(r, "", s)] *)
Fixpoint remove_spans (s : text) (p : nat) (ms : list match_obj) : text :=
  match ms with
  | [] => skipn p s
  | m :: ms' => Py.slice s p (m_start m) ++ remove_spans s (m_end m) ms'
  end.

Definition sub_empty (r : re) (s : text) : text :=
  remove_spans s 0 (finditer r s).

(** [re.split(r, s)[0]] for a pattern without groups. *)
Definition split_first (r : re) (s : text) : text :=
  match search r s with
  | Some m => firstn (m_start m) s
  | None => s
  end.

End Re.

(** ** Exceptions

    A Python expression that can raise is a value of [option]: [None] stands
    for a raised exception (here always an [IndexError]). *)

Definition bind {A B : Type} (x : option A) (f : A -> option B) : option B :=
  match x with
  | Some a => f a
  | None => None
  end.

Notation "x <- e ;; k" := (bind e (fun x => k))
  (at level 61, e at next level, right associativity).

(** [xs[0]] *)
Definition index0 {A : Type} (xs : list A) : option A := hd_error xs.

Fixpoint mapM {A B : Type} (f : A -> option B) (xs : list A)
  : option (list B) :=
  match xs with
  | [] => Some []
  | x :: xs' => y <- f x ;; ys <- mapM f xs' ;; Some (y :: ys)
  end.

(** [x in xs] for a list of strings. *)
Definition mem (x : text) (xs : list text) : bool := existsb (text_eqb x) xs.

(** Truth value of a string or of a list. *)
Definition nonempty {A : Type} (xs : list A) : bool :=
  match xs with [] => false | _ => true end.

(** ** tools/scaladoc_checker.py *)

Module Checker.
Import Re.

(** [SCALADOC_RE = /\*\*(.*?)\*/] with DOTALL *)
Definition SCALADOC_RE : re :=
  Seqs [Lit (str "/**"); Grp 1 (Star false AnyS); Lit (str "*/")].

(** [TAG_RE = ^\s*\*\s*@(\w+)\s*(\w+)?] with MULTILINE *)
Definition TAG_RE : re :=
  Seqs [BolM; Star true Space; Chr "*"; Star true Space; Chr "@";
        Grp 1 (Plus Word); Star true Space; Opt (Grp 2 (Plus Word))].

Definition modifiers : re :=
  Alts [Lit (str "private"); Lit (str "protected"); Lit (str "final");
        Lit (str "override"); Lit (str "inline"); Lit (str "implicit");
        Lit (str "given"); Lit (str "export"); Lit (str "opaque");
        Lit (str "sealed"); Seq (Lit (str "case")) (Plus Space)].

Definition annot_chr (c : ascii) : bool :=
  (is_word c || chr_eqb c "(" || chr_eqb c ")" || is_space c)%bool.

(** [DECL_START_RE]:
    [^\s*(?:@[\w\(\)\s]+)?\s*(?:private|...|sealed|case\s+)?\s*
     (class|trait|object|def|val|var)\b] *)
Definition DECL_START_RE : re :=
  Seqs [Bol; Star true Space;
        Opt (Seq (Chr "@") (Plus (Cls annot_chr)));
        Star true Space;
        Opt modifiers;
        Star true Space;
        Grp 1 (Alts [Lit (str "class"); Lit (str "trait");
                     Lit (str "object"); Lit (str "def");
                     Lit (str "val"); Lit (str "var")]);
        WordB].

Definition name_chr (c : ascii) : bool :=
  negb (is_space c || chr_eqb c "(" || chr_eqb c "[")%bool.

(** The part shared by [DEF_RE] and [CLASS_RE], with DOTALL and with the
    tokens spaced out:
    [\s+ ( [^\s\(\[]+ ) \s* (?: \[ ( .*? ) \] )? \s* ( \( [^)]* \) )?] *)
Definition signature_tail : list re :=
  [Plus Space;
   Grp 1 (Plus (Cls name_chr));
   Star true Space;
   Opt (Seqs [Chr "["; Grp 2 (Star false AnyS); Chr "]"]);
   Star true Space;
   Opt (Grp 3 (Seqs [Chr "("; Star true (Not (chr_eqb ")")); Chr ")"]))].

(** [DEF_RE = ^\s*(?:def)\s+...] *)
Definition DEF_RE : re :=
  Seqs ([Bol; Star true Space; Lit (str "def")] ++ signature_tail).

(** [CLASS_RE = ^\s*(?:class|trait)\s+...] *)
Definition CLASS_RE : re :=
  Seqs ([Bol; Star true Space; Alt (Lit (str "class")) (Lit (str "trait"))]
        ++ signature_tail).

Definition ret_chr (c : ascii) : bool :=
  negb (chr_eqb c "=" || chr_eqb c "{" || chr_eqb c NL)%bool.

(** [:\s*([^=\{\n]+)] *)
Definition RET_RE : re :=
  Seqs [Chr ":"; Star true Space; Grp 1 (Plus (Cls ret_chr))].

(** [\s+(?:=|\{)] *)
Definition RET_TAIL_RE : re :=
  Seq (Plus Space) (Alt (Chr "=") (Chr "{")).

(** [[A-Za-z0-9_]] *)
Definition ident_chr (c : ascii) : bool :=
  (in_range 65 90 c || in_range 97 122 c || in_range 48 57 c
   || chr_eqb c "_")%bool.

(** [\b(val|var)\s+([A-Za-z0-9_]+)] *)
Definition VAL_RE : re :=
  Seqs [WordB; Grp 1 (Alt (Lit (str "val")) (Lit (str "var")));
        Plus Space; Grp 2 (Plus (Cls ident_chr))].

(** [\bobject\s+([A-Za-z0-9_]+)] *)
Definition OBJECT_RE : re :=
  Seqs [WordB; Lit (str "object"); Plus Space; Grp 1 (Plus (Cls ident_chr))].

(** [\( ( [^)]* ) \)], tokens spaced out *)
Definition PARENS_RE : re :=
  Seqs [Chr "("; Grp 1 (Star true (Not (chr_eqb ")"))); Chr ")"].

(** [([A-Za-z0-9_]+)\s*:] *)
Definition PARAM_RE : re :=
  Seqs [Grp 1 (Plus (Cls ident_chr)); Star true Space; Chr ":"].

(** [^ \s* \* ( .* ) $], tokens spaced out *)
Definition STAR_LINE_RE : re :=
  Seqs [Bol; Star true Space; Chr "*"; Grp 1 (Star true Any); Eol].

(** [^\s*] *)
Definition LEADING_WS_RE : re := Seq Bol (Star true Space).

(** The tag dictionary [{"param": [], "tparam": [], "return": []}]. *)
Record tags : Type := Tags {
  t_param : list text;
  t_tparam : list text;
  t_return : list text
}.

(** The dictionary returned by [parse_declaration]. *)
Record decl : Type := Decl {
  kind : text;
  name : text;
  tparams : list text;
  params : list text;
  ret : option text
}.

Definition unknown_decl : decl := Decl (str "unknown") [] [] [] None.

(** [extract_scaladoc_blocks] *)
Definition extract_scaladoc_blocks (t : text) : list (nat * nat * text) :=
  map (fun m => (m_start m, m_end m, group_or_empty t m 1))
      (finditer SCALADOC_RE t).

(** [extract_tags] *)
Definition add_tag (block : text) (tg : tags) (m : match_obj) : tags :=
  let tag := group_or_empty block m 1 in
  let nm := group_or_empty block m 2 in
  if text_eqb tag (str "param")
  then Tags (t_param tg ++ [nm]) (t_tparam tg) (t_return tg)
  else if text_eqb tag (str "tparam")
  then Tags (t_param tg) (t_tparam tg ++ [nm]) (t_return tg)
  else if text_eqb tag (str "return")
  then Tags (t_param tg) (t_tparam tg) (t_return tg ++ [[]])
  else tg.

Definition extract_tags (block : text) : tags :=
  fold_left (add_tag block) (finditer TAG_RE block) (Tags [] [] []).

(** The stop test of the lookahead loop in [get_declaration_after]. *)
Definition stops_chunk (line : text) : bool :=
  (Py.contains line (str "{") || Py.contains line (str "=")
   || Py.endswith (Py.strip line) (str ")")
   || Py.endswith (Py.strip line) (str ":"))%bool.

Fixpoint chunk_loop (i : nat) (lines : list text) : list text :=
  match lines with
  | [] => []
  | line :: lines' =>
      if ((i =? 0) && text_eqb (Py.strip line) [])%bool
      then chunk_loop (S i) lines'
      else if stops_chunk line then [line]
      else line :: chunk_loop (S i) lines'
  end.

(** [get_declaration_after(text, pos)] *)
Definition get_declaration_after (t : text) (p : nat) : text * nat :=
  let tail := skipn p t in
  let start_line := Py.count NL (firstn p t) + 1 in
  let lines := Py.splitlines tail in
  let chunk_lines := chunk_loop 0 (firstn 40 lines) in
  (Py.join [NL] chunk_lines, start_line).

(** [split_by_commas_top_level] *)
Definition is_open (c : ascii) : bool :=
  (chr_eqb c "(" || chr_eqb c "[" || chr_eqb c "{")%bool.
Definition is_close (c : ascii) : bool :=
  (chr_eqb c ")" || chr_eqb c "]" || chr_eqb c "}")%bool.

Fixpoint split_loop (s : text) (cur : text) (depth : nat)
  (parts : list text) : list text :=
  match s with
  | [] =>
      let last := Py.strip cur in
      if nonempty last then parts ++ [last] else parts
  | ch :: s' =>
      if is_open ch then split_loop s' (cur ++ [ch]) (depth + 1) parts
      else if is_close ch
      then split_loop s' (cur ++ [ch]) (Nat.max 0 (depth - 1)) parts
      else if (chr_eqb ch "," && (depth =? 0))%bool
      then split_loop s' [] depth (parts ++ [cur])
      else split_loop s' (cur ++ [ch]) depth parts
  end.

Definition split_by_commas_top_level (s : text) : list text :=
  split_loop s [] 0 [].

(** The body of the inner loop of [extract_param_names_from_parens]:
    the names contributed by one part [p]. *)
Definition param_names_of_part (p0 : text) : option (list text) :=
  let p := Py.strip p0 in
  if negb (nonempty p) then Some []
  else
    match rmatch PARAM_RE p with
    | Some m => Some [group_or_empty p m 1]
    | None =>
        tok <- index0 (Py.split_ws p) ;;
        if (text_eqb tok (str "implicit") || text_eqb tok (str "using"))%bool
        then
          let rest := Py.split_ws p in
          if 1 <? length rest
          then nm <- nth_error rest 1 ;; Some [nm]
          else Some []
        else Some [tok]
    end.

(** [extract_param_names_from_parens] *)
Definition extract_param_names_from_parens (parens : text)
  : option (list text) :=
  if negb (nonempty parens) then Some []
  else
    let groups := findall1 PARENS_RE parens in
    per_group <-
      mapM (fun g =>
              per_part <- mapM param_names_of_part
                               (split_by_commas_top_level g) ;;
              Some (concat per_part))
           groups ;;
    Some (concat per_group).

(** [tp.strip().split(":")[0].split("=")[0].strip()] *)
Definition tparam_name (tp : text) : option text :=
  a <- index0 (Py.split_chr ":" (Py.strip tp)) ;;
  b <- index0 (Py.split_chr "=" a) ;;
  Some (Py.strip b).

(** The common part of the [def] and [class]/[trait] branches: name, type
    parameters and value parameters read off a match of [DEF_RE] or
    [CLASS_RE]. *)
Definition fill_signature (chunk : text) (k : text) (m : option match_obj)
  : option decl :=
  match m with
  | Some mo =>
      let nm := group_or_empty chunk mo 1 in
      let tps := group_or_empty chunk mo 2 in
      tpl <- (if nonempty tps
              then mapM tparam_name (Py.split_chr "," tps)
              else Some []) ;;
      let params_str := group_or_empty chunk mo 3 in
      ps <- extract_param_names_from_parens params_str ;;
      Some (Decl k nm tpl ps None)
  | None => Some (Decl k [] [] [] None)
  end.

(** [chunk.strip().splitlines()[0] if chunk.strip() else ""] *)
Definition first_line (chunk : text) : option text :=
  if nonempty (Py.strip chunk)
  then index0 (Py.splitlines (Py.strip chunk))
  else Some [].

(** The keyword found by [DECL_START_RE], on the first line or else on the
    whole chunk: [kind_match.group(1)], or [None] when neither matches. *)
Definition kind_match (chunk fl : text) : option text :=
  match search DECL_START_RE fl with
  | Some m => Some (group_or_empty fl m 1)
  | None =>
      match search DECL_START_RE chunk with
      | Some m => Some (group_or_empty chunk m 1)
      | None => None
      end
  end.

(** The branch of [parse_declaration] for [kind == "def"].  The slice
    [after_params] is computed and not used: the return type is searched
    in the whole chunk. *)
Definition parse_def (chunk k : text) : option decl :=
  let m := search DEF_RE chunk in
  res <- fill_signature chunk k m ;;
  let after_params :=
    match m with
    | Some mo => skipn (m_end mo) chunk
    | None => chunk
    end in
  match search RET_RE chunk with
  | Some ret_match =>
      let r0 := Py.strip (group_or_empty chunk ret_match 1) in
      let r1 := Py.strip (split_first RET_TAIL_RE r0) in
      Some (Decl (kind res) (name res) (tparams res) (params res) (Some r1))
  | None => Some res
  end.

(** The branches of [parse_declaration] after the keyword [k] is known. *)
Definition parse_kind (chunk k : text) : option decl :=
  if text_eqb k (str "def") then parse_def chunk k
  else if (text_eqb k (str "class") || text_eqb k (str "trait"))%bool
  then fill_signature chunk k (search CLASS_RE chunk)
  else if (text_eqb k (str "val") || text_eqb k (str "var"))%bool then
    match search VAL_RE chunk with
    | Some m => Some (Decl k (group_or_empty chunk m 2) [] [] None)
    | None => Some (Decl k [] [] [] None)
    end
  else if text_eqb k (str "object") then
    match search OBJECT_RE chunk with
    | Some m => Some (Decl k (group_or_empty chunk m 1) [] [] None)
    | None => Some (Decl k [] [] [] None)
    end
  else Some (Decl k [] [] [] None).

(** [parse_declaration] *)
Definition parse_declaration (chunk : text) : option decl :=
  fl <- first_line chunk ;;
  match kind_match chunk fl with
  | None => Some unknown_decl
  | Some k => parse_kind chunk k
  end.

(** *** The tag reconciliation of [analyze_file] *)

Definition comma_list (xs : list text) : text := Py.join (str ", ") xs.

Definition missing_of (declared documented : list text) : list text :=
  filter (fun t => negb (mem t documented)) declared.

Definition msg_if (xs : list text) (head : text) : list text :=
  if nonempty xs then [head ++ comma_list xs] else [].

Definition declared_tparams (d : decl) : list text :=
  filter (fun t => nonempty t) (tparams d).

Definition missing_tparam (tg : tags) (d : decl) : list text :=
  missing_of (declared_tparams d) (t_tparam tg).
Definition extra_tparam (tg : tags) (d : decl) : list text :=
  missing_of (t_tparam tg) (declared_tparams d).
Definition missing_param (tg : tags) (d : decl) : list text :=
  missing_of (params d) (t_param tg).
Definition extra_param (tg : tags) (d : decl) : list text :=
  missing_of (t_param tg) (params d).

Definition documented_return (tg : tags) : bool := 0 <? length (t_return tg).

Definition is_unit (r : text) : bool :=
  Py.startswith (Py.strip r) (str "Unit").

Definition MSG_UNEXPECTED_RETURN : text :=
  str "@return present but return type is Unit".
Definition MSG_MISSING_RETURN : text :=
  str "Missing @return for non-Unit return type".

Definition return_issues (tg : tags) (d : decl) : list text :=
  if text_eqb (kind d) (str "def") then
    match ret d with
    | Some r =>
        if nonempty r then
          if is_unit r then
            if documented_return tg then [MSG_UNEXPECTED_RETURN] else []
          else
            if negb (documented_return tg) then [MSG_MISSING_RETURN] else []
        else []
    | None => []
    end
  else [].

(** The list [issues] built for one block. *)
Definition issues_of (tg : tags) (d : decl) : list text :=
  msg_if (missing_tparam tg d) (str "Missing @tparam for: ")
  ++ msg_if (extra_tparam tg d) (str "@tparam refers to unknown type params: ")
  ++ msg_if (missing_param tg d) (str "Missing @param for: ")
  ++ msg_if (extra_param tg d) (str "@param refers to unknown params: ")
  ++ return_issues tg d.

(** *** The rewriting of one block under [fix] *)

Definition needs_return_stub (tg : tags) (d : decl) : bool :=
  (text_eqb (kind d) (str "def")
   && match ret d with
      | Some r => nonempty r && negb (is_unit r)
      | None => false
      end
   && negb (documented_return tg))%bool.

Definition insert_lines (tg : tags) (d : decl) : list text :=
  map (fun tp => str "@tparam " ++ tp ++ str " TODO FILL IN TPARAM")
      (missing_tparam tg d)
  ++ map (fun p => str "@param " ++ p ++ str " TODO FILL IN PARAM")
         (missing_param tg d)
  ++ (if needs_return_stub tg d then [str "@return TODO FILL IN RETURN"]
      else []).

(** One entry of [preserved_lines]. *)
Definition preserve_line (l : text) : bool * text :=
  match rmatch STAR_LINE_RE l with
  | Some mstar =>
      let suffix := group_or_empty l mstar 1 in
      if text_eqb suffix [] then (true, []) else (true, suffix)
  | None => (false, Py.strip l)
  end.

(** The text before the opener on its own line. *)
Definition line_prefix (t : text) (start : nat) : text :=
  match Py.rfind_nl t start with
  | None => firstn start t
  | Some i => Py.slice t (i + 1) start
  end.

(** [re.match(r"^\s*", line_prefix).group(0)] *)
Definition leading_ws_of (lp : text) : option text :=
  m <- rmatch LEADING_WS_RE lp ;; group lp m 0.

Definition emit_preserved (ws : text) (pl : bool * text) : text :=
  let (is_star, content) := pl in
  if is_star then
    if text_eqb content [] then ws ++ str " *"
    else ws ++ str " *" ++ content
  else ws ++ str " * " ++ content.

(** [new_full] *)
Definition new_full (t : text) (start : nat) (block : text)
  (ins : list text) : option text :=
  let preserved_lines := map preserve_line (Py.splitlines block) in
  ws <- leading_ws_of (line_prefix t start) ;;
  let parts :=
    [str "/**"]
    ++ map (emit_preserved ws) preserved_lines
    ++ map (fun ln => ws ++ str " * " ++ ln) ins
    ++ [ws ++ str " */"] in
  Some (Py.join [NL] parts).

(** [new_text[:start + offset] + new_full + new_text[end + offset:]] *)
Definition splice (buf : text) (offset : Z) (start stop : nat)
  (repl : text) : text :=
  Py.prefix buf (Z.of_nat start + offset) ++ repl
  ++ Py.suffix buf (Z.of_nat stop + offset).

Definition shift (offset : Z) (start stop : nat) (repl : text) : Z :=
  (offset + (Z.of_nat (length repl) - (Z.of_nat stop - Z.of_nat start)))%Z.

(** *** [analyze_file] *)

(** One entry of [results]. *)
Record result : Type := Result {
  r_line : nat;
  r_decl : decl;
  r_tags : tags;
  r_issues : list text;
  r_excerpt : list text
}.

(** The variables carried round the loop over the blocks. *)
Record loop_state : Type := LoopState {
  new_text : text;
  offset : Z;
  results : list result
}.

(** The loop body, for the match [m] of [SCALADOC_RE] in the text [t]. *)
Definition analyze_block (t : text) (fix_ : bool) (st : loop_state)
  (m : match_obj) : option loop_state :=
  let start := m_start m in
  let stop := m_end m in
  let block := group_or_empty t m 1 in
  let tg := extract_tags block in
  let (chunk, line) := get_declaration_after t stop in
  d <- parse_declaration chunk ;;
  let issues := issues_of tg d in
  let res := Result line d tg issues
               (firstn 3 (Py.splitlines (Py.strip block))) in
  if (fix_ && nonempty (insert_lines tg d))%bool then
    nf <- new_full t start block (insert_lines tg d) ;;
    Some (LoopState (splice (new_text st) (offset st) start stop nf)
                    (shift (offset st) start stop nf)
                    (results st ++ [res]))
  else
    Some (LoopState (new_text st) (offset st) (results st ++ [res])).

Fixpoint analyze_loop (t : text) (fix_ : bool) (st : loop_state)
  (ms : list match_obj) : option loop_state :=
  match ms with
  | [] => Some st
  | m :: ms' =>
      st' <- analyze_block t fix_ st m ;; analyze_loop t fix_ st' ms'
  end.

(** What [analyze_file] leaves behind: the report, and the file content
    written back ([None] when the file is not written). *)
Record outcome : Type := Outcome {
  report : list result;
  written : option text
}.

(** [analyze_file], on the content [t] of the file. *)
Definition analyze_file (t : text) (fix_ : bool) : option outcome :=
  st <- analyze_loop t fix_ (LoopState t 0%Z []) (finditer SCALADOC_RE t) ;;
  Some (Outcome (results st)
                (if (fix_ && negb (text_eqb (new_text st) t))%bool
                 then Some (new_text st) else None)).

(** *** [summarize_reports] and [main] *)

(** The value returned by [summarize_reports]: the number of issue
    messages over all reports. *)
Definition summarize_reports (reports : list (list result)) : nat :=
  list_sum (map (fun r => list_sum (map (fun item => length (r_issues item)) r))
                reports).

(** The reports gathered by [main]: a file whose analysis raises is
    reported on the error stream and left out. *)
Fixpoint gather (files : list text) (fix_ : bool) : list (list result) :=
  match files with
  | [] => []
  | f :: fs =>
      match analyze_file f fix_ with
      | Some o => report o :: gather fs fix_
      | None => gather fs fix_
      end
  end.

(** The exit status of [main]: [is_dir] tells whether the folder exists,
    [files] are the contents of the Scala files found under it. *)
Definition main (is_dir : bool) (files : list text) (fix_ : bool) : nat :=
  if negb is_dir then 2
  else
    let issues := summarize_reports (gather files fix_) in
    if issues =? 0 then 0 else 1.

End Checker.

(** ** tools/scaladoc_indent_fixer.py *)

Module IndentFixer.
Import Re.

Definition SCALADOC_RE : re := Checker.SCALADOC_RE.
Definition STAR_LINE_RE : re := Checker.STAR_LINE_RE.
Definition LEADING_WS_RE : re := Checker.LEADING_WS_RE.

(** [^ ( \s* ) \*], tokens spaced out *)
Definition STAR_PREFIX_RE : re :=
  Seqs [Bol; Grp 1 (Star true Space); Chr "*"].

(** The flag [original_had_trailing_star_blank]: the loop over the
    reversed lines leaves at its first round, so only the last line of the
    block is looked at. *)
Definition had_trailing_star_blank (inner_lines : list text) : bool :=
  match rev inner_lines with
  | [] => false
  | l :: _ =>
      match rmatch STAR_LINE_RE l with
      | Some mrev => text_eqb (Py.strip (group_or_empty l mrev 1)) []
      | None => text_eqb (Py.strip l) []
      end
  end.

(** The whitespace before the star of every line that starts with one. *)
Fixpoint star_prefixes (inner_lines : list text) : list text :=
  match inner_lines with
  | [] => []
  | l :: ls =>
      match rmatch STAR_PREFIX_RE l with
      | Some mstar => group_or_empty l mstar 1 :: star_prefixes ls
      | None => star_prefixes ls
      end
  end.

Definition need_rewrite (normalize_all : bool) (ws : text)
  (inner_lines : list text) : bool :=
  (normalize_all
   || (length (star_prefixes inner_lines) =? 0)
   || existsb (fun p => negb (text_eqb p ws)) (star_prefixes inner_lines))%bool.

Definition emit_preserve (ws c : text) : text :=
  if Py.startswith c (str " ") then ws ++ str " *" ++ c
  else ws ++ str " * " ++ c.

Definition emit_normalized (ws c : text) : text :=
  let cs := Py.lstrip c in
  if text_eqb cs [] then ws ++ str " *" else ws ++ str " * " ++ cs.

(** The loop that rebuilds the lines of a block; [code] and [pre] are the
    flags [in_code_block] and [in_pre_block]. *)
Fixpoint build_parts (ws : text) (code pre : bool) (inner_lines : list text)
  : list text :=
  match inner_lines with
  | [] => []
  | l :: ls =>
      let content :=
        match rmatch STAR_LINE_RE l with
        | Some mstar => group_or_empty l mstar 1
        | None => l
        end in
      let stripped_for_fence := Py.lstrip content in
      if (negb code && Py.startswith stripped_for_fence (str "{{{"))%bool
      then emit_preserve ws content :: build_parts ws true pre ls
      else if code
      then emit_preserve ws content ::
           build_parts ws (negb (Py.contains content (str "}}}"))) pre ls
      else if (negb pre
               && Py.startswith (Py.lower stripped_for_fence) (str "<pre>"))%bool
      then emit_preserve ws content :: build_parts ws code true ls
      else if pre
      then emit_preserve ws content ::
           build_parts ws code
             (negb (Py.contains (Py.lower stripped_for_fence) (str "</pre>")))
             ls
      else if Py.startswith content (str " ")
      then emit_preserve ws content :: build_parts ws code pre ls
      else emit_normalized ws content :: build_parts ws code pre ls
  end.

(** [parts.pop()] when the last part is a bare star line that the original
    did not have. *)
Definition drop_artificial_blank (ws : text) (had_blank : bool)
  (parts : list text) : list text :=
  match rev parts with
  | last :: _ =>
      if (negb had_blank && text_eqb last (ws ++ str " *"))%bool
      then removelast parts else parts
  | [] => parts
  end.

(** [new_block] *)
Definition new_block (ws : text) (inner_lines : list text) : text :=
  let parts := str "/**" :: build_parts ws false false inner_lines in
  let parts := drop_artificial_blank ws (had_trailing_star_blank inner_lines)
                 parts in
  Py.join [NL] (parts ++ [ws ++ str " */"]).

(** [b.strip().splitlines()[0] if b.strip() else b[:40]] *)
Definition preview (b : text) : option text :=
  if nonempty (Py.strip b) then index0 (Py.splitlines (Py.strip b))
  else Some (firstn 40 b).

Definition change : Type := (nat * text * text)%type.

Record loop_state : Type := LoopState {
  new_text : text;
  offset : Z;
  changes : list change
}.

(** The loop body, for the match [m] of [SCALADOC_RE] in the text [t]. *)
Definition fix_block (t : text) (normalize_all : bool) (st : loop_state)
  (m : match_obj) : option loop_state :=
  let start := m_start m in
  let stop := m_end m in
  let inner := group_or_empty t m 1 in
  let start_line :=
    match Py.rfind_nl t start with
    | None => 1
    | Some _ => Py.count NL (firstn start t) + 1
    end in
  ws <- Checker.leading_ws_of (Checker.line_prefix t start) ;;
  let inner_lines := Py.splitlines inner in
  let original_block := Py.slice t start stop in
  if (negb (Py.contains original_block [NL]) && negb normalize_all)%bool
  then Some st
  else if negb (need_rewrite normalize_all ws inner_lines) then Some st
  else
    let nb := new_block ws inner_lines in
    if negb (text_eqb nb original_block) then
      orig_preview <- preview original_block ;;
      new_preview <- preview nb ;;
      Some (LoopState
              (Checker.splice (new_text st) (offset st) start stop nb)
              (Checker.shift (offset st) start stop nb)
              (changes st ++ [(start_line, orig_preview, new_preview)]))
    else Some st.

Fixpoint fix_loop (t : text) (normalize_all : bool) (st : loop_state)
  (ms : list match_obj) : option loop_state :=
  match ms with
  | [] => Some st
  | m :: ms' =>
      st' <- fix_block t normalize_all st m ;;
      fix_loop t normalize_all st' ms'
  end.

(** [analyze_and_fix_text] *)
Definition analyze_and_fix_text (t : text) (normalize_all : bool)
  : option (text * list change) :=
  st <- fix_loop t normalize_all (LoopState t 0%Z [])
          (finditer SCALADOC_RE t) ;;
  Some (new_text st, changes st).

(** The list [changed_files] of [main], by the number of changes of each
    file; a file whose processing raises is left out. *)
Fixpoint changed_files (files : list text) (normalize_all : bool)
  : list nat :=
  match files with
  | [] => []
  | f :: fs =>
      match analyze_and_fix_text f normalize_all with
      | Some (_, ch) =>
          if nonempty ch then length ch :: changed_files fs normalize_all
          else changed_files fs normalize_all
      | None => changed_files fs normalize_all
      end
  end.

(** The exit status of [main]. *)
Definition main (is_dir : bool) (files : list text)
  (fix_ normalize_all : bool) : nat :=
  if negb is_dir then 2
  else if (negb fix_ && nonempty (changed_files files normalize_all))%bool
  then 1
  else 0.

End IndentFixer.

(** ** check_docs.py *)

Module CheckDocs.
Import Re.

(** [is_documented(lines, line_idx)].  The walk goes backwards from the
    line before [line_idx]; [walk] takes the lines before it, nearest
    first.  [in_comment] is true inside the inner loop that looks for the
    opener of a comment whose end has been seen. *)
Definition comment_opener (walk : bool -> list text -> bool) (l : text)
  (before : list text) : bool :=
  if Py.contains l (str "/**") then true
  else if (Py.contains l (str "/*") && negb (Py.contains l (str "/**")))%bool
  then walk false before
  else walk true before.

Fixpoint walk (in_comment : bool) (ls : list text) : bool :=
  match ls with
  | [] => false
  | l :: before =>
      if in_comment then comment_opener walk l before
      else
        let line := Py.strip l in
        if negb (nonempty line) then walk false before
        else if Py.startswith line (str "//") then walk false before
        else if Py.startswith line (str "@") then walk false before
        else if Py.endswith line (str "*/") then comment_opener walk l before
        else false
  end.

Definition is_documented (lines : list text) (line_idx : nat) : bool :=
  walk false (rev (firstn line_idx lines)).

Inductive visibility : Type :=
| Private | PackagePrivate | Protected | Public.

Definition DQUOTE : ascii := ascii_of_N 34.
Definition SQUOTE : ascii := ascii_of_N 39.

(** A double-quoted run without a double quote inside, and the same for
    single quotes: the patterns of the two [re.sub] calls. *)
Definition STRING_RE : re :=
  Seqs [Chr DQUOTE; Star true (Not (chr_eqb DQUOTE)); Chr DQUOTE].
Definition CHAR_RE : re :=
  Seqs [Chr SQUOTE; Star true (Not (chr_eqb SQUOTE)); Chr SQUOTE].

(** [\bprivate\b], [\bprotected\s*\[], [\bprotected\b] *)
Definition PRIVATE_RE : re := Seqs [WordB; Lit (str "private"); WordB].
Definition PROTECTED_PKG_RE : re :=
  Seqs [WordB; Lit (str "protected"); Star true Space; Chr "["].
Definition PROTECTED_RE : re := Seqs [WordB; Lit (str "protected"); WordB].

Definition found (r : re) (s : text) : bool :=
  match search r s with Some _ => true | None => false end.

(** [get_visibility] *)
Definition get_visibility (line : text) : visibility :=
  let line_cleaned := sub_empty STRING_RE line in
  let line_cleaned := sub_empty CHAR_RE line_cleaned in
  if found PRIVATE_RE line_cleaned then Private
  else if found PROTECTED_PKG_RE line_cleaned then PackagePrivate
  else if found PROTECTED_RE line_cleaned then Protected
  else Public.

(** [should_check_docs] *)
Definition should_check_docs (v : visibility) : bool :=
  match v with
  | Public | Protected => true
  | Private | PackagePrivate => false
  end.

(** *** [VisibilityTracker]: the stack, top first *)

Definition frame : Type := (nat * visibility)%type.

Definition indent_of (line : text) : nat :=
  length line - length (Py.lstrip line).

Definition enter_container (indent_level : nat) (v : visibility)
  (stack : list frame) : list frame :=
  (indent_level, v) :: stack.

Fixpoint pop_exited (indent : nat) (stack : list frame) : list frame :=
  match stack with
  | (lvl, v) :: below =>
      if indent <=? lvl then pop_exited indent below else stack
  | [] => []
  end.

Definition update_for_line (line : text) (stack : list frame)
  : list frame :=
  if negb (nonempty (Py.strip line)) then stack
  else pop_exited (indent_of line) stack.

Definition is_in_private_container (stack : list frame) : bool :=
  existsb (fun f => match snd f with
                    | Private | PackagePrivate => true
                    | _ => false
                    end) stack.

(** *** [BraceTracker] *)

Record brace_tracker : Type := BraceTracker {
  depth : Z;
  in_method_body : bool
}.

(** [//.*$] *)
Definition LINE_COMMENT_RE : re :=
  Seqs [Lit (str "//"); Star true Any; Eol].

Definition process_line (line : text) (is_method_def : bool)
  (b : brace_tracker) : brace_tracker :=
  let stripped := Py.strip line in
  let cleaned := sub_empty STRING_RE stripped in
  let cleaned := sub_empty CHAR_RE cleaned in
  let cleaned := sub_empty LINE_COMMENT_RE cleaned in
  let open_braces := Py.count "{" cleaned in
  let close_braces := Py.count "}" cleaned in
  let inm := if (is_method_def && (0 <? open_braces))%bool then true
             else in_method_body b in
  let d := (depth b + Z.of_nat open_braces - Z.of_nat close_braces)%Z in
  if (d <=? 0)%Z then BraceTracker 0 false else BraceTracker d inm.

Definition is_in_method (b : brace_tracker) : bool := in_method_body b.

(** *** The patterns of [analyze_file] *)

(** [(?:(?:private|protected)(?:\[[^\]]*\])?\s+)?] *)
Definition access_prefix : re :=
  Opt (Seqs [Alt (Lit (str "private")) (Lit (str "protected"));
             Opt (Seqs [Chr "["; Star true (Not (chr_eqb "]")); Chr "]"]);
             Plus Space]).

Definition class_pattern : re :=
  Seqs [Bol; Star true Space; access_prefix;
        Star true (Alts [Seq (Lit (str "sealed")) (Plus Space);
                         Seq (Lit (str "final")) (Plus Space);
                         Seq (Lit (str "abstract")) (Plus Space)]);
        Grp 1 (Alts [Lit (str "class"); Lit (str "trait");
                     Lit (str "object"); Lit (str "enum")]);
        Plus Space; Grp 2 (Plus Word)].

Definition def_pattern : re :=
  Seqs [Bol; Star true Space; access_prefix;
        Opt (Seq (Lit (str "override")) (Plus Space));
        Lit (str "def"); Plus Space;
        Grp 1 (Alt (Plus Word) (Plus (Not is_word)));
        Star true Space;
        Cls (fun c => (chr_eqb c "[" || chr_eqb c "(" || chr_eqb c ":")%bool)].

Definition member_pattern (kw : text) : re :=
  Seqs [Bol; Star true Space; access_prefix; Lit kw; Plus Space;
        Grp 1 (Plus Word); Star true Space; Chr ":"].

Definition val_pattern : re := member_pattern (str "val").
Definition var_pattern : re := member_pattern (str "var").

(** One entry of [undocumented] (the file name is left out). *)
Record entry : Type := Entry {
  e_line : nat;
  e_type : text;
  e_name : text;
  e_content : text
}.

Record scan_state : Type := ScanState {
  undocumented : list entry;
  in_multiline_comment : bool;
  stack : list frame;
  braces : brace_tracker
}.

Definition init_state : scan_state :=
  ScanState [] false [] (BraceTracker 0 false).

Definition report_if_undocumented (lines : list text) (i : nat)
  (ty nm stripped : text) (und : list entry) : list entry :=
  if negb (is_documented lines i)
  then und ++ [Entry (i + 1) ty nm (firstn 80 stripped)]
  else und.

(** The body of the loop of [analyze_file] for line number [i]. *)
Definition step (lines : list text) (st : scan_state) (il : nat * text)
  : scan_state :=
  let (i, line) := il in
  let stripped := Py.strip line in
  let stk := update_for_line line (stack st) in
  let imc :=
    if (Py.contains stripped (str "/*")
        && negb (Py.startswith stripped (str "//")))%bool
    then true else in_multiline_comment st in
  if Py.contains stripped (str "*/")
  then ScanState (undocumented st) false stk (braces st)
  else if imc then ScanState (undocumented st) imc stk (braces st)
  else if (negb (nonempty stripped) || Py.startswith stripped (str "//"))%bool
  then ScanState (undocumented st) imc stk (process_line line false (braces st))
  else
    match rmatch class_pattern line with
    | Some class_match =>
        let knd := group_or_empty line class_match 1 in
        let nm := group_or_empty line class_match 2 in
        let v := get_visibility line in
        let stk := enter_container (indent_of line) v stk in
        let br := process_line line false (braces st) in
        let und :=
          if (should_check_docs v && negb (is_in_private_container stk))%bool
          then report_if_undocumented lines i knd nm stripped
                 (undocumented st)
          else undocumented st in
        ScanState und imc stk br
    | None =>
        match rmatch def_pattern line with
        | Some def_match =>
            let nm := group_or_empty line def_match 1 in
            let v := get_visibility line in
            let br := process_line line true (braces st) in
            if is_in_private_container stk
            then ScanState (undocumented st) imc stk br
            else
              let und :=
                if should_check_docs v
                then report_if_undocumented lines i (str "def") nm stripped
                       (undocumented st)
                else undocumented st in
              ScanState und imc stk br
        | None =>
            let br := process_line line false (braces st) in
            if is_in_method br
            then ScanState (undocumented st) imc stk br
            else if is_in_private_container stk
            then ScanState (undocumented st) imc stk br
            else if negb (should_check_docs (get_visibility line))
            then ScanState (undocumented st) imc stk br
            else
              let und :=
                match rmatch val_pattern line with
                | Some val_match =>
                    report_if_undocumented lines i (str "val")
                      (group_or_empty line val_match 1) stripped
                      (undocumented st)
                | None => undocumented st
                end in
              let und :=
                match rmatch var_pattern line with
                | Some var_match =>
                    report_if_undocumented lines i (str "var")
                      (group_or_empty line var_match 1) stripped und
                | None => und
                end in
              ScanState und imc stk br
        end
    end.

(** [enumerate(lines)] *)
Definition enumerate (lines : list text) : list (nat * text) :=
  combine (seq 0 (length lines)) lines.

(** The state after the first [k] lines of the file. *)
Definition state_after (lines : list text) (k : nat) : scan_state :=
  fold_left (step lines) (firstn k (enumerate lines)) init_state.

(** [analyze_file], on the lines read from the file. *)
Definition analyze_file (lines : list text) : list entry :=
  undocumented (fold_left (step lines) (enumerate lines) init_state).

End CheckDocs.

(** ** Vocabulary of the statements on the matcher and on the report *)

(** [s1] is reached from [s0] by consuming characters. *)
Definition reaches (s0 s1 : Re.mstate) : Prop :=
  exists consumed,
    Re.rest s0 = consumed ++ Re.rest s1 /\
    Re.pos s1 = Re.pos s0 + length consumed.

(** [body] hands over to its continuation a state reached from its own. *)
Definition continues (body : Re.mstate -> (Re.mstate -> option Re.mstate)
                             -> option Re.mstate) : Prop :=
  forall st k res,
    body st k = Some res -> exists st1, reaches st st1 /\ k st1 = Some res.

(** The spans of [ms] follow one another from [p] on and end by [n]. *)
Fixpoint spans_ok (p n : nat) (ms : list Re.match_obj) : Prop :=
  match ms with
  | [] => True
  | m :: ms' =>
      p <= Re.m_start m /\ Re.m_start m <= Re.m_end m /\ Re.m_end m <= n /\
      spans_ok (Re.m_end m) n ms'
  end.

(** What one round of the loop adds to [results]. *)
Definition block_result (t : text) (m : Re.match_obj) (d : Checker.decl)
  : Checker.result :=
  let block := Re.group_or_empty t m 1 in
  let tg := Checker.extract_tags block in
  Checker.Result (snd (Checker.get_declaration_after t (Re.m_end m))) d tg
    (Checker.issues_of tg d)
    (firstn 3 (Py.splitlines (Py.strip block))).

(** ** Rewrite plans

    Both tools replace blocks in a running buffer.  A plan lists, for every
    block found in the original text, its span there and the text that
    replaces it ([None] when the block is left alone). *)

Definition plan_entry : Type := (nat * nat * option text)%type.

(** One round of the running buffer: the shared splice and offset update. *)
Definition apply_entry (st : text * Z) (e : plan_entry) : text * Z :=
  let '(start, stop, r) := e in
  match r with
  | Some repl =>
      (Checker.splice (fst st) (snd st) start stop repl,
       Checker.shift (snd st) start stop repl)
  | None => st
  end.

Definition run_plan (t : text) (plan : list plan_entry) : text * Z :=
  fold_left apply_entry plan (t, 0%Z).

(** The text a block has after the pass. *)
Definition entry_text (t : text) (e : plan_entry) : text :=
  let '(start, stop, r) := e in
  match r with
  | Some repl => repl
  | None => Py.slice t start stop
  end.

(** The intended result: the original text from [from] on, with every
    block of the plan replaced and everything between the blocks kept. *)
Fixpoint spliced (t : text) (from : nat) (plan : list plan_entry) : text :=
  match plan with
  | [] => skipn from t
  | e :: plan' =>
      Py.slice t from (fst (fst e)) ++ entry_text t e
      ++ spliced t (snd (fst e)) plan'
  end.

(** Replacement length minus original length, summed over the plan. *)
Fixpoint total_shift (plan : list plan_entry) : Z :=
  match plan with
  | [] => 0%Z
  | (start, stop, Some repl) :: plan' =>
      (Z.of_nat (length repl) - (Z.of_nat stop - Z.of_nat start)
       + total_shift plan')%Z
  | (_, _, None) :: plan' => total_shift plan'
  end.

(** The spans of the plan follow one another from [from] on and end by [n]. *)
Fixpoint plan_ok (from n : nat) (plan : list plan_entry) : Prop :=
  match plan with
  | [] => True
  | (start, stop, _) :: plan' =>
      from <= start /\ start <= stop /\ stop <= n /\ plan_ok stop n plan'
  end.

(** The replacement the checker makes for the block matched by [m]. *)
Definition checker_replacement (t : text) (fix_ : bool) (m : Re.match_obj)
  : option text :=
  let block := Re.group_or_empty t m 1 in
  let tg := Checker.extract_tags block in
  match Checker.parse_declaration
          (fst (Checker.get_declaration_after t (Re.m_end m))) with
  | Some d =>
      if (fix_ && nonempty (Checker.insert_lines tg d))%bool
      then Checker.new_full t (Re.m_start m) block (Checker.insert_lines tg d)
      else None
  | None => None
  end.

Definition checker_plan (t : text) (fix_ : bool) : list plan_entry :=
  map (fun m => (Re.m_start m, Re.m_end m, checker_replacement t fix_ m))
      (Re.finditer Checker.SCALADOC_RE t).

(** The replacement the indentation fixer makes for the block matched by
    [m]. *)
Definition fixer_replacement (t : text) (normalize_all : bool)
  (m : Re.match_obj) : option text :=
  match Checker.leading_ws_of (Checker.line_prefix t (Re.m_start m)) with
  | Some ws =>
      let inner_lines := Py.splitlines (Re.group_or_empty t m 1) in
      let original_block := Py.slice t (Re.m_start m) (Re.m_end m) in
      if (negb (Py.contains original_block [NL]) && negb normalize_all)%bool
      then None
      else if negb (IndentFixer.need_rewrite normalize_all ws inner_lines)
      then None
      else
        let nb := IndentFixer.new_block ws inner_lines in
        if negb (text_eqb nb original_block) then Some nb else None
  | None => None
  end.

Definition fixer_plan (t : text) (normalize_all : bool) : list plan_entry :=
  map (fun m => (Re.m_start m, Re.m_end m,
                 fixer_replacement t normalize_all m))
      (Re.finditer IndentFixer.SCALADOC_RE t).

(** ** Documentation blocks, read off the text

    What [SCALADOC_RE] finds, said without the matcher: a block starts with
    the opener and ends with the first closer that begins at least three
    characters after the start of the opener. *)

(** The index of the first closer in [s]. *)
Fixpoint find_close (s : text) : option nat :=
  match s with
  | [] => None
  | _ :: s' =>
      if Py.startswith s (str "*/") then Some 0
      else option_map S (find_close s')
  end.

(** The length of the block that starts at the head of [s]. *)
Definition block_len (s : text) : option nat :=
  if Py.startswith s (str "/**")
  then option_map (fun i => i + 5) (find_close (skipn 3 s))
  else None.

(** The first block of [s]: how far it starts, and its length. *)
Fixpoint first_block (s : text) : option (nat * nat) :=
  match block_len s with
  | Some n => Some (0, n)
  | None =>
      match s with
      | [] => None
      | _ :: s' => option_map (fun b => (S (fst b), snd b)) (first_block s')
      end
  end.

(** The spans of the blocks of [s], which starts at position [p]. *)
Fixpoint blocks_from (fuel : nat) (p : nat) (s : text) : list (nat * nat) :=
  match fuel with
  | O => []
  | S f =>
      match first_block s with
      | None => []
      | Some (i, n) =>
          (p + i, p + i + n) :: blocks_from f (p + i + n) (skipn (i + n) s)
      end
  end.

(** A replacement is a well-closed block: it starts with the opener and
    its first closer is its end. *)
Definition well_closed (r : text) : bool :=
  match block_len r with
  | Some n => n =? length r
  | None => false
  end.

(** ** Re-scanning

    Helpers to state what a second scan of a rewritten text finds. *)

Definition closer_k (p0 : nat) (s1 : Re.mstate) : option Re.mstate :=
  Re.run (Re.Lit (str "*/")) (Re.set_cap 1 p0 (Re.pos s1) s1) Some.

Definition span_caps (st : Re.mstate) : nat * list (nat * (nat * nat)) :=
  (Re.pos st, Re.caps st).

Definition block_match (a b : nat) : Re.match_obj :=
  Re.Match a b [(1, (a + 3, b - 2))].

Definition closed_entry (e : plan_entry) : Prop :=
  match snd e with
  | Some r => well_closed r = true
  | None => True
  end.

(** The spans the blocks of a plan have in the rewritten text, when the
    text from [from] on is laid at position [p']. *)
Fixpoint new_spans (t : text) (p' from : nat) (plan : list plan_entry)
  : list (nat * nat) :=
  match plan with
  | [] => []
  | e :: plan' =>
      let a := p' + (fst (fst e) - from) in
      let b := a + length (entry_text t e) in
      (a, b) :: new_spans t b (snd (fst e)) plan'
  end.

(** What a second scan finds: the span and the text of every block. *)
Definition rescan (new : text) : list (nat * nat * text) :=
  map (fun m => (Re.m_start m, Re.m_end m,
                 Py.slice new (Re.m_start m) (Re.m_end m)))
      (Re.finditer Checker.SCALADOC_RE new).

(** What the pass intends: every block of the plan, in source order, at
    its original start shifted by the lengths gained or lost by the
    replacements before it, with the text the plan gives it. *)
Fixpoint expected_blocks (t : text) (shift : Z) (plan : list plan_entry)
  : list (nat * nat * text) :=
  match plan with
  | [] => []
  | e :: plan' =>
      let a := Z.to_nat (Z.of_nat (fst (fst e)) + shift) in
      let r := entry_text t e in
      (a, a + length r, r)
      :: expected_blocks t
           (shift + (Z.of_nat (length r)
                     - (Z.of_nat (snd (fst e)) - Z.of_nat (fst (fst e)))))
           plan'
  end.

Definition C5_text : text :=
  str "/** Doc. */
def f[A /* x */](a: A): A = a".

(** ** Text without a closer *)

(** No closer in [s]. *)
Definition no_closer (s : text) : Prop := find_close s = None.

(** [s] does not start with a slash. *)
Definition no_slash_head (s : text) : Prop :=
  match s with
  | c :: _ => chr_eqb "/" c = false
  | [] => True
  end.

(** [s] can follow any text without closing a block. *)
Definition calm (s : text) : Prop := no_closer s /\ no_slash_head s.

(** The lines of a rebuilt block after the opener line, up to the closer. *)
Definition block_body (ws : text) (bp : list text) : text :=
  concat (map (fun p => p ++ [NL]) bp) ++ ws ++ [SP].

Definition all_space (ws : text) : Prop :=
  Forall (fun c => is_space c = true) ws.

(** The lines the checker inserts into the block matched by [m]. *)
Definition inserted_lines (t : text) (fix_ : bool) (m : Re.match_obj)
  : list text :=
  match Checker.parse_declaration
          (fst (Checker.get_declaration_after t (Re.m_end m))) with
  | Some d =>
      if fix_
      then Checker.insert_lines
             (Checker.extract_tags (Re.group_or_empty t m 1)) d
      else []
  | None => []
  end.

(** ** Blocks that the indentation fixer regards as normalized *)

(** The block matched by [m] in [t] spans several lines. *)
Definition multi_line (t : text) (m : Re.match_obj) : bool :=
  Py.contains (Py.slice t (Re.m_start m) (Re.m_end m)) [NL].

(** The continuation lines of the block matched by [m] are aligned on the
    opener: at least one line starts with a star, and the whitespace before
    the star of every such line is the whitespace before the opener. *)
Definition aligned_on_opener (t : text) (m : Re.match_obj) : bool :=
  match Checker.leading_ws_of (Checker.line_prefix t (Re.m_start m)) with
  | Some ws =>
      let prefixes :=
        IndentFixer.star_prefixes (Py.splitlines (Re.group_or_empty t m 1)) in
      (nonempty prefixes && forallb (fun p => text_eqb p ws) prefixes)%bool
  | None => false
  end.

(** [l] is [ws], a run of whitespace, and then a star. *)
Definition star_after (ws l : text) : Prop :=
  all_space ws /\ exists tl, l = ws ++ "*"%char :: tl.

(** The continuation lines of the block matched by [m] are aligned on the
    opener: some line starts, after whitespace, with a star, and on every
    such line the whitespace before the star is the whitespace before the
    opener on its own line. *)
Definition continuation_aligned (t : text) (m : Re.match_obj) : Prop :=
  exists ws0,
    Checker.leading_ws_of (Checker.line_prefix t (Re.m_start m)) = Some ws0 /\
    (exists l, In l (Py.splitlines (Re.group_or_empty t m 1)) /\
               star_after ws0 l) /\
    (forall l ws, In l (Py.splitlines (Re.group_or_empty t m 1)) ->
                  star_after ws l -> ws = ws0).

Definition C2_text : text :=
  str "object A {
  /** Adds one.
  * @param x the number
  */
  def inc(x: Int): Int = x + 1
}".



(** ** Inputs of the scenarios *)

Definition C1_input : text :=
  str "/** Identity. */
def foo[T](x: T): T = x".

Definition C3_input : text :=
  str "/**
 * a
 */".

Definition C3_once : text :=
  str "/**
 *
 * a
 * 
 */".

Definition C3_twice : text :=
  str "/**
 *
 *
 * a
 * 
 * 
 */".

Definition C4_text : text :=
  str "/** Runs it.
  * @return nothing
  */
def run(): Unit = ()".

Definition C4_result : Checker.result :=
  Checker.Result 3
    (Checker.Decl (str "def") (str "run") [] [] (Some (str "Unit")))
    (Checker.Tags [] [] [[]])
    [Checker.MSG_UNEXPECTED_RETURN]
    [str "Runs it."; str "  * @return nothing"].

Definition C4_outcome : Checker.outcome := Checker.Outcome [C4_result] None.

Definition C4_unit_text : text :=
  str "/** Runs it.
  * @param x the number
  */
def run(x: Int): Unit = ()".

Definition C4_unit_tagged_text : text :=
  str "/** Runs it.
  * @param x the number
  * @return nothing
  */
def run(x: Int): Unit = ()".

Definition C9_file : text :=
  str "/** Adds one. */
def inc(x: Int): Int = x + 1".

Definition C9_block : text :=
  str "/**
 * Adds one.
 * @param x TODO FILL IN PARAM
 * @return TODO FILL IN RETURN
 */".

Definition C9_fixed : text :=
  str "/**
 * Adds one.
 * @param x TODO FILL IN PARAM
 * @return TODO FILL IN RETURN
 */
def inc(x: Int): Int = x + 1".

Definition C6_lines : list text :=
  [str "private class Foo {
"; str "  def bar: Int = 1
"; str "}
"].

(** ** Vocabulary of the statements on the checker *)

(** The blocks follow one another from [p] on, none is empty, and they end
    by [n]. *)
Fixpoint blocks_ok (p n : nat) (bs : list (nat * nat * text)) : Prop :=
  match bs with
  | [] => True
  | b :: bs' =>
      p <= fst (fst b) /\ fst (fst b) < snd (fst b) /\ snd (fst b) <= n /\
      blocks_ok (snd (fst b)) n bs'
  end.

(** The list of parts with its last part stripped, and dropped when it is
    blank: what [split_by_commas_top_level] does at the end of its loop. *)
Definition strip_last (ps : list text) : list text :=
  removelast ps
  ++ (if nonempty (Py.strip (last ps [])) then [Py.strip (last ps [])]
      else []).

(** No bracket of any kind in [s]. *)
Definition no_bracket (s : text) : Prop :=
  Forall (fun ch => Checker.is_open ch = false /\ Checker.is_close ch = false)
         s.

(** Neither a bracket nor a comma in [s]. *)
Definition plain (s : text) : Prop :=
  Forall (fun ch => Checker.is_open ch = false /\ Checker.is_close ch = false
                    /\ chr_eqb ch "," = false) s.

(** Text whose brackets are nested: every closing bracket answers an
    opening one (of any kind, as the splitter does not tell them apart). *)
Inductive nested : text -> Prop :=
| nested_nil : nested []
| nested_chr (ch : ascii) :
    Checker.is_open ch = false -> Checker.is_close ch = false -> nested [ch]
| nested_app (x y : text) : nested x -> nested y -> nested (x ++ y)
| nested_wrap (o c : ascii) (x : text) :
    Checker.is_open o = true -> Checker.is_close c = true -> nested x ->
    nested (o :: x ++ [c]).

(** The values that the field [kind] of a parsed declaration can take. *)
Definition kinds : list text :=
  [str "class"; str "trait"; str "object"; str "def"; str "val"; str "var";
   str "unknown"].

(** Some message of [issues] starts with [head]. *)
Definition flagged (head : text) (issues : list text) : Prop :=
  exists msg, In msg issues /\ Py.startswith msg head = true.

(** The declaration that the checker parses after the block matched by
    [m] (the parser never raises). *)
Definition decl_after (t : text) (m : Re.match_obj) : Checker.decl :=
  match Checker.parse_declaration
          (fst (Checker.get_declaration_after t (Re.m_end m))) with
  | Some d => d
  | None => Checker.unknown_decl
  end.

(** ** Vocabulary of the statements on the indentation fixer *)

(** The content of a line of a block, as the rebuilding loop takes it: the
    text after the star when the line starts with one, the line itself
    otherwise. *)
Definition line_content (l : text) : text :=
  match Re.rmatch IndentFixer.STAR_LINE_RE l with
  | Some mstar => Re.group_or_empty l mstar 1
  | None => l
  end.

(** The plan replaces the block of the entry [e]. *)
Definition rewritten (e : plan_entry) : bool :=
  match snd e with Some _ => true | None => false end.

(** ** [process_file] of tools/scaladoc_indent_fixer.py *)

(** [process_file], on the content [t] of the file: the content written
    back ([None] when the file is not written), and the pair of the number
    of blocks examined and the number of blocks changed. *)
Definition process_file (t : text) (fix_ normalize_all : bool)
  : option (option text * (nat * nat)) :=
  r <- IndentFixer.analyze_and_fix_text t normalize_all ;;
  Some (if (nonempty (snd r) && fix_)%bool then Some (fst r) else None,
        (length (Re.finditer IndentFixer.SCALADOC_RE t), length (snd r))).

(** ** Vocabulary of the statements on check_docs *)

(** The invariant of the brace tracker: the depth is never negative, and
    the method-body flag is only up at a positive depth. *)
Definition tracker_ok (b : CheckDocs.brace_tracker) : Prop :=
  (0 <= CheckDocs.depth b)%Z /\
  (CheckDocs.in_method_body b = true -> (0 < CheckDocs.depth b)%Z).

(** Every element is smaller than all the elements before it. *)
Fixpoint descending (xs : list nat) : Prop :=
  match xs with
  | [] => True
  | x :: xs' => Forall (fun y => y < x) xs' /\ descending xs'
  end.

(** No element is smaller than an element before it. *)
Fixpoint nondecreasing (xs : list nat) : Prop :=
  match xs with
  | [] => True
  | x :: xs' => Forall (fun y => x <= y) xs' /\ nondecreasing xs'
  end.

(** A line that the backward walk of [is_documented] steps over: blank, a
    line comment, or an annotation. *)
Definition skippable (l : text) : bool :=
  (negb (nonempty (Py.strip l))
   || Py.startswith (Py.strip l) (str "//")
   || Py.startswith (Py.strip l) (str "@"))%bool.

(** A line on which the backward walk of [is_documented] sees the end of a
    comment. *)
Definition ends_comment (l : text) : bool :=
  (negb (skippable l) && Py.endswith (Py.strip l) (str "*/"))%bool.

(** Where the type and the name of an entry for the line [l] come from:
    the class pattern first, then the def pattern, then the val and var
    patterns. *)
Definition classified (l : text) (e : CheckDocs.entry) : Prop :=
  match Re.rmatch CheckDocs.class_pattern l with
  | Some m =>
      CheckDocs.e_type e = Re.group_or_empty l m 1 /\
      CheckDocs.e_name e = Re.group_or_empty l m 2
  | None =>
      match Re.rmatch CheckDocs.def_pattern l with
      | Some m =>
          CheckDocs.e_type e = str "def" /\
          CheckDocs.e_name e = Re.group_or_empty l m 1
      | None =>
          (exists m, Re.rmatch CheckDocs.val_pattern l = Some m /\
                     CheckDocs.e_type e = str "val" /\
                     CheckDocs.e_name e = Re.group_or_empty l m 1) \/
          (exists m, Re.rmatch CheckDocs.var_pattern l = Some m /\
                     CheckDocs.e_type e = str "var" /\
                     CheckDocs.e_name e = Re.group_or_empty l m 1)
      end
  end.

(** What holds of an entry that the loop of [analyze_file] appends for the
    line [l] of index [k]. *)
Definition reported (lines : list text) (k : nat) (l : text)
  (e : CheckDocs.entry) : Prop :=
  CheckDocs.e_line e = k + 1 /\
  CheckDocs.e_content e = firstn 80 (Py.strip l) /\
  CheckDocs.is_documented lines k = false /\
  CheckDocs.should_check_docs (CheckDocs.get_visibility l) = true /\
  Py.contains (Py.strip l) (str "*/") = false /\
  nonempty (Py.strip l) = true /\
  Py.startswith (Py.strip l) (str "//") = false /\
  classified l e.

(** ** Inputs of the examples *)

(** A file with two documented members. *)
Definition X_text : text :=
  str "object A {
  /** Adds.
    * @param x the number
    */
  def inc(x: Int, y: Int): Int = x + y
  /** Two. */
  val two: Int = 2
}".

(** A signature that spans several lines. *)
Definition X_signature : text :=
  str "/** Doc. */
def f(
  x: Int
): Int = x".

(** The entry of the report of the checker for the first block of
    [X_text]. *)
Definition X_result : Checker.result :=
  Checker.Result 4
    (Checker.Decl (str "def") (str "inc") [] [str "x"; str "y"]
       (Some (str "Int, y: Int): Int")))
    (Checker.Tags [str "x"] [] [])
    [str "Missing @param for: y"; Checker.MSG_MISSING_RETURN]
    [str "Adds."; str "    * @param x the number"].

(** The report of the checker for [X_text]. *)
Definition X_report : list Checker.result :=
  [X_result;
   Checker.Result 6 (Checker.Decl (str "val") (str "two") [] [] None)
     (Checker.Tags [] [] []) [] [str "Two."]].

(** What the checker returns for [C9_fixed] under [fix]. *)
Definition X_fixed_outcome : Checker.outcome :=
  Checker.Outcome
    [Checker.Result 5
       (Checker.Decl (str "def") (str "inc") [] [str "x"]
          (Some (str "Int): Int")))
       (Checker.Tags [str "x"] [] [[]]) []
       [str "* Adds one."; str " * @param x TODO FILL IN PARAM";
        str " * @return TODO FILL IN RETURN"]]
    None.

(** The lines of a class with three members. *)
Definition X_lines : list text :=
  [str "class Foo {
"; str "  def bar(x: Int): Int = x
"; str "  /** Doc. */
"; str "  val y: Int = 1
"; str "  private val z: Int = 2
"; str "}
"].

(** The entry that check_docs reports for the second line of
    [X_lines]. *)
Definition X_entry : CheckDocs.entry :=
  CheckDocs.Entry 2 (str "def") (str "bar") (str "def bar(x: Int): Int = x").

(** * Properties *)

(** ** Lists, strings and the exception monad *)

Lemma text_eqb_spec (a b : text) : text_eqb a b = true <-> a = b.
Proof.
  revert b; induction a as [|x a IH]; intros [|y b]; simpl;
    try (split; [discriminate | congruence]); [tauto|].
  rewrite andb_true_iff, IH. unfold chr_eqb. rewrite Ascii.eqb_eq.
  split; [intros [-> ->]; reflexivity | intros H; injection H; auto].
Qed.

Lemma text_eqb_refl (a : text) : text_eqb a a = true.
Proof. apply text_eqb_spec; reflexivity. Qed.

Lemma bind_some {A B : Type} (x : option A) (f : A -> option B) (b : B) :
  bind x f = Some b <-> exists a, x = Some a /\ f a = Some b.
Proof.
  destruct x as [a|]; simpl; split.
  - intros H; exists a; auto.
  - intros [a' [Ha Hf]]; injection Ha as ->; exact Hf.
  - discriminate.
  - intros [a' [Ha _]]; discriminate.
Qed.

Lemma mapM_total {A B : Type} (f : A -> option B) (xs : list A) :
  (forall x, In x xs -> exists y, f x = Some y) ->
  exists ys, mapM f xs = Some ys.
Proof.
  induction xs as [|x xs IH]; intros H; simpl.
  - eexists; reflexivity.
  - destruct (H x (or_introl eq_refl)) as [y Hy].
    destruct IH as [ys Hys]; [intros z Hz; apply H; right; exact Hz|].
    rewrite Hy, Hys; simpl. eexists; reflexivity.
Qed.

Lemma index0_total {A : Type} (xs : list A) :
  xs <> [] -> exists x, index0 xs = Some x.
Proof. destruct xs as [|x xs]; [congruence | intros _; exists x; reflexivity]. Qed.

Lemma nonempty_true {A : Type} (xs : list A) : nonempty xs = true -> xs <> [].
Proof. destruct xs; [discriminate | congruence]. Qed.

Lemma split_chr_nonempty (c : ascii) (s : text) : Py.split_chr c s <> [].
Proof.
  induction s as [|d s IH]; simpl; [congruence|].
  destruct (chr_eqb c d); [congruence|].
  destruct (Py.split_chr c s); congruence.
Qed.

Lemma splitlines_aux_nonempty (cur s : text) :
  cur ++ s <> [] -> Py.splitlines_aux cur s <> [].
Proof.
  revert cur; induction s as [|c s IH]; intros cur H; simpl.
  - rewrite app_nil_r in H. destruct cur; congruence.
  - destruct (is_linebreak c); [congruence|].
    apply IH. destruct cur; simpl; congruence.
Qed.

Lemma splitlines_nonempty (s : text) : s <> [] -> Py.splitlines s <> [].
Proof. intros H; apply splitlines_aux_nonempty; exact H. Qed.

Lemma split_ws_aux_cur (cur s : text) :
  cur <> [] -> Py.split_ws_aux cur s <> [].
Proof.
  revert cur; induction s as [|c s IH]; intros cur H; simpl.
  - destruct cur; congruence.
  - destruct (is_space c).
    + destruct cur; congruence.
    + apply IH; congruence.
Qed.

Lemma split_ws_aux_nonspace (cur s : text) :
  (exists c, In c s /\ is_space c = false) -> Py.split_ws_aux cur s <> [].
Proof.
  revert cur; induction s as [|d s IH]; intros cur [c [Hin Hc]].
  - destruct Hin.
  - simpl. destruct (is_space d) eqn:Hd.
    + destruct Hin as [->|Hin]; [congruence|].
      destruct cur; [apply IH; eauto | congruence].
    + apply split_ws_aux_cur; congruence.
Qed.

Lemma lstrip_head (s : text) (c : ascii) (s' : text) :
  Py.lstrip s = c :: s' -> is_space c = false.
Proof.
  induction s as [|d s IH]; simpl; [discriminate|].
  destruct (is_space d) eqn:Hd; [exact IH|].
  intros H; injection H as <- _; exact Hd.
Qed.

Lemma strip_has_nonspace (s : text) :
  Py.strip s <> [] -> exists c, In c (Py.strip s) /\ is_space c = false.
Proof.
  unfold Py.strip, Py.rstrip. intros H.
  destruct (Py.lstrip (rev (Py.lstrip s))) as [|c r] eqn:E;
    [exfalso; apply H; reflexivity|].
  exists c; split; [|exact (lstrip_head _ E)].
  apply in_rev. rewrite rev_involutive. left; reflexivity.
Qed.

Lemma split_ws_strip_nonempty (s : text) :
  Py.strip s <> [] -> Py.split_ws (Py.strip s) <> [].
Proof.
  intros H; apply split_ws_aux_nonspace, strip_has_nonspace; exact H.
Qed.

(** ** The matcher *)

Lemma star_greedy_total (a : Re.re) (st : Re.mstate) :
  exists st', Re.run (Re.Star true a) st Some = Some st'.
Proof.
  simpl.
  match goal with |- context [match ?x with Some _ => _ | None => _ end] =>
    destruct x end; eexists; reflexivity.
Qed.

Lemma leading_ws_total (lp : text) :
  exists ws, Checker.leading_ws_of lp = Some ws.
Proof.
  unfold Checker.leading_ws_of, Re.rmatch, Re.match_at, Checker.LEADING_WS_RE.
  change (Re.run (Re.Seq Re.Bol (Re.Star true Re.Space))
            (Re.MState 0 None lp []) Some)
    with (Re.run (Re.Star true Re.Space) (Re.MState 0 None lp []) Some).
  destruct (star_greedy_total Re.Space (Re.MState 0 None lp [])) as [st' ->].
  simpl. eexists; reflexivity.
Qed.

(** ** The declaration parser never raises *)

Lemma tparam_name_total (tp : text) : exists n, Checker.tparam_name tp = Some n.
Proof.
  unfold Checker.tparam_name.
  destruct (index0_total (split_chr_nonempty ":" (Py.strip tp))) as [a ->].
  simpl.
  destruct (index0_total (split_chr_nonempty "=" a)) as [b ->].
  simpl. eexists; reflexivity.
Qed.

Lemma param_names_of_part_total (p : text) :
  exists ns, Checker.param_names_of_part p = Some ns.
Proof.
  unfold Checker.param_names_of_part.
  destruct (nonempty (Py.strip p)) eqn:Hp; simpl; [|eexists; reflexivity].
  destruct (Re.rmatch Checker.PARAM_RE (Py.strip p)); [eexists; reflexivity|].
  pose proof (@split_ws_strip_nonempty p (nonempty_true Hp)) as Hne.
  destruct (Py.split_ws (Py.strip p)) as [|tok rest] eqn:E; [congruence|].
  cbn [index0 hd_error bind].
  match goal with |- context [if ?b then _ else Some [tok]] =>
    destruct b end; [|eexists; reflexivity].
  destruct rest as [|nm rest']; simpl; eexists; reflexivity.
Qed.

Lemma extract_param_names_total (parens : text) :
  exists ns, Checker.extract_param_names_from_parens parens = Some ns.
Proof.
  unfold Checker.extract_param_names_from_parens.
  destruct (negb (nonempty parens)); [eexists; reflexivity|].
  match goal with |- context [mapM ?f ?xs] =>
    destruct (@mapM_total _ _ f xs) as [ys ->] end.
  - intros g _.
    destruct (@mapM_total _ _ Checker.param_names_of_part
                (Checker.split_by_commas_top_level g)) as [zs ->].
    + intros p _; apply param_names_of_part_total.
    + simpl; eexists; reflexivity.
  - simpl; eexists; reflexivity.
Qed.

Lemma fill_signature_total (chunk k : text) (m : option Re.match_obj) :
  exists d, Checker.fill_signature chunk k m = Some d /\ Checker.kind d = k.
Proof.
  unfold Checker.fill_signature. destruct m as [mo|];
    [|eexists; split; reflexivity].
  assert (Htp : exists tpl,
             (if nonempty (Re.group_or_empty chunk mo 2)
              then mapM Checker.tparam_name
                     (Py.split_chr "," (Re.group_or_empty chunk mo 2))
              else Some []) = Some tpl).
  { destruct (nonempty (Re.group_or_empty chunk mo 2));
      [|eexists; reflexivity].
    apply mapM_total; intros tp _; apply tparam_name_total. }
  destruct Htp as [tpl ->]. simpl.
  destruct (extract_param_names_total (Re.group_or_empty chunk mo 3))
    as [ps ->].
  simpl. eexists; split; reflexivity.
Qed.

Lemma first_line_total (chunk : text) :
  exists fl, Checker.first_line chunk = Some fl.
Proof.
  unfold Checker.first_line.
  destruct (nonempty (Py.strip chunk)) eqn:H; [|eexists; reflexivity].
  apply index0_total, splitlines_nonempty, nonempty_true; exact H.
Qed.

Lemma parse_def_total (chunk k : text) :
  exists d, Checker.parse_def chunk k = Some d /\ Checker.kind d = k.
Proof.
  unfold Checker.parse_def.
  destruct (fill_signature_total chunk k (Re.search Checker.DEF_RE chunk))
    as [d [-> Hk]].
  cbn [bind].
  destruct (Re.search Checker.RET_RE chunk); eexists; split;
    try reflexivity; exact Hk.
Qed.

Lemma parse_kind_total (chunk k : text) :
  exists d, Checker.parse_kind chunk k = Some d /\ Checker.kind d = k.
Proof.
  unfold Checker.parse_kind.
  destruct (text_eqb k (str "def")); [apply parse_def_total|].
  match goal with |- context [if ?b then Checker.fill_signature _ _ _ else _] =>
    destruct b end; [apply fill_signature_total|].
  match goal with |- context [if ?b then _ else _] => destruct b end.
  - destruct (Re.search Checker.VAL_RE chunk); eexists; split; reflexivity.
  - destruct (text_eqb k (str "object")); [|eexists; split; reflexivity].
    destruct (Re.search Checker.OBJECT_RE chunk); eexists; split; reflexivity.
Qed.

Lemma parse_declaration_total (chunk : text) :
  exists d, Checker.parse_declaration chunk = Some d.
Proof.
  unfold Checker.parse_declaration.
  destruct (first_line_total chunk) as [fl ->]. cbn [bind].
  destruct (Checker.kind_match chunk fl) as [k|]; [|eexists; reflexivity].
  destruct (parse_kind_total chunk k) as [d [H _]]; eauto.
Qed.

(** C8: [parse_declaration] never raises: on every chunk, the empty one
    included, the first line is found and a declaration is returned; when
    [DECL_START_RE] recognises no keyword, on the first line or on the whole
    chunk, the result is the [unknown] declaration with empty name, no type
    parameters, no parameters and no return type, and otherwise its kind is
    the recognised keyword.  [extract_param_names_from_parens] never raises
    either, whatever text it is given. *)
Theorem C8_parse_declaration_never_raises :
  (forall chunk : text,
      exists fl d,
        Checker.first_line chunk = Some fl /\
        Checker.parse_declaration chunk = Some d /\
        match Checker.kind_match chunk fl with
        | None => d = Checker.Decl (str "unknown") [] [] [] None
        | Some k => Checker.kind d = k
        end) /\
  (forall parens : text,
      exists names, Checker.extract_param_names_from_parens parens = Some names).
Proof.
  split; [|apply extract_param_names_total].
  intros chunk. destruct (first_line_total chunk) as [fl Hfl].
  exists fl. unfold Checker.parse_declaration. rewrite Hfl. cbn [bind].
  destruct (Checker.kind_match chunk fl) as [k|].
  - destruct (parse_kind_total chunk k) as [d [Hd Hk]].
    exists d; auto.
  - eexists; repeat split; reflexivity.
Qed.

(** ** The report of the checker *)

Lemma new_full_total (t : text) (start : nat) (block : text)
  (ins : list text) : exists nf, Checker.new_full t start block ins = Some nf.
Proof.
  unfold Checker.new_full.
  destruct (leading_ws_total (Checker.line_prefix t start)) as [ws ->].
  cbn [bind]. eexists; reflexivity.
Qed.

Lemma analyze_block_results (t : text) (fix_ : bool) (st : Checker.loop_state)
  (m : Re.match_obj) :
  exists d st',
    Checker.parse_declaration
      (fst (Checker.get_declaration_after t (Re.m_end m))) = Some d /\
    Checker.analyze_block t fix_ st m = Some st' /\
    Checker.results st' = Checker.results st ++ [block_result t m d].
Proof.
  unfold Checker.analyze_block, block_result.
  destruct (Checker.get_declaration_after t (Re.m_end m)) as [chunk line].
  destruct (parse_declaration_total chunk) as [d Hd].
  exists d. cbn [fst snd]. rewrite Hd. cbn [bind].
  match goal with |- context [if ?b then _ else _] => destruct b end.
  - match goal with |- context [Checker.new_full ?a ?b ?c ?e] =>
      destruct (new_full_total a b c e) as [nf ->] end.
    cbn [bind]. eexists; repeat split; reflexivity.
  - eexists; repeat split; reflexivity.
Qed.

Lemma analyze_loop_results (t : text) (ms : list Re.match_obj) :
  forall st1 st2,
    Checker.results st1 = Checker.results st2 ->
    exists s1 s2,
      Checker.analyze_loop t true st1 ms = Some s1 /\
      Checker.analyze_loop t false st2 ms = Some s2 /\
      Checker.results s1 = Checker.results s2.
Proof.
  induction ms as [|m ms IH]; intros st1 st2 H; simpl.
  - exists st1, st2; auto.
  - destruct (analyze_block_results t true st1 m) as [d1 [a1 [Hd1 [-> R1]]]].
    destruct (analyze_block_results t false st2 m) as [d2 [a2 [Hd2 [-> R2]]]].
    cbn [bind]. apply IH. rewrite R1, R2, H.
    rewrite Hd1 in Hd2; injection Hd2 as ->. reflexivity.
Qed.

(** C10: the report of [analyze_file] does not depend on [fix]: on every
    file content the analysis returns with and without [fix], and the two
    lists of results (line, declaration, tags, issues, excerpt) are equal. *)
Theorem C10_report_independent_of_fix :
  forall t : text,
    exists o_fix o_dry,
      Checker.analyze_file t true = Some o_fix /\
      Checker.analyze_file t false = Some o_dry /\
      Checker.report o_fix = Checker.report o_dry.
Proof.
  intros t. unfold Checker.analyze_file.
  destruct (@analyze_loop_results t (Re.finditer Checker.SCALADOC_RE t)
              (Checker.LoopState t 0%Z []) (Checker.LoopState t 0%Z []) eq_refl)
    as [s1 [s2 [-> [-> HR]]]].
  cbn [bind]. eexists; eexists; repeat split; exact HR.
Qed.

(** ** The return-tag policy *)

Lemma startswith_app (h x : text) : Py.startswith (h ++ x) h = true.
Proof.
  induction h as [|c h IH]; simpl; [destruct x; reflexivity|].
  unfold chr_eqb. rewrite Ascii.eqb_refl. exact IH.
Qed.

Lemma msg_if_not (xs : list text) (head msg : text) :
  Py.startswith msg head = false -> ~ In msg (Checker.msg_if xs head).
Proof.
  unfold Checker.msg_if. intros H Hin.
  destruct (nonempty xs); [|destruct Hin].
  destruct Hin as [<-|[]]. rewrite startswith_app in H. discriminate.
Qed.

Lemma in_issues_return (tg : Checker.tags) (d : Checker.decl) (msg : text) :
  Py.startswith msg (str "Missing @tparam for: ") = false ->
  Py.startswith msg (str "@tparam refers to unknown type params: ") = false ->
  Py.startswith msg (str "Missing @param for: ") = false ->
  Py.startswith msg (str "@param refers to unknown params: ") = false ->
  (In msg (Checker.issues_of tg d) <-> In msg (Checker.return_issues tg d)).
Proof.
  intros H1 H2 H3 H4. unfold Checker.issues_of.
  repeat rewrite in_app_iff.
  pose proof (@msg_if_not (Checker.missing_tparam tg d) _ _ H1).
  pose proof (@msg_if_not (Checker.extra_tparam tg d) _ _ H2).
  pose proof (@msg_if_not (Checker.missing_param tg d) _ _ H3).
  pose proof (@msg_if_not (Checker.extra_param tg d) _ _ H4).
  tauto.
Qed.

Lemma in_issues_missing_return (tg : Checker.tags) (d : Checker.decl) :
  In Checker.MSG_MISSING_RETURN (Checker.issues_of tg d) <->
  In Checker.MSG_MISSING_RETURN (Checker.return_issues tg d).
Proof. apply in_issues_return; reflexivity. Qed.

Lemma in_issues_unexpected_return (tg : Checker.tags) (d : Checker.decl) :
  In Checker.MSG_UNEXPECTED_RETURN (Checker.issues_of tg d) <->
  In Checker.MSG_UNEXPECTED_RETURN (Checker.return_issues tg d).
Proof. apply in_issues_return; reflexivity. Qed.

Lemma documented_return_iff (tg : Checker.tags) :
  Checker.documented_return tg = true <-> Checker.t_return tg <> [].
Proof.
  unfold Checker.documented_return.
  destruct (Checker.t_return tg); simpl; split; intros H;
    try discriminate; try reflexivity; congruence.
Qed.

Lemma return_issues_unit (tg : Checker.tags) (d : Checker.decl) :
  Checker.kind d = str "def" ->
  Checker.ret d = Some (str "Unit") ->
  ~ In Checker.MSG_MISSING_RETURN (Checker.return_issues tg d) /\
  (In Checker.MSG_UNEXPECTED_RETURN (Checker.return_issues tg d) <->
   Checker.t_return tg <> []).
Proof.
  intros Hk Hr. unfold Checker.return_issues. rewrite Hk, Hr.
  change (text_eqb (str "def") (str "def")) with true.
  change (nonempty (str "Unit")) with true.
  change (Checker.is_unit (str "Unit")) with true.
  cbv iota. rewrite <- documented_return_iff.
  destruct (Checker.documented_return tg); simpl; split;
    try (intros [H|[]]; discriminate); try tauto.
  split; [tauto | discriminate].
Qed.

Lemma return_issues_unknown (tg : Checker.tags) (d : Checker.decl) :
  Checker.ret d = None \/ Checker.ret d = Some [] ->
  Checker.return_issues tg d = [].
Proof.
  intros [Hr|Hr]; unfold Checker.return_issues; rewrite Hr;
    destruct (text_eqb (Checker.kind d) (str "def")); reflexivity.
Qed.

Lemma analyze_loop_issues (t : text) (fix_ : bool) (ms : list Re.match_obj) :
  forall st st',
    Checker.analyze_loop t fix_ st ms = Some st' ->
    Forall (fun r => Checker.r_issues r
                     = Checker.issues_of (Checker.r_tags r) (Checker.r_decl r))
           (Checker.results st) ->
    Forall (fun r => Checker.r_issues r
                     = Checker.issues_of (Checker.r_tags r) (Checker.r_decl r))
           (Checker.results st').
Proof.
  induction ms as [|m ms IH]; intros st st' H HF; simpl in H.
  - injection H as <-; exact HF.
  - apply bind_some in H. destruct H as [st1 [H1 H2]].
    apply (IH _ _ H2).
    destruct (analyze_block_results t fix_ st m) as [d [a [_ [Ha R]]]].
    rewrite Ha in H1; injection H1 as <-. rewrite R.
    apply Forall_app; split; [exact HF|].
    constructor; [reflexivity | constructor].
Qed.

(** In the report of [analyze_file], a block whose declaration is a
    [def] with extracted return type exactly [Unit] never carries the issue
    "Missing @return for non-Unit return type", and carries "@return present
    but return type is Unit" exactly when the block has a [@return] tag; a
    block for which no return type was extracted carries neither. *)
Theorem unit_return_policy_on_extracted_type :
  forall (t : text) (fix_ : bool) (o : Checker.outcome) (r : Checker.result),
    Checker.analyze_file t fix_ = Some o ->
    In r (Checker.report o) ->
    Checker.kind (Checker.r_decl r) = str "def" ->
    (Checker.ret (Checker.r_decl r) = Some (str "Unit") ->
     ~ In Checker.MSG_MISSING_RETURN (Checker.r_issues r) /\
     (In Checker.MSG_UNEXPECTED_RETURN (Checker.r_issues r) <->
      Checker.t_return (Checker.r_tags r) <> [])) /\
    (Checker.ret (Checker.r_decl r) = None \/
     Checker.ret (Checker.r_decl r) = Some [] ->
     ~ In Checker.MSG_MISSING_RETURN (Checker.r_issues r) /\
     ~ In Checker.MSG_UNEXPECTED_RETURN (Checker.r_issues r)).
Proof.
  intros t fix_ o r Ho Hin Hk.
  unfold Checker.analyze_file in Ho. apply bind_some in Ho.
  destruct Ho as [st [Hloop Ho]]. injection Ho as <-. cbn [Checker.report] in Hin.
  pose proof (@analyze_loop_issues t fix_ _ _ _ Hloop (Forall_nil _)) as HF.
  rewrite Forall_forall in HF. rewrite (HF r Hin).
  rewrite in_issues_missing_return, in_issues_unexpected_return.
  split.
  - intros Hr. apply return_issues_unit; assumption.
  - intros Hr. rewrite (return_issues_unknown _ _ Hr). simpl. tauto.
Qed.

(** ** Scenarios *)

Lemma unit_return_policy_on_extracted_type_witness :
  Checker.analyze_file C4_text false = Some C4_outcome /\
  In C4_result (Checker.report C4_outcome) /\
  Checker.kind (Checker.r_decl C4_result) = str "def" /\
  Checker.ret (Checker.r_decl C4_result) = Some (str "Unit") /\
  ~ In Checker.MSG_MISSING_RETURN (Checker.r_issues C4_result) /\
  (In Checker.MSG_UNEXPECTED_RETURN (Checker.r_issues C4_result) <->
   Checker.t_return (Checker.r_tags C4_result) <> []).
Proof.
  assert (H1 : Checker.analyze_file C4_text false = Some C4_outcome)
    by (vm_compute; reflexivity).
  assert (H2 : In C4_result (Checker.report C4_outcome))
    by (left; reflexivity).
  assert (H3 : Checker.kind (Checker.r_decl C4_result) = str "def")
    by reflexivity.
  assert (H4 : Checker.ret (Checker.r_decl C4_result) = Some (str "Unit"))
    by reflexivity.
  destruct (@unit_return_policy_on_extracted_type C4_text false C4_outcome C4_result H1 H2 H3)
    as [HU _].
  destruct (HU H4) as [Ha Hb].
  repeat split; try assumption; apply Hb.
Defined.

(** C4, as stated, fails: [C4_unit_text] documents a [def] whose declared
    return type is exactly [Unit] and that takes a typed parameter.  The
    return type extracted for it is [Int): Unit], which does not start
    with [Unit], so the report carries "Missing @return for non-Unit
    return type"; and on [C4_unit_tagged_text], where the block has a
    [@return] tag, the report carries no message at all, so the
    unexpected tag is not reported. *)
Theorem C4_unit_def_with_parameter_is_not_unit :
  option_map
    (fun o => map (fun r => (Checker.ret (Checker.r_decl r),
                             Checker.t_return (Checker.r_tags r),
                             Checker.r_issues r))
                  (Checker.report o))
    (Checker.analyze_file C4_unit_text false)
  = Some [(Some (str "Int): Unit"), [], [Checker.MSG_MISSING_RETURN])] /\
  option_map
    (fun o => map (fun r => (Checker.ret (Checker.r_decl r),
                             Checker.t_return (Checker.r_tags r),
                             Checker.r_issues r))
                  (Checker.report o))
    (Checker.analyze_file C4_unit_tagged_text false)
  = Some [(Some (str "Int): Unit"), [[]], [])] /\
  Checker.is_unit (str "Int): Unit") = false.
Proof.
  split; [vm_compute; reflexivity|].
  split; vm_compute; reflexivity.
Qed.

(** C1: on the input [/** Identity. */] followed by
    [def foo[T](x: T): T = x], the parser returns kind [def], name [foo],
    type parameters [T] and value parameters [x], and the return type it
    stores is the text after the first colon of the chunk, which is the colon
    of the parameter [x]: ["T): T"], not ["T"]. *)
Theorem C1_return_type_from_first_colon_of_chunk :
  map (fun b => Checker.parse_declaration
                  (fst (Checker.get_declaration_after C1_input (snd (fst b)))))
      (Checker.extract_scaladoc_blocks C1_input)
  = [Some (Checker.Decl (str "def") (str "foo") [str "T"] [str "x"]
             (Some (str "T): T")))].
Proof. vm_compute. reflexivity. Qed.

(** C3: a second run of [analyze_and_fix_text] on the output of a first run
    changes the text again.  The block [C3_input], in the layout the tool
    aims at, gains a star line after the opener and a star line before the
    closer on every run. *)
Theorem C3_second_run_rewrites_again :
  IndentFixer.analyze_and_fix_text C3_input false
  = Some (C3_once, [(1, str "/**", str "/**")]) /\
  IndentFixer.analyze_and_fix_text C3_once false
  = Some (C3_twice, [(1, str "/**", str "/**")]) /\
  IndentFixer.analyze_and_fix_text C3_input true
  = Some (C3_once, [(1, str "/**", str "/**")]) /\
  IndentFixer.analyze_and_fix_text C3_once true
  = Some (C3_twice, [(1, str "/**", str "/**")]) /\
  C3_twice <> C3_once.
Proof. repeat split; try (vm_compute; reflexivity). discriminate. Qed.

(** C7: the line [protected[pkg] def baz: Int = 1] is classified
    package-private, is not checked and is not reported; the line
    [protected def baz: Int = 1] is classified protected, is checked and,
    having no documentation, is reported. *)
Theorem C7_bracketed_protected_is_package_private :
  CheckDocs.get_visibility (str "protected[pkg] def baz: Int = 1")
  = CheckDocs.PackagePrivate /\
  CheckDocs.should_check_docs CheckDocs.PackagePrivate = false /\
  CheckDocs.analyze_file [str "protected[pkg] def baz: Int = 1"] = [] /\
  CheckDocs.get_visibility (str "protected def baz: Int = 1")
  = CheckDocs.Protected /\
  CheckDocs.should_check_docs CheckDocs.Protected = true /\
  CheckDocs.analyze_file [str "protected def baz: Int = 1"]
  = [CheckDocs.Entry 1 (str "def") (str "baz")
       (str "protected def baz: Int = 1")].
Proof. repeat split; vm_compute; reflexivity. Qed.

(** ** Exit status *)

Lemma fixer_exit_status (is_dir : bool) (files : list text)
  (fix_ normalize_all : bool) :
  IndentFixer.main is_dir files fix_ normalize_all =
  if is_dir then
    if fix_ then 0
    else if nonempty (IndentFixer.changed_files files normalize_all) then 1
         else 0
  else 2.
Proof.
  unfold IndentFixer.main.
  destruct is_dir, fix_; simpl; reflexivity.
Qed.

Lemma checker_exit_status (is_dir : bool) (files : list text) (fix_ : bool) :
  Checker.main is_dir files fix_ =
  if is_dir then
    if Checker.summarize_reports (Checker.gather files fix_) =? 0 then 0 else 1
  else 2.
Proof. unfold Checker.main. destruct is_dir; reflexivity. Qed.

(** C9: the checker run with [--fix] on a folder holding the one file
    [C9_file] ends with status 1, although the run wrote [C9_fixed], in which
    a further run finds no issue and ends with status 0. *)
Theorem C9_checker_fix_run_exits_1 :
  Checker.main true [C9_file] true = 1 /\
  option_map Checker.written (Checker.analyze_file C9_file true)
  = Some (Some C9_fixed) /\
  Checker.main true [C9_fixed] true = 0 /\
  Checker.main true [C9_fixed] false = 0.
Proof. repeat split; vm_compute; reflexivity. Qed.

(** ** Private containers in check_docs *)

Lemma report_if_undocumented_app (lines : list text) (i : nat)
  (ty nm stripped : text) (und : list CheckDocs.entry) :
  exists new,
    CheckDocs.report_if_undocumented lines i ty nm stripped und = und ++ new /\
    Forall (fun e => CheckDocs.e_line e = i + 1) new.
Proof.
  unfold CheckDocs.report_if_undocumented.
  destruct (negb (CheckDocs.is_documented lines i)).
  - eexists; split; [reflexivity|]. constructor; [reflexivity | constructor].
  - exists []; split; [symmetry; apply app_nil_r | constructor].
Qed.

(** One round of the loop only appends to [undocumented], entries that carry
    the number of the current line, and appends nothing when the stack it
    leaves holds a private or package-private frame. *)
Lemma step_appends (lines : list text) (st : CheckDocs.scan_state)
  (i : nat) (line : text) :
  exists new,
    CheckDocs.undocumented (CheckDocs.step lines st (i, line))
    = CheckDocs.undocumented st ++ new /\
    Forall (fun e => CheckDocs.e_line e = i + 1) new /\
    (CheckDocs.is_in_private_container
       (CheckDocs.stack (CheckDocs.step lines st (i, line))) = true ->
     new = []).
Proof.
  assert (Hnil : forall u : list CheckDocs.entry,
             u = u ++ [] /\ Forall (fun e => CheckDocs.e_line e = i + 1) []
             /\ (forall P : Prop, P -> @nil CheckDocs.entry = [])).
  { intros u; split; [symmetry; apply app_nil_r|]. split; [constructor|auto]. }
  unfold CheckDocs.step.
  set (stk := CheckDocs.update_for_line line (CheckDocs.stack st)).
  destruct (Py.contains (Py.strip line) (str "*/"));
    [exists []; cbn; destruct (Hnil (CheckDocs.undocumented st)) as [? [? ?]]; eauto|].
  match goal with |- context [if ?b then CheckDocs.ScanState _ _ _ _ else _] =>
    destruct b end;
    [exists []; cbn; destruct (Hnil (CheckDocs.undocumented st)) as [? [? ?]]; eauto|].
  match goal with |- context [if ?b then CheckDocs.ScanState _ _ _ _ else _] =>
    destruct b end;
    [exists []; cbn; destruct (Hnil (CheckDocs.undocumented st)) as [? [? ?]]; eauto|].
  destruct (Re.rmatch CheckDocs.class_pattern line) as [cm|].
  { cbn [CheckDocs.undocumented CheckDocs.stack].
    destruct (CheckDocs.should_check_docs (CheckDocs.get_visibility line)).
    - destruct (CheckDocs.is_in_private_container
                  (CheckDocs.enter_container (CheckDocs.indent_of line)
                     (CheckDocs.get_visibility line) stk)) eqn:Hp; cbn [andb negb].
      + exists []; destruct (Hnil (CheckDocs.undocumented st)) as [? [? ?]]; eauto.
      + match goal with |- context [CheckDocs.report_if_undocumented ?a ?b ?c ?d ?e ?f] =>
          destruct (report_if_undocumented_app a b c d e f) as [new [-> HF]] end.
        exists new; repeat split; auto. discriminate.
    - exists []; cbn; destruct (Hnil (CheckDocs.undocumented st)) as [? [? ?]]; eauto. }
  destruct (Re.rmatch CheckDocs.def_pattern line) as [dm|].
  { destruct (CheckDocs.is_in_private_container stk) eqn:Hp.
    - exists []; cbn; destruct (Hnil (CheckDocs.undocumented st)) as [? [? ?]]; eauto.
    - cbn [CheckDocs.undocumented CheckDocs.stack]. rewrite Hp.
      destruct (CheckDocs.should_check_docs (CheckDocs.get_visibility line)).
      + match goal with |- context [CheckDocs.report_if_undocumented ?a ?b ?c ?d ?e ?f] =>
          destruct (report_if_undocumented_app a b c d e f) as [new [-> HF]] end.
        exists new; repeat split; auto. discriminate.
      + exists []; destruct (Hnil (CheckDocs.undocumented st)) as [? [? ?]]; eauto. }
  destruct (CheckDocs.is_in_method _);
    [exists []; cbn; destruct (Hnil (CheckDocs.undocumented st)) as [? [? ?]]; eauto|].
  destruct (CheckDocs.is_in_private_container stk) eqn:Hp;
    [exists []; cbn; destruct (Hnil (CheckDocs.undocumented st)) as [? [? ?]]; eauto|].
  destruct (negb (CheckDocs.should_check_docs (CheckDocs.get_visibility line)));
    [exists []; cbn; destruct (Hnil (CheckDocs.undocumented st)) as [? [? ?]]; eauto|].
  cbn [CheckDocs.undocumented CheckDocs.stack]. rewrite Hp.
  assert (Hval : exists n1,
     match Re.rmatch CheckDocs.val_pattern line with
     | Some val_match =>
         CheckDocs.report_if_undocumented lines i (str "val")
           (Re.group_or_empty line val_match 1) (Py.strip line)
           (CheckDocs.undocumented st)
     | None => CheckDocs.undocumented st
     end = CheckDocs.undocumented st ++ n1
     /\ Forall (fun e => CheckDocs.e_line e = i + 1) n1).
  { destruct (Re.rmatch CheckDocs.val_pattern line).
    - apply report_if_undocumented_app.
    - exists []; split; [symmetry; apply app_nil_r | constructor]. }
  destruct Hval as [n1 [-> H1]].
  destruct (Re.rmatch CheckDocs.var_pattern line).
  - match goal with |- context [CheckDocs.report_if_undocumented ?a ?b ?c ?d ?e ?f] =>
      destruct (report_if_undocumented_app a b c d e f) as [n2 [-> H2]] end.
    exists (n1 ++ n2). rewrite app_assoc. repeat split; auto.
    + apply Forall_app; auto.
    + discriminate.
  - exists n1; repeat split; auto. discriminate.
Qed.

Lemma combine_seq_firstn_S (lines : list text) (l : text) :
  forall k b,
    nth_error lines k = Some l ->
    firstn (S k) (combine (seq b (length lines)) lines)
    = firstn k (combine (seq b (length lines)) lines) ++ [(b + k, l)].
Proof.
  induction lines as [|x xs IH]; intros k b H.
  - destruct k; discriminate.
  - destruct k as [|k].
    + injection H as ->. cbn. rewrite Nat.add_0_r. reflexivity.
    + cbn [length seq combine]. rewrite (firstn_cons (S k)).
      rewrite (firstn_cons k). cbn [nth_error] in H.
      rewrite (IH k (S b) H). cbn [app].
      replace (S b + k) with (b + S k) by lia. reflexivity.
Qed.

Lemma enumerate_firstn_S (lines : list text) (k : nat) (l : text) :
  nth_error lines k = Some l ->
  firstn (S k) (CheckDocs.enumerate lines)
  = firstn k (CheckDocs.enumerate lines) ++ [(k, l)].
Proof. intros H. exact (@combine_seq_firstn_S lines l k 0 H). Qed.

Lemma enumerate_firstn_all (lines : list text) (k : nat) :
  length lines <= k ->
  firstn k (CheckDocs.enumerate lines) = CheckDocs.enumerate lines.
Proof.
  intros H. apply firstn_all2. unfold CheckDocs.enumerate.
  rewrite length_combine, length_seq. lia.
Qed.

Lemma state_after_S (lines : list text) (k : nat) (l : text) :
  nth_error lines k = Some l ->
  CheckDocs.state_after lines (S k)
  = CheckDocs.step lines (CheckDocs.state_after lines k) (k, l).
Proof.
  intros H. unfold CheckDocs.state_after.
  rewrite (enumerate_firstn_S _ _ H), fold_left_app. reflexivity.
Qed.

Lemma state_after_end (lines : list text) (k : nat) :
  length lines <= k ->
  CheckDocs.state_after lines k
  = CheckDocs.state_after lines (length lines).
Proof.
  intros H. unfold CheckDocs.state_after.
  rewrite (enumerate_firstn_all lines H).
  rewrite (@enumerate_firstn_all lines (length lines)); auto.
Qed.

Lemma analyze_file_state_after (lines : list text) :
  CheckDocs.analyze_file lines
  = CheckDocs.undocumented (CheckDocs.state_after lines (length lines)).
Proof.
  unfold CheckDocs.analyze_file, CheckDocs.state_after.
  rewrite (@enumerate_firstn_all lines (length lines)); auto.
Qed.

Lemma undocumented_bounded (lines : list text) (k : nat) :
  Forall (fun e => CheckDocs.e_line e <= k)
         (CheckDocs.undocumented (CheckDocs.state_after lines k)).
Proof.
  induction k as [|k IH]; [constructor|].
  destruct (nth_error lines k) as [l|] eqn:E.
  - rewrite (state_after_S _ _ E).
    destruct (step_appends lines (CheckDocs.state_after lines k) k l)
      as [new [-> [HF _]]].
    apply Forall_app; split.
    + eapply Forall_impl; [|exact IH]. simpl; intros; lia.
    + eapply Forall_impl; [|exact HF]. simpl; intros; lia.
  - apply nth_error_None in E.
    rewrite state_after_end by lia.
    rewrite <- (@state_after_end lines k) by lia.
    eapply Forall_impl; [|exact IH]. simpl; intros; lia.
Qed.

Lemma undocumented_skips_private (lines : list text) (k j : nat) :
  CheckDocs.is_in_private_container
    (CheckDocs.stack (CheckDocs.state_after lines (S k))) = true ->
  Forall (fun e => CheckDocs.e_line e <> S k)
         (CheckDocs.undocumented (CheckDocs.state_after lines j)).
Proof.
  intros Hp. induction j as [|j IH]; [constructor|].
  destruct (nth_error lines j) as [l|] eqn:E.
  - rewrite (state_after_S _ _ E).
    destruct (step_appends lines (CheckDocs.state_after lines j) j l)
      as [new [Hu [HF Hnew]]].
    rewrite Hu. apply Forall_app; split; [exact IH|].
    destruct (Nat.eq_dec j k) as [->|Hjk].
    + rewrite <- (state_after_S _ _ E) in Hnew.
      rewrite (Hnew Hp). constructor.
    + eapply Forall_impl; [|exact HF]. simpl; intros; lia.
  - apply nth_error_None in E.
    rewrite state_after_end by lia.
    rewrite <- (@state_after_end lines j) by lia. exact IH.
Qed.

(** C6: when the stack of the visibility tracker holds a private or
    package-private frame once line [k + 1] has been taken in (the frame of
    a container that encloses the line by indentation, or the frame that
    the line itself pushed), [analyze_file] reports no entry for that
    line. *)
Theorem C6_no_report_inside_private_container :
  forall (lines : list text) (k : nat),
    CheckDocs.is_in_private_container
      (CheckDocs.stack (CheckDocs.state_after lines (S k))) = true ->
    Forall (fun e => CheckDocs.e_line e <> S k) (CheckDocs.analyze_file lines).
Proof.
  intros lines k Hp. rewrite analyze_file_state_after.
  apply undocumented_skips_private; exact Hp.
Qed.

Lemma C6_no_report_inside_private_container_witness :
  CheckDocs.is_in_private_container
    (CheckDocs.stack (CheckDocs.state_after C6_lines 1)) = true /\
  CheckDocs.is_in_private_container
    (CheckDocs.stack (CheckDocs.state_after C6_lines 2)) = true /\
  Forall (fun e => CheckDocs.e_line e <> 1) (CheckDocs.analyze_file C6_lines) /\
  Forall (fun e => CheckDocs.e_line e <> 2) (CheckDocs.analyze_file C6_lines) /\
  CheckDocs.analyze_file C6_lines = [] /\
  CheckDocs.analyze_file [str "private class Foo { def bar: Int = 1 }"] = [].
Proof.
  assert (H1 : CheckDocs.is_in_private_container
                 (CheckDocs.stack (CheckDocs.state_after C6_lines 1)) = true)
    by (vm_compute; reflexivity).
  assert (H2 : CheckDocs.is_in_private_container
                 (CheckDocs.stack (CheckDocs.state_after C6_lines 2)) = true)
    by (vm_compute; reflexivity).
  split; [exact H1|]. split; [exact H2|].
  split; [exact (@C6_no_report_inside_private_container C6_lines 0 H1)|].
  split; [exact (@C6_no_report_inside_private_container C6_lines 1 H2)|].
  split; vm_compute; reflexivity.
Defined.

(** ** Spans of matches *)

Lemma reaches_refl (s : Re.mstate) : reaches s s.
Proof. exists []; split; [reflexivity | simpl; lia]. Qed.

Lemma reaches_trans (a b c : Re.mstate) :
  reaches a b -> reaches b c -> reaches a c.
Proof.
  intros [x [Hx Px]] [y [Hy Py]]. exists (x ++ y). split.
  - rewrite Hx, Hy, app_assoc. reflexivity.
  - rewrite length_app. lia.
Qed.

Lemma star_loop_continues (g : bool)
  (body : Re.mstate -> (Re.mstate -> option Re.mstate) -> option Re.mstate)
  (k : Re.mstate -> option Re.mstate) :
  continues body ->
  forall fuel s0 res,
    Re.star_loop g body k fuel s0 = Some res ->
    exists st1, reaches s0 st1 /\ k st1 = Some res.
Proof.
  intros Hb. induction fuel as [|f IH]; intros s0 res H; simpl in H.
  - exists s0; split; [apply reaches_refl | exact H].
  - assert (Hmore : forall res',
               body s0 (fun s1 => if Re.pos s0 <? Re.pos s1
                                  then Re.star_loop g body k f s1 else None)
               = Some res' ->
               exists st1, reaches s0 st1 /\ k st1 = Some res').
    { intros res' Hm. apply Hb in Hm. destruct Hm as [s1 [R1 Hk]].
      destruct (Re.pos s0 <? Re.pos s1); [|discriminate].
      destruct (IH _ _ Hk) as [st1 [R2 Hk2]].
      exists st1; split; [eapply reaches_trans; eauto | exact Hk2]. }
    destruct g.
    + destruct (body s0 _) as [x|] eqn:E.
      * injection H as ->. apply Hmore; reflexivity.
      * exists s0; split; [apply reaches_refl | exact H].
    + destruct (k s0) as [x|] eqn:E.
      * injection H as ->. exists s0; split; [apply reaches_refl | exact E].
      * apply Hmore; exact H.
Qed.

Lemma run_continues (r : Re.re) : continues (Re.run r).
Proof.
  induction r as [|p|a IHa b IHb|a IHa b IHb|g a IHa|n a IHa| | | |];
    intros st k res H; cbn [Re.run] in H.
  - exists st; split; [apply reaches_refl | exact H].
  - destruct (Re.rest st) as [|c tl] eqn:E; [discriminate|].
    destruct (p c); [|discriminate].
    exists (Re.advance c tl st); split; [|exact H].
    exists [c]; split; [exact E | simpl; lia].
  - apply IHa in H. destruct H as [s1 [R1 H]].
    apply IHb in H. destruct H as [s2 [R2 H]].
    exists s2; split; [eapply reaches_trans; eauto | exact H].
  - destruct (Re.run a st k) as [x|] eqn:E.
    + injection H as ->. apply IHa; exact E.
    + apply IHb; exact H.
  - exact (@star_loop_continues g _ k IHa _ _ _ H).
  - apply IHa in H. destruct H as [s1 [R1 H]].
    exists (Re.set_cap n (Re.pos st) (Re.pos s1) s1); split; [|exact H].
    destruct R1 as [x [Hx Px]]. exists x; split; assumption.
  - destruct (Re.pos st =? 0); [|discriminate].
    exists st; split; [apply reaches_refl | exact H].
  - exists st; split; [apply reaches_refl|].
    destruct (Re.prev st) as [c|]; [|exact H].
    destruct (chr_eqb c NL); [exact H | discriminate].
  - exists st; split; [apply reaches_refl|].
    destruct (Re.rest st) as [|c [|d tl]]; try discriminate; [exact H|].
    destruct (chr_eqb c NL); [exact H | discriminate].
  - destruct (Re.at_boundary st); [|discriminate].
    exists st; split; [apply reaches_refl | exact H].
Qed.

Lemma match_at_span (r : Re.re) (p : nat) (pv : option ascii) (s : text)
  (m : Re.match_obj) :
  Re.match_at r p pv s = Some m ->
  Re.m_start m = p /\ p <= Re.m_end m /\ Re.m_end m <= p + length s.
Proof.
  unfold Re.match_at. intros H.
  destruct (Re.run r (Re.MState p pv s []) Some) as [st|] eqn:E;
    [|discriminate].
  injection H as <-. cbn [Re.m_start Re.m_end].
  apply run_continues in E. destruct E as [st1 [[x [Hx Px]] Hk]].
  injection Hk as ->. cbn [Re.rest Re.pos] in Hx, Px.
  split; [reflexivity|]. rewrite Hx, length_app. lia.
Qed.

Lemma search_from_span (r : Re.re) (s : text) :
  forall (p : nat) (pv : option ascii) (m : Re.match_obj),
    Re.search_from r p pv s = Some m ->
    p <= Re.m_start m /\ Re.m_start m <= Re.m_end m /\
    Re.m_end m <= p + length s.
Proof.
  induction s as [|c s IH]; intros p pv m H; simpl in H.
  - destruct (Re.match_at r p pv []) as [m'|] eqn:E; [|discriminate].
    injection H as ->. apply match_at_span in E. simpl in *. lia.
  - destruct (Re.match_at r p pv (c :: s)) as [m'|] eqn:E.
    + injection H as ->. apply match_at_span in E. simpl in *. lia.
    + apply IH in H. simpl. lia.
Qed.

Lemma finditer_from_spans (r : Re.re) (fuel : nat) :
  forall (p : nat) (pv : option ascii) (s : text),
    spans_ok p (p + length s) (Re.finditer_from fuel r p pv s).
Proof.
  induction fuel as [|f IH]; intros p pv s; simpl; [exact I|].
  destruct (Re.search_from r p pv s) as [m|] eqn:E; [|exact I].
  apply search_from_span in E.
  destruct (Re.m_end m - p =? 0) eqn:Z.
  - simpl. repeat split; lia.
  - cbn [spans_ok]. repeat split; try lia.
    specialize (IH (Re.m_end m)
                  (Re.last_chr pv (firstn (Re.m_end m - p) s))
                  (skipn (Re.m_end m - p) s)).
    rewrite length_skipn in IH.
    replace (Re.m_end m + (length s - (Re.m_end m - p))) with (p + length s)
      in IH by lia.
    exact IH.
Qed.

Lemma finditer_spans (r : Re.re) (t : text) :
  spans_ok 0 (length t) (Re.finditer r t).
Proof. exact (finditer_from_spans r (S (length t)) 0 None t). Qed.

(** ** The running buffer *)

Lemma norm_index_nonneg (s : text) (i : Z) :
  (0 <= i)%Z -> Py.norm_index s i = Z.to_nat i.
Proof.
  intros H. unfold Py.norm_index.
  destruct (i <? 0)%Z eqn:E; [|reflexivity].
  apply Z.ltb_lt in E. lia.
Qed.

Lemma slice_length (t : text) (i j : nat) :
  i <= j -> j <= length t -> length (Py.slice t i j) = j - i.
Proof.
  intros Hij Hj. unfold Py.slice.
  rewrite length_firstn, length_skipn. lia.
Qed.

Lemma slice_skipn (t : text) (i j : nat) :
  i <= j -> Py.slice t i j ++ skipn j t = skipn i t.
Proof.
  intros Hij. unfold Py.slice.
  replace (skipn j t) with (skipn (j - i) (skipn i t)).
  - apply firstn_skipn.
  - rewrite skipn_skipn. f_equal. lia.
Qed.

Lemma firstn_plus {A : Type} (a b : nat) (l : list A) :
  firstn (a + b) l = firstn a l ++ firstn b (skipn a l).
Proof.
  revert l; induction a as [|a IH]; intros l; [reflexivity|].
  destruct l as [|x l]; simpl; [rewrite firstn_nil; reflexivity|].
  rewrite IH. reflexivity.
Qed.

Lemma slice_slice (t : text) (i j k : nat) :
  i <= j -> j <= k -> Py.slice t i j ++ Py.slice t j k = Py.slice t i k.
Proof.
  intros Hij Hjk. unfold Py.slice.
  replace (skipn j t) with (skipn (j - i) (skipn i t))
    by (rewrite skipn_skipn; f_equal; lia).
  replace (k - i) with ((j - i) + (k - j)) by lia.
  rewrite firstn_plus. reflexivity.
Qed.

Lemma splice_on_buffer (t pre repl : text) (from start stop : nat) :
  from <= start -> start <= stop -> stop <= length t ->
  Checker.splice (pre ++ skipn from t)
    (Z.of_nat (length pre) - Z.of_nat from) start stop repl
  = (pre ++ Py.slice t from start ++ repl) ++ skipn stop t.
Proof.
  intros H1 H2 H3. unfold Checker.splice, Py.prefix, Py.suffix.
  rewrite (@norm_index_nonneg (pre ++ skipn from t)
             (Z.of_nat start + (Z.of_nat (length pre) - Z.of_nat from))%Z)
    by lia.
  rewrite (@norm_index_nonneg (pre ++ skipn from t)
             (Z.of_nat stop + (Z.of_nat (length pre) - Z.of_nat from))%Z)
    by lia.
  replace (Z.to_nat (Z.of_nat start + (Z.of_nat (length pre) - Z.of_nat from)))
    with (length pre + (start - from)) by lia.
  replace (Z.to_nat (Z.of_nat stop + (Z.of_nat (length pre) - Z.of_nat from)))
    with (length pre + (stop - from)) by lia.
  rewrite firstn_app_2, skipn_app.
  rewrite (@skipn_all2 _ (length pre + (stop - from)) pre) by lia.
  replace (length pre + (stop - from) - length pre) with (stop - from) by lia.
  rewrite skipn_skipn.
  replace (stop - from + from) with stop by lia.
  unfold Py.slice. rewrite <- !app_assoc. reflexivity.
Qed.

Lemma apply_plan_spliced (t : text) (plan : list plan_entry) :
  forall (pre : text) (from : nat),
    plan_ok from (length t) plan -> from <= length t ->
    fold_left apply_entry plan
      (pre ++ skipn from t, (Z.of_nat (length pre) - Z.of_nat from)%Z)
    = (pre ++ spliced t from plan,
       (Z.of_nat (length pre) - Z.of_nat from + total_shift plan)%Z).
Proof.
  induction plan as [|[[start stop] r] plan IH]; intros pre from Hok Hfrom.
  - simpl. f_equal. lia.
  - destruct Hok as [H1 [H2 [H3 Hok]]].
    cbn [fold_left spliced fst snd].
    destruct r as [repl|].
    + cbn [apply_entry fst snd entry_text total_shift].
      rewrite splice_on_buffer by assumption.
      unfold Checker.shift.
      replace (Z.of_nat (length pre) - Z.of_nat from
               + (Z.of_nat (length repl) - (Z.of_nat stop - Z.of_nat start)))%Z
        with (Z.of_nat (length (pre ++ Py.slice t from start ++ repl))
              - Z.of_nat stop)%Z
        by (rewrite !length_app, slice_length by lia; lia).
      rewrite (IH _ stop Hok H3).
      f_equal.
      * rewrite <- !app_assoc. reflexivity.
      * rewrite !length_app, slice_length by lia. lia.
    + cbn [apply_entry entry_text total_shift].
      replace (pre ++ skipn from t)
        with ((pre ++ Py.slice t from stop) ++ skipn stop t)
        by (rewrite <- app_assoc, slice_skipn by lia; reflexivity).
      replace (Z.of_nat (length pre) - Z.of_nat from)%Z
        with (Z.of_nat (length (pre ++ Py.slice t from stop))
              - Z.of_nat stop)%Z
        by (rewrite length_app, slice_length by lia; lia).
      rewrite (IH _ stop Hok H3).
      f_equal.
      * rewrite <- app_assoc, <- slice_slice with (j := start) by lia.
        rewrite <- !app_assoc. reflexivity.
Qed.

Lemma spans_plan_ok (repl : Re.match_obj -> option text)
  (ms : list Re.match_obj) :
  forall p n,
    spans_ok p n ms ->
    plan_ok p n (map (fun m => (Re.m_start m, Re.m_end m, repl m)) ms).
Proof.
  induction ms as [|m ms IH]; intros p n H; [exact I|].
  destruct H as [H1 [H2 [H3 H4]]]. cbn [map plan_ok]. auto.
Qed.

Lemma analyze_block_entry (t : text) (fix_ : bool)
  (st st' : Checker.loop_state) (m : Re.match_obj) :
  Checker.analyze_block t fix_ st m = Some st' ->
  (Checker.new_text st', Checker.offset st')
  = apply_entry (Checker.new_text st, Checker.offset st)
      (Re.m_start m, Re.m_end m, checker_replacement t fix_ m).
Proof.
  unfold Checker.analyze_block, checker_replacement, apply_entry.
  destruct (Checker.get_declaration_after t (Re.m_end m)) as [chunk line].
  cbn [fst]. intros H. apply bind_some in H. destruct H as [d [Hd H]].
  rewrite Hd.
  destruct (fix_ && nonempty (Checker.insert_lines
                                (Checker.extract_tags (Re.group_or_empty t m 1))
                                d))%bool.
  - apply bind_some in H. destruct H as [nf [Hnf H]]. rewrite Hnf.
    injection H as <-. reflexivity.
  - injection H as <-. reflexivity.
Qed.

Lemma analyze_loop_plan (t : text) (fix_ : bool) (ms : list Re.match_obj) :
  forall st st',
    Checker.analyze_loop t fix_ st ms = Some st' ->
    (Checker.new_text st', Checker.offset st')
    = fold_left apply_entry
        (map (fun m => (Re.m_start m, Re.m_end m,
                        checker_replacement t fix_ m)) ms)
        (Checker.new_text st, Checker.offset st).
Proof.
  induction ms as [|m ms IH]; intros st st' H; simpl in H.
  - injection H as <-. reflexivity.
  - apply bind_some in H. destruct H as [st1 [H1 H2]].
    cbn [map fold_left]. rewrite <- (analyze_block_entry _ _ _ _ H1).
    apply IH; exact H2.
Qed.

Lemma analyze_loop_total (t : text) (fix_ : bool) (ms : list Re.match_obj) :
  forall st, exists st', Checker.analyze_loop t fix_ st ms = Some st'.
Proof.
  induction ms as [|m ms IH]; intros st; simpl; [eexists; reflexivity|].
  destruct (analyze_block_results t fix_ st m) as [d [a [_ [-> _]]]].
  cbn [bind]. apply IH.
Qed.

Lemma preview_total (b : text) : exists p, IndentFixer.preview b = Some p.
Proof.
  unfold IndentFixer.preview.
  destruct (nonempty (Py.strip b)) eqn:H; [|eexists; reflexivity].
  apply index0_total, splitlines_nonempty, nonempty_true; exact H.
Qed.

Lemma fix_block_entry (t : text) (normalize_all : bool)
  (st : IndentFixer.loop_state) (m : Re.match_obj) :
  exists st',
    IndentFixer.fix_block t normalize_all st m = Some st' /\
    (IndentFixer.new_text st', IndentFixer.offset st')
    = apply_entry (IndentFixer.new_text st, IndentFixer.offset st)
        (Re.m_start m, Re.m_end m, fixer_replacement t normalize_all m).
Proof.
  unfold IndentFixer.fix_block, fixer_replacement, apply_entry.
  destruct (leading_ws_total (Checker.line_prefix t (Re.m_start m)))
    as [ws ->].
  cbn [bind].
  match goal with |- context [if ?b then Some st else _] => destruct b end;
    [exists st; split; reflexivity|].
  match goal with |- context [if ?b then Some st else _] => destruct b end;
    [exists st; split; reflexivity|].
  match goal with |- context [if ?b then _ else Some st] => destruct b end;
    [|exists st; split; reflexivity].
  destruct (preview_total (Py.slice t (Re.m_start m) (Re.m_end m))) as [p1 ->].
  match goal with |- context [IndentFixer.preview ?b] =>
    destruct (preview_total b) as [p2 ->] end.
  cbn [bind]. eexists; split; reflexivity.
Qed.

Lemma fix_loop_plan (t : text) (normalize_all : bool)
  (ms : list Re.match_obj) :
  forall st,
    exists st',
      IndentFixer.fix_loop t normalize_all st ms = Some st' /\
      (IndentFixer.new_text st', IndentFixer.offset st')
      = fold_left apply_entry
          (map (fun m => (Re.m_start m, Re.m_end m,
                          fixer_replacement t normalize_all m)) ms)
          (IndentFixer.new_text st, IndentFixer.offset st).
Proof.
  induction ms as [|m ms IH]; intros st;
    cbn [IndentFixer.fix_loop map fold_left].
  - exists st; split; reflexivity.
  - destruct (fix_block_entry t normalize_all st m) as [st1 [-> E]].
    cbn [bind]. rewrite <- E. apply IH.
Qed.

Lemma run_plan_spliced (t : text) (plan : list plan_entry) :
  plan_ok 0 (length t) plan ->
  run_plan t plan = (spliced t 0 plan, total_shift plan).
Proof.
  intros H. unfold run_plan.
  exact (@apply_plan_spliced t plan [] 0 H (Nat.le_0_l _)).
Qed.

(** ** The extractor pattern, read as a scan for opener and closer *)

Arguments chr_eqb : simpl never.

Lemma closer_k_spec (p0 pos : nat) (pv : option ascii) (s : text)
  (caps : list (nat * (nat * nat))) :
  option_map span_caps (closer_k p0 (Re.MState pos pv s caps))
  = if Py.startswith s (str "*/")
    then Some (pos + 2, (1, (p0, pos)) :: caps) else None.
Proof.
  unfold closer_k.
  destruct s as [|c [|d tl]]; cbn; try reflexivity.
  - destruct (chr_eqb "*" c); reflexivity.
  - destruct (chr_eqb "*" c); cbn; [|reflexivity].
    destruct (chr_eqb "/" d); cbn; [|reflexivity].
    unfold span_caps; cbn. destruct tl; cbn; do 2 f_equal; lia.
Qed.

Lemma run_any_cons (pos : nat) (pv : option ascii) (c : ascii) (tl : text)
  (caps : list (nat * (nat * nat))) (k : Re.mstate -> option Re.mstate) :
  Re.run Re.AnyS (Re.MState pos pv (c :: tl) caps) k
  = k (Re.MState (S pos) (Some c) tl caps).
Proof. reflexivity. Qed.

Lemma star_lazy_any (p0 : nat) (caps : list (nat * (nat * nat))) (s : text) :
  forall fuel pos pv,
    length s < fuel ->
    option_map span_caps
      (Re.star_loop false (Re.run Re.AnyS) (closer_k p0) fuel
         (Re.MState pos pv s caps))
    = option_map (fun i => (pos + i + 2, (1, (p0, pos + i)) :: caps))
        (find_close s).
Proof.
  induction s as [|c tl IH]; intros fuel pos pv Hf;
    (destruct fuel as [|f]; [simpl in Hf; lia|]).
  - reflexivity.
  - cbn [Re.star_loop find_close].
    pose proof (@closer_k_spec p0 pos pv (c :: tl) caps) as Hk.
    destruct (Py.startswith (c :: tl) (str "*/")).
    + destruct (closer_k p0 _) as [x|]; [|discriminate].
      cbn in Hk |- *. rewrite Nat.add_0_r. exact Hk.
    + destruct (closer_k p0 _) as [x|]; [discriminate|].
      rewrite run_any_cons. cbn [Re.pos].
      replace (pos <? S pos) with true by (symmetry; apply Nat.ltb_lt; lia).
      rewrite IH by (simpl in Hf; lia).
      destruct (find_close tl) as [i|]; cbn [option_map]; [|reflexivity].
      replace (S pos + i) with (pos + S i) by lia. reflexivity.
Qed.

Lemma chr_eqb_eq (a b : ascii) : chr_eqb a b = true -> a = b.
Proof. unfold chr_eqb. apply Ascii.eqb_eq. Qed.

Lemma startswith_cons (c : ascii) (p s : text) :
  Py.startswith s (c :: p) = true ->
  exists s', s = c :: s' /\ Py.startswith s' p = true.
Proof.
  destruct s as [|d s']; cbn; [discriminate|].
  intros H. apply andb_true_iff in H. destruct H as [Hc Hp].
  apply chr_eqb_eq in Hc. subst. exists s'; auto.
Qed.

Lemma startswith_opener (s : text) :
  Py.startswith s (str "/**") = true ->
  exists s3, s = "/"%char :: "*"%char :: "*"%char :: s3.
Proof.
  intros H. change (str "/**") with ["/"%char; "*"%char; "*"%char] in H.
  apply startswith_cons in H. destruct H as [s1 [-> H]].
  apply startswith_cons in H. destruct H as [s2 [-> H]].
  apply startswith_cons in H. destruct H as [s3 [-> H]].
  exists s3; reflexivity.
Qed.

Lemma run_scaladoc_open (p : nat) (pv : option ascii) (s3 : text) :
  Re.run Checker.SCALADOC_RE
    (Re.MState p pv ("/"%char :: "*"%char :: "*"%char :: s3) []) Some
  = Re.star_loop false (Re.run Re.AnyS) (closer_k (3 + p))
      (S (length s3)) (Re.MState (3 + p) (Some "*"%char) s3 []).
Proof. reflexivity. Qed.

Lemma run_scaladoc_no_opener (p : nat) (pv : option ascii) (s : text) :
  Py.startswith s (str "/**") = false ->
  Re.run Checker.SCALADOC_RE (Re.MState p pv s []) Some = None.
Proof.
  destruct s as [|a [|b [|c s3]]]; cbn; intros H; try reflexivity.
  - destruct (chr_eqb "/" a); reflexivity.
  - destruct (chr_eqb "/" a); [|reflexivity].
    destruct (chr_eqb "*" b); reflexivity.
  - destruct (chr_eqb "/" a); [|reflexivity].
    destruct (chr_eqb "*" b); [|reflexivity].
    destruct (chr_eqb "*" c); [|reflexivity].
    destruct s3; discriminate.
Qed.

Lemma match_at_scaladoc (p : nat) (pv : option ascii) (s : text) :
  Re.match_at Checker.SCALADOC_RE p pv s
  = option_map (fun n => Re.Match p (p + n) [(1, (p + 3, p + n - 2))])
      (block_len s).
Proof.
  unfold Re.match_at, block_len.
  destruct (Py.startswith s (str "/**")) eqn:E.
  - destruct (@startswith_opener s E) as [s3 ->].
    rewrite run_scaladoc_open.
    pose proof (@star_lazy_any (3 + p) [] s3 (S (length s3)) (3 + p)
                  (Some "*"%char) (Nat.lt_succ_diag_r _)) as H.
    cbn [skipn].
    destruct (Re.star_loop _ _ _ _ _) as [st|];
      destruct (find_close s3) as [i|]; cbn in H |- *; try discriminate;
      [|reflexivity].
    injection H as H1 H2. rewrite H1, H2. f_equal. f_equal; [lia|].
    do 3 f_equal; lia.
  - rewrite (@run_scaladoc_no_opener p pv s E). reflexivity.
Qed.

Lemma find_close_bound (s : text) (i : nat) :
  find_close s = Some i -> i + 2 <= length s.
Proof.
  revert i; induction s as [|c s IH]; intros i H; [discriminate|].
  cbn [find_close] in H.
  destruct (Py.startswith (c :: s) (str "*/")) eqn:E.
  - injection H as <-.
    change (str "*/") with ["*"%char; "/"%char] in E.
    apply startswith_cons in E. destruct E as [s1 [E1 E]].
    apply startswith_cons in E. destruct E as [s2 [E2 _]].
    injection E1 as _ ->. subst. simpl. lia.
  - destruct (find_close s) as [j|]; [|discriminate].
    injection H as <-. specialize (IH j eq_refl). simpl. lia.
Qed.

Lemma block_len_bound (s : text) (n : nat) :
  block_len s = Some n -> 5 <= n /\ n <= length s.
Proof.
  unfold block_len. destruct (Py.startswith s (str "/**")) eqn:E;
    [|discriminate].
  destruct (@startswith_opener s E) as [s3 ->]. cbn [skipn].
  destruct (find_close s3) as [i|] eqn:F; [|discriminate].
  intros H; injection H as <-. apply find_close_bound in F. simpl. lia.
Qed.

Lemma first_block_bound (s : text) :
  forall i n, first_block s = Some (i, n) -> 5 <= n /\ i + n <= length s.
Proof.
  induction s as [|c s IH]; intros i n H; cbn [first_block] in H.
  - destruct (block_len []) as [m|] eqn:E; [|discriminate].
    injection H as <- <-. apply block_len_bound in E. lia.
  - destruct (block_len (c :: s)) as [m|] eqn:E.
    + injection H as <- <-. apply block_len_bound in E. lia.
    + destruct (first_block s) as [[i' n']|]; [|discriminate].
      injection H as <- <-. specialize (IH i' n' eq_refl). simpl. lia.
Qed.

Lemma search_from_scaladoc (s : text) :
  forall p pv,
    Re.search_from Checker.SCALADOC_RE p pv s
    = option_map (fun b => block_match (p + fst b) (p + fst b + snd b))
        (first_block s).
Proof.
  induction s as [|c s IH]; intros p pv;
    cbn [Re.search_from first_block]; rewrite match_at_scaladoc.
  - destruct (block_len []) as [n|]; cbn; [|reflexivity].
    unfold block_match. rewrite Nat.add_0_r. reflexivity.
  - destruct (block_len (c :: s)) as [n|]; cbn [option_map fst snd].
    + unfold block_match. rewrite Nat.add_0_r. reflexivity.
    + rewrite IH. destruct (first_block s) as [[i n]|]; cbn; [|reflexivity].
      replace (p + S i) with (S (p + i)) by lia. reflexivity.
Qed.

Lemma finditer_from_scaladoc (fuel : nat) :
  forall p pv s,
    Re.finditer_from fuel Checker.SCALADOC_RE p pv s
    = map (fun ab => block_match (fst ab) (snd ab)) (blocks_from fuel p s).
Proof.
  induction fuel as [|f IH]; intros p pv s; [reflexivity|].
  cbn [Re.finditer_from blocks_from]. rewrite search_from_scaladoc.
  destruct (first_block s) as [[i n]|] eqn:E; [|reflexivity].
  apply first_block_bound in E.
  cbn [option_map fst snd block_match Re.m_end map].
  replace (p + i + n - p) with (i + n) by lia.
  destruct (i + n =? 0) eqn:Z; [apply Nat.eqb_eq in Z; lia|].
  rewrite IH. reflexivity.
Qed.

(** ** Re-scanning a rewritten text *)

Lemma startswith_app_long (w z p : text) :
  length p <= length w -> Py.startswith (w ++ z) p = Py.startswith w p.
Proof.
  revert w; induction p as [|c p IH]; intros w H.
  - destruct w; destruct z; reflexivity.
  - destruct w as [|d w]; [simpl in H; lia|].
    cbn. rewrite IH by (simpl in H; lia). reflexivity.
Qed.

Lemma startswith_app_true (w z p : text) :
  Py.startswith w p = true -> Py.startswith (w ++ z) p = true.
Proof.
  revert w; induction p as [|c p IH]; intros w H.
  - destruct w; destruct z; reflexivity.
  - destruct w as [|d w]; [discriminate|].
    cbn in H |- *. apply andb_true_iff in H. destruct H as [H1 H2].
    rewrite H1, (IH _ H2). reflexivity.
Qed.

Lemma find_close_app (x z : text) (i : nat) :
  find_close x = Some i -> find_close (x ++ z) = Some i.
Proof.
  revert i; induction x as [|c x IH]; intros i H; [discriminate|].
  cbn [find_close app] in H |- *.
  change (c :: x ++ z) with ((c :: x) ++ z).
  destruct (Py.startswith (c :: x) (str "*/")) eqn:E.
  - rewrite (@startswith_app_true _ z _ E). exact H.
  - destruct (find_close x) as [j|] eqn:F; [|discriminate].
    pose proof (@find_close_bound _ _ F) as Hb.
    rewrite startswith_app_long by (simpl; lia).
    rewrite E, (IH j eq_refl). exact H.
Qed.

Lemma find_close_complete (y z : text) :
  find_close (y ++ "*"%char :: "/"%char :: z) <> None.
Proof.
  induction y as [|c y IH]; cbn [app find_close].
  - change ("*"%char :: "/"%char :: z) with (str "*/" ++ z).
    rewrite startswith_app. discriminate.
  - destruct (Py.startswith _ _); [discriminate|].
    destruct (find_close (y ++ "*"%char :: "/"%char :: z)); [discriminate|].
    exfalso; apply IH; reflexivity.
Qed.

Lemma find_close_split (s : text) (i : nat) :
  find_close s = Some i ->
  exists x z, s = x ++ "*"%char :: "/"%char :: z /\ length x = i.
Proof.
  revert i; induction s as [|c s IH]; intros i H; [discriminate|].
  cbn [find_close] in H.
  destruct (Py.startswith (c :: s) (str "*/")) eqn:E.
  - injection H as <-.
    change (str "*/") with ["*"%char; "/"%char] in E.
    apply startswith_cons in E. destruct E as [s1 [E1 E]].
    apply startswith_cons in E. destruct E as [s2 [E2 _]].
    subst. injection E1 as -> ->. exists [], s2. split; reflexivity.
  - destruct (find_close s) as [j|]; [|discriminate].
    injection H as <-. destruct (IH j eq_refl) as [x [z [-> Hx]]].
    exists (c :: x), z. split; [reflexivity | simpl; lia].
Qed.

Lemma startswith_opener_cons (s : text) :
  Py.startswith ("/"%char :: "*"%char :: "*"%char :: s) (str "/**") = true.
Proof. exact (startswith_app (str "/**") s). Qed.

(** A well-closed block keeps its length whatever follows it. *)
Lemma well_closed_app (r z : text) :
  well_closed r = true -> block_len (r ++ z) = Some (length r).
Proof.
  unfold well_closed, block_len.
  destruct (Py.startswith r (str "/**")) eqn:E; [|discriminate].
  destruct (@startswith_opener r E) as [s3 ->].
  cbn [skipn app]. rewrite startswith_opener_cons.
  destruct (find_close s3) as [i|] eqn:F; [|discriminate].
  cbn [option_map]. intros H. apply Nat.eqb_eq in H.
  rewrite (@find_close_app _ z _ F). cbn [option_map]. f_equal. exact H.
Qed.

Lemma well_closed_split (r : text) :
  well_closed r = true ->
  exists x, r = str "/**" ++ x ++ str "*/".
Proof.
  unfold well_closed, block_len.
  destruct (Py.startswith r (str "/**")) eqn:E; [|discriminate].
  destruct (@startswith_opener r E) as [s3 ->]. cbn [skipn].
  destruct (find_close s3) as [i|] eqn:F; [|discriminate].
  cbn [option_map]. intros H. apply Nat.eqb_eq in H.
  destruct (@find_close_split _ _ F) as [x [z [-> Hx]]].
  exists x. simpl in H. rewrite length_app in H. simpl in H.
  assert (z = []) by (destruct z; [reflexivity | simpl in H; lia]).
  subst. reflexivity.
Qed.

Lemma find_close_firstn (s : text) :
  forall i, find_close s = Some i -> find_close (firstn (i + 2) s) = Some i.
Proof.
  induction s as [|c s IH]; intros i H; [discriminate|].
  cbn [find_close] in H.
  destruct (Py.startswith (c :: s) (str "*/")) eqn:E.
  - injection H as <-.
    change (str "*/") with ["*"%char; "/"%char] in E.
    apply startswith_cons in E. destruct E as [s1 [E1 E]].
    apply startswith_cons in E. destruct E as [s2 [E2 _]].
    subst. injection E1 as -> ->. reflexivity.
  - destruct (find_close s) as [j|] eqn:F; [|discriminate].
    injection H as <-. pose proof (@find_close_bound _ _ F) as Hb.
    cbn [Nat.add firstn find_close].
    rewrite (IH j eq_refl).
    rewrite <- (firstn_skipn (j + 2) s) in E.
    change (c :: firstn (j + 2) s ++ skipn (j + 2) s)
      with ((c :: firstn (j + 2) s) ++ skipn (j + 2) s) in E.
    rewrite startswith_app_long in E
      by (cbn [length]; rewrite length_firstn; simpl; lia).
    rewrite E. reflexivity.
Qed.

(** The block found at the head of a text is well closed. *)
Lemma block_len_well_closed (s : text) (n : nat) :
  block_len s = Some n -> well_closed (firstn n s) = true.
Proof.
  intros H. unfold well_closed, block_len in *.
  destruct (Py.startswith s (str "/**")) eqn:E; [|discriminate].
  destruct (@startswith_opener s E) as [s3 ->]. cbn [skipn] in H.
  destruct (find_close s3) as [i|] eqn:F; [|discriminate].
  injection H as <-. pose proof (@find_close_bound _ _ F) as Hb.
  replace (i + 5) with (3 + (i + 2)) by lia. cbn [firstn Nat.add].
  rewrite startswith_opener_cons. cbn [skipn].
  rewrite (find_close_firstn _ F). cbn [option_map length].
  rewrite length_firstn. apply Nat.eqb_eq. lia.
Qed.

Lemma first_block_inv (s : text) :
  forall i n,
    first_block s = Some (i, n) ->
    block_len (skipn i s) = Some n /\
    (forall j, j < i -> block_len (skipn j s) = None).
Proof.
  induction s as [|c s IH]; intros i n H; cbn [first_block] in H.
  - destruct (block_len []) as [m|] eqn:E; [|discriminate].
    injection H as <- <-. split; [exact E | intros j Hj; lia].
  - destruct (block_len (c :: s)) as [m|] eqn:E.
    + injection H as <- <-. split; [exact E | intros j Hj; lia].
    + destruct (first_block s) as [[i' n']|]; [|discriminate].
      injection H as <- <-. destruct (IH i' n' eq_refl) as [H1 H2].
      split; [exact H1|]. intros [|j] Hj; [exact E|].
      apply H2. lia.
Qed.

Lemma first_block_intro (i : nat) :
  forall s n,
    (forall j, j < i -> block_len (skipn j s) = None) ->
    block_len (skipn i s) = Some n ->
    first_block s = Some (i, n).
Proof.
  induction i as [|i IH]; intros s n Hgap Hb.
  - cbn [skipn] in Hb. destruct s; cbn [first_block]; rewrite Hb; reflexivity.
  - destruct s as [|c s]; [discriminate|].
    cbn [first_block].
    pose proof (Hgap 0 (Nat.lt_0_succ _)) as H0. cbn [skipn] in H0.
    rewrite H0. cbn [skipn] in Hb. rewrite (IH s n); [reflexivity | | exact Hb].
    intros j Hj. apply (Hgap (S j)). lia.
Qed.

Lemma skipn_app_le {A : Type} (j : nat) (g x : list A) :
  j <= length g -> skipn j (g ++ x) = skipn j g ++ x.
Proof.
  intros H. rewrite skipn_app.
  replace (j - length g) with 0 by lia. reflexivity.
Qed.

(** Before a block, replacing the block by another one brings no new
    block start. *)
Lemma gap_preserved (g b r z z' : text) (j : nat) :
  j < length g ->
  well_closed b = true ->
  Py.startswith r (str "/**") = true ->
  block_len (skipn j (g ++ b ++ z)) = None ->
  block_len (skipn j (g ++ r ++ z')) = None.
Proof.
  intros Hj Hb Hr H.
  rewrite skipn_app_le in H |- * by lia.
  destruct (@well_closed_split b Hb) as [x ->].
  destruct (@startswith_opener r Hr) as [r3 ->].
  set (gj := skipn j g) in *.
  assert (Hg : 1 <= length gj) by (unfold gj; rewrite length_skipn; lia).
  change (gj ++ ("/"%char :: "*"%char :: "*"%char :: r3) ++ z')
    with (gj ++ str "/**" ++ (r3 ++ z')).
  rewrite <- app_assoc in H.
  rewrite app_assoc in H |- *.
  unfold block_len in *.
  rewrite startswith_app_long in H |- *
    by (rewrite length_app; simpl; lia).
  destruct (Py.startswith (gj ++ str "/**") (str "/**")); [|reflexivity].
  exfalso.
  rewrite skipn_app_le in H by (rewrite length_app; simpl; lia).
  destruct (find_close _) eqn:F in H; [discriminate|].
  revert F. rewrite <- !app_assoc. rewrite app_assoc.
  exact (@find_close_complete _ z).
Qed.

Lemma well_closed_length (r : text) : well_closed r = true -> 5 <= length r.
Proof.
  unfold well_closed. destruct (block_len r) as [n|] eqn:E; [|discriminate].
  intros H. apply Nat.eqb_eq in H. apply block_len_bound in E. lia.
Qed.

Lemma well_closed_opener (r : text) :
  well_closed r = true -> Py.startswith r (str "/**") = true.
Proof.
  unfold well_closed, block_len.
  destruct (Py.startswith r (str "/**")); [reflexivity | discriminate].
Qed.

Lemma rescan_blocks (t : text) (plan : list plan_entry) :
  forall fuel fuel' from p',
    from <= length t ->
    length t - from < fuel ->
    length (spliced t from plan) < fuel' ->
    blocks_from fuel from (skipn from t) = map fst plan ->
    Forall closed_entry plan ->
    blocks_from fuel' p' (spliced t from plan) = new_spans t p' from plan.
Proof.
  induction plan as [|[[s en] r] plan IH];
    intros fuel fuel' from p' Hfrom Hfuel Hfuel' Hb Hc.
  - destruct fuel as [|f]; [lia|]. cbn [blocks_from map] in Hb.
    destruct (first_block (skipn from t)) as [[i n]|] eqn:FB; [discriminate|].
    cbn [spliced new_spans].
    destruct fuel' as [|f']; [reflexivity|].
    cbn [blocks_from]. rewrite FB. reflexivity.
  - destruct fuel as [|f]; [lia|]. cbn [blocks_from map fst] in Hb.
    destruct (first_block (skipn from t)) as [[i n]|] eqn:FB; [|discriminate].
    injection Hb as Hs He Hrest.
    pose proof (@first_block_bound _ _ _ FB) as [Hn5 Hin].
    rewrite length_skipn in Hin.
    destruct (@first_block_inv _ _ _ FB) as [Hlen Hgap].
    rewrite skipn_skipn in Hlen, Hrest.
    replace (i + from) with s in Hlen by lia.
    replace (i + n + from) with en in Hrest by lia.
    replace (from + i + n) with en in Hrest by lia.
    inversion Hc as [|e0 l0 Hce Hcrest]; subst e0 l0.
    set (G := Py.slice t from s).
    set (B := Py.slice t s en).
    set (R := entry_text t (s, en, r)).
    set (T' := spliced t en plan).
    assert (HG : length G = i) by (unfold G; rewrite slice_length; lia).
    assert (HB : well_closed B = true).
    { unfold B, Py.slice. replace (en - s) with n by lia.
      apply block_len_well_closed; exact Hlen. }
    assert (HR : well_closed R = true).
    { unfold R, entry_text. destruct r as [repl|]; [exact Hce | exact HB]. }
    assert (Hsplit : skipn from t = G ++ B ++ skipn en t).
    { unfold G, B. rewrite slice_skipn by lia. rewrite slice_skipn by lia.
      reflexivity. }
    assert (FB' : first_block (G ++ R ++ T') = Some (i, length R)).
    { apply first_block_intro.
      - intros j Hj. apply gap_preserved with (b := B) (z := skipn en t).
        + lia.
        + exact HB.
        + apply well_closed_opener; exact HR.
        + rewrite <- Hsplit. apply Hgap; exact Hj.
      - rewrite <- HG. rewrite skipn_app_le by lia.
        rewrite skipn_all2 by lia. cbn [app].
        apply well_closed_app; exact HR. }
    pose proof (well_closed_length R HR) as HR5.
    cbn [spliced fst snd]. fold G. fold R. fold T'.
    cbn [spliced fst snd] in Hfuel'. fold G R T' in Hfuel'.
    rewrite !length_app in Hfuel'.
    destruct fuel' as [|f']; [lia|].
    cbn [blocks_from new_spans fst snd]. rewrite FB'.
    fold R. replace (s - from) with i by lia.
    f_equal.
    replace (skipn (i + length R) (G ++ R ++ T')) with T'.
    + apply (IH f f' en (p' + i + length R)); try assumption; try lia.
      fold T'. lia.
    + rewrite app_assoc. rewrite skipn_app_le by (rewrite length_app; lia).
      rewrite skipn_all2 by (rewrite length_app; lia). reflexivity.
Qed.

Lemma slice_middle (x r z : text) :
  Py.slice (x ++ r ++ z) (length x) (length x + length r) = r.
Proof.
  unfold Py.slice. rewrite skipn_app_le by lia.
  rewrite skipn_all2 by lia. cbn [app].
  replace (length x + length r - length x) with (length r + 0) by lia.
  rewrite firstn_app_2. cbn [firstn]. apply app_nil_r.
Qed.

Lemma entry_text_length (t : text) (s en : nat) :
  s <= en -> en <= length t -> length (entry_text t (s, en, None)) = en - s.
Proof. intros H1 H2. cbn [entry_text]. apply slice_length; assumption. Qed.

Lemma expected_blocks_spans (t : text) (plan : list plan_entry) :
  forall (pre new : text) (from : nat),
    plan_ok from (length t) plan ->
    new = pre ++ spliced t from plan ->
    map (fun ab => (fst ab, snd ab, Py.slice new (fst ab) (snd ab)))
        (new_spans t (length pre) from plan)
    = expected_blocks t (Z.of_nat (length pre) - Z.of_nat from) plan.
Proof.
  induction plan as [|[[s en] r] plan IH]; intros pre new from Hok Hnew;
    [reflexivity|].
  destruct Hok as [H1 [H2 [H3 Hok]]].
  cbn [new_spans expected_blocks spliced map fst snd] in Hnew |- *.
  set (R := entry_text t (s, en, r)) in *.
  set (G := Py.slice t from s) in *.
  assert (HG : length G = s - from) by (unfold G; apply slice_length; lia).
  replace (Z.to_nat (Z.of_nat s + (Z.of_nat (length pre) - Z.of_nat from)))
    with (length pre + (s - from)) by lia.
  f_equal.
  - f_equal. rewrite Hnew.
    replace (length pre + (s - from)) with (length (pre ++ G))
      by (rewrite length_app; lia).
    rewrite (app_assoc pre G). apply slice_middle.
  - assert (Hnew' : new = (pre ++ G ++ R) ++ spliced t en plan)
      by (rewrite Hnew, <- !app_assoc; reflexivity).
    specialize (IH (pre ++ G ++ R) new en Hok Hnew').
    replace (length (pre ++ G ++ R)) with (length pre + (s - from) + length R)
      in IH by (rewrite !length_app; lia).
    rewrite IH. f_equal.
    assert (HR : r = None -> length R = en - s).
    { intros ->. apply entry_text_length; lia. }
    destruct r as [repl|]; [lia|]. specialize (HR eq_refl). lia.
Qed.

Lemma rescan_blocks_from (new : text) :
  rescan new
  = map (fun ab => (fst ab, snd ab, Py.slice new (fst ab) (snd ab)))
        (blocks_from (S (length new)) 0 new).
Proof.
  unfold rescan, Re.finditer. rewrite finditer_from_scaladoc, map_map.
  reflexivity.
Qed.

Lemma finditer_plan_spans (repl : Re.match_obj -> option text) (t : text) :
  blocks_from (S (length t)) 0 t
  = map fst (map (fun m => (Re.m_start m, Re.m_end m, repl m))
               (Re.finditer Checker.SCALADOC_RE t)).
Proof.
  unfold Re.finditer. rewrite finditer_from_scaladoc, !map_map.
  cbn [fst]. symmetry. erewrite map_ext; [apply map_id|].
  intros [a b]; reflexivity.
Qed.

(** The pass of either tool over the plan it makes from the blocks of
    [t]. *)
Lemma plan_pass (t : text) (repl : Re.match_obj -> option text) :
  let plan := map (fun m => (Re.m_start m, Re.m_end m, repl m))
                  (Re.finditer Checker.SCALADOC_RE t) in
  run_plan t plan = (spliced t 0 plan, total_shift plan) /\
  (Forall closed_entry plan ->
   rescan (spliced t 0 plan) = expected_blocks t 0 plan).
Proof.
  intros plan.
  assert (Hok : plan_ok 0 (length t) plan)
    by (apply spans_plan_ok, finditer_spans).
  split; [apply run_plan_spliced; exact Hok|].
  intros Hc. rewrite rescan_blocks_from.
  rewrite (@rescan_blocks t plan (S (length t)) _ 0 0); try lia; try assumption.
  - exact (@expected_blocks_spans t plan [] _ 0 Hok eq_refl).
  - exact (finditer_plan_spans repl t).
Qed.

(** ** What the indentation fixer writes *)

Lemma startswith_closer (c : ascii) (s : text) :
  Py.startswith (c :: s) (str "*/")
  = (chr_eqb "*" c
     && match s with d :: _ => chr_eqb "/" d | [] => false end)%bool.
Proof.
  destruct s as [|d s]; cbn; [reflexivity|].
  destruct s; cbn; rewrite andb_true_r; reflexivity.
Qed.

Lemma no_closer_cons (c : ascii) (s : text) :
  no_closer (c :: s) <->
  Py.startswith (c :: s) (str "*/") = false /\ no_closer s.
Proof.
  unfold no_closer. cbn [find_close].
  destruct (Py.startswith (c :: s) (str "*/")).
  - split; [discriminate | intros [H _]; discriminate].
  - destruct (find_close s); cbn; split; try tauto; try discriminate.
    intros [_ H]; discriminate.
Qed.

Lemma no_closer_app (a b : text) :
  no_closer a -> no_closer b -> no_slash_head b -> no_closer (a ++ b).
Proof.
  intros Ha Hb Hh. induction a as [|c a IH]; [exact Hb|].
  apply no_closer_cons in Ha. destruct Ha as [Hc Ha].
  cbn [app]. apply no_closer_cons. split; [|apply IH; exact Ha].
  rewrite startswith_closer in Hc |- *.
  destruct a as [|d a]; [|exact Hc].
  cbn [app]. destruct b as [|d b]; [exact Hc|].
  cbn in Hh. rewrite Hh. apply andb_false_r.
Qed.

Lemma calm_app (a b : text) : calm a -> calm b -> calm (a ++ b).
Proof.
  intros [Ha1 Ha2] [Hb1 Hb2]. split.
  - apply no_closer_app; assumption.
  - destruct a; [exact Hb2 | exact Ha2].
Qed.

Lemma no_closer_skipn (k : nat) (s : text) :
  no_closer s -> no_closer (skipn k s).
Proof.
  revert s; induction k as [|k IH]; intros s H; [exact H|].
  destruct s as [|c s]; [exact H|].
  apply no_closer_cons in H. cbn [skipn]. apply IH; tauto.
Qed.

Lemma no_closer_firstn (k : nat) (s : text) :
  no_closer s -> no_closer (firstn k s).
Proof.
  revert s; induction k as [|k IH]; intros s H; [reflexivity|].
  destruct s as [|c s]; [exact H|].
  apply no_closer_cons in H. destruct H as [Hc Hs].
  cbn [firstn]. apply no_closer_cons. split; [|apply IH; exact Hs].
  rewrite startswith_closer in Hc |- *.
  destruct k; [cbn; apply andb_false_r|].
  destruct s as [|d s]; [exact Hc | exact Hc].
Qed.

Lemma no_closer_slice (s : text) (i j : nat) :
  no_closer s -> no_closer (Py.slice s i j).
Proof. intros H. apply no_closer_firstn, no_closer_skipn, H. Qed.

Lemma lstrip_skipn (s : text) : exists k, Py.lstrip s = skipn k s.
Proof.
  induction s as [|c s [k IH]]; [exists 0; reflexivity|].
  cbn [Py.lstrip]. destruct (is_space c).
  - exists (S k). exact IH.
  - exists 0. reflexivity.
Qed.

Lemma no_closer_lstrip (s : text) : no_closer s -> no_closer (Py.lstrip s).
Proof.
  intros H. destruct (lstrip_skipn s) as [k ->]. apply no_closer_skipn, H.
Qed.

Lemma space_not_star_slash (c : ascii) :
  is_space c = true -> chr_eqb "*" c = false /\ chr_eqb "/" c = false.
Proof.
  destruct c as [[] [] [] [] [] [] [] []]; intros H;
    try discriminate H; split; reflexivity.
Qed.

Lemma calm_spaces (ws : text) :
  Forall (fun c => is_space c = true) ws -> calm ws.
Proof.
  induction 1 as [|c ws Hc _ IH]; [split; [reflexivity | exact I]|].
  destruct (space_not_star_slash c Hc) as [H1 H2].
  split; [|exact H2].
  apply no_closer_cons. split; [|apply IH].
  rewrite startswith_closer, H1. reflexivity.
Qed.

Lemma calm_cons_plain (c : ascii) (s : text) :
  chr_eqb "*" c = false -> chr_eqb "/" c = false ->
  no_closer s -> calm (c :: s).
Proof.
  intros H1 H2 Hs. split; [|exact H2].
  apply no_closer_cons. split; [|exact Hs].
  rewrite startswith_closer, H1. reflexivity.
Qed.

Lemma no_closer_app_l (a b : text) : no_closer (a ++ b) -> no_closer a.
Proof.
  intros H. rewrite <- (firstn_all a).
  replace (firstn (length a) a) with (firstn (length a) (a ++ b))
    by (rewrite firstn_app, Nat.sub_diag, firstn_all; cbn;
        apply app_nil_r).
  apply no_closer_firstn, H.
Qed.

Lemma no_closer_app_r (a b : text) : no_closer (a ++ b) -> no_closer b.
Proof.
  intros H. replace b with (skipn (length a) (a ++ b)).
  - apply no_closer_skipn, H.
  - rewrite skipn_app, skipn_all, Nat.sub_diag. reflexivity.
Qed.

Lemma splitlines_aux_no_closer (n : nat) :
  forall s cur,
    length s <= n ->
    no_closer (rev cur ++ s) ->
    Forall no_closer (Py.splitlines_aux cur s).
Proof.
  induction n as [|n IH]; intros s cur Hn H.
  - destruct s; [|simpl in Hn; lia]. cbn [Py.splitlines_aux].
    rewrite app_nil_r in H. destruct cur; constructor; [exact H | constructor].
  - destruct s as [|c s]; cbn [Py.splitlines_aux].
    + rewrite app_nil_r in H.
      destruct cur; constructor; [exact H | constructor].
    + simpl in Hn. destruct (is_linebreak c).
      * constructor; [apply (no_closer_app_l _ _ H)|].
        assert (Hs : no_closer s).
        { apply no_closer_app_r in H. apply no_closer_cons in H. tauto. }
        destruct s as [|d s']; [apply IH; [simpl; lia | exact Hs]|].
        destruct (chr_eqb c CR && chr_eqb d NL)%bool.
        -- apply IH; [simpl in Hn; lia|].
           apply no_closer_cons in Hs. cbn. tauto.
        -- apply IH; [simpl in Hn |- *; lia | exact Hs].
      * apply IH; [lia|]. cbn [rev]. rewrite <- app_assoc. exact H.
Qed.

Lemma splitlines_no_closer (s : text) :
  no_closer s -> Forall no_closer (Py.splitlines s).
Proof. intros H. exact (@splitlines_aux_no_closer (length s) s [] (le_n _) H). Qed.

(** The content of a line, as the rebuilding loop takes it. *)
Lemma line_content_no_closer (l : text) :
  no_closer l ->
  no_closer match Re.rmatch IndentFixer.STAR_LINE_RE l with
            | Some mstar => Re.group_or_empty l mstar 1
            | None => l
            end.
Proof.
  intros H. destruct (Re.rmatch IndentFixer.STAR_LINE_RE l) as [m|]; [|exact H].
  unfold Re.group_or_empty, Re.group.
  destruct (Re.get_cap 1 (Re.m_caps m)) as [[a b]|]; [|reflexivity].
  apply no_closer_slice; exact H.
Qed.

Lemma calm_star : calm (str " *").
Proof. split; reflexivity. Qed.

Lemma calm_nl : calm [NL].
Proof. split; reflexivity. Qed.

Lemma calm_space_then (c : text) : no_closer c -> calm (SP :: c).
Proof. apply calm_cons_plain; reflexivity. Qed.

Lemma startswith_space (c : text) :
  Py.startswith c (str " ") = true -> exists c', c = SP :: c'.
Proof.
  intros H. change (str " ") with [SP] in H.
  destruct c as [|d c]; [discriminate|]. exists c.
  cbn in H. apply andb_true_iff in H. destruct H as [H _].
  unfold chr_eqb in H. apply Ascii.eqb_eq in H. subst. reflexivity.
Qed.

Lemma emit_preserve_calm (ws c : text) :
  calm ws -> no_closer c -> calm (IndentFixer.emit_preserve ws c).
Proof.
  intros Hws Hc. unfold IndentFixer.emit_preserve.
  destruct (Py.startswith c (str " ")) eqn:E.
  - destruct (startswith_space c E) as [c' ->].
    apply calm_app; [exact Hws|]. apply calm_app; [exact calm_star|].
    apply calm_space_then. apply no_closer_cons in Hc. tauto.
  - apply calm_app; [exact Hws|].
    change (str " * " ++ c) with (str " *" ++ SP :: c).
    apply calm_app; [exact calm_star | apply calm_space_then; exact Hc].
Qed.

Lemma emit_normalized_calm (ws c : text) :
  calm ws -> no_closer c -> calm (IndentFixer.emit_normalized ws c).
Proof.
  intros Hws Hc. unfold IndentFixer.emit_normalized.
  destruct (text_eqb (Py.lstrip c) []).
  - apply calm_app; [exact Hws | exact calm_star].
  - apply calm_app; [exact Hws|].
    change (str " * " ++ Py.lstrip c) with (str " *" ++ SP :: Py.lstrip c).
    apply calm_app; [exact calm_star|].
    apply calm_space_then, no_closer_lstrip, Hc.
Qed.

Lemma build_parts_calm (ws : text) (inner_lines : list text) :
  calm ws -> Forall no_closer inner_lines ->
  forall code pre,
    Forall calm (IndentFixer.build_parts ws code pre inner_lines).
Proof.
  intros Hws. induction 1 as [|l ls Hl _ IH]; intros code pre;
    cbn [IndentFixer.build_parts]; [constructor|].
  pose proof (line_content_no_closer Hl) as Hc.
  unfold IndentFixer.STAR_LINE_RE in Hc.
  repeat match goal with
         | |- Forall calm (if ?b then _ else _) => destruct b
         end;
    constructor; auto using emit_preserve_calm, emit_normalized_calm.
Qed.

(** ** The rebuilt block is well closed *)

Lemma opener_is_not_star_line (ws : text) :
  text_eqb (str "/**") (ws ++ str " *") = false.
Proof.
  destruct ws as [|a [|b [|c ws]]]; cbn [app str list_ascii_of_string text_eqb].
  - reflexivity.
  - destruct (chr_eqb _ a); reflexivity.
  - destruct (chr_eqb _ a); [|reflexivity].
    destruct (chr_eqb _ b); reflexivity.
  - destruct (chr_eqb _ a); [|reflexivity].
    destruct (chr_eqb _ b); [|reflexivity].
    destruct (chr_eqb _ c); [|reflexivity].
    destruct ws; reflexivity.
Qed.

Lemma Forall_removelast {A : Type} (P : A -> Prop) (l : list A) :
  Forall P l -> Forall P (removelast l).
Proof.
  induction 1 as [|x l Hx Hl IH]; [constructor|].
  cbn [removelast]. destruct l; [constructor|].
  constructor; assumption.
Qed.

Lemma drop_keeps_opener (ws : text) (had : bool) (bp : list text) :
  Forall calm bp ->
  exists bp',
    IndentFixer.drop_artificial_blank ws had (str "/**" :: bp)
    = str "/**" :: bp' /\ Forall calm bp'.
Proof.
  intros H. unfold IndentFixer.drop_artificial_blank.
  destruct (rev (str "/**" :: bp)) as [|last tl] eqn:E;
    [exists bp; auto|].
  destruct (negb had && text_eqb last (ws ++ str " *"))%bool eqn:C;
    [|exists bp; auto].
  destruct bp as [|q bp].
  - cbn in E. injection E as <- _.
    rewrite opener_is_not_star_line, andb_false_r in C. discriminate.
  - exists (removelast (q :: bp)). split; [reflexivity|].
    apply Forall_removelast; exact H.
Qed.

Lemma join_cons (sep p : text) (l : list text) :
  l <> [] -> Py.join sep (p :: l) = p ++ sep ++ Py.join sep l.
Proof. destruct l; [congruence | reflexivity]. Qed.

Lemma join_body (ws : text) (bp : list text) :
  Py.join [NL] (bp ++ [ws ++ str " */"]) = block_body ws bp ++ str "*/".
Proof.
  unfold block_body. induction bp as [|p bp IH].
  - cbn. rewrite <- app_assoc. reflexivity.
  - cbn [app map concat]. rewrite join_cons by (destruct bp; discriminate).
    rewrite IH. rewrite <- !app_assoc. reflexivity.
Qed.

Lemma block_body_calm (ws : text) (bp : list text) :
  calm ws -> Forall calm bp -> calm (block_body ws bp).
Proof.
  intros Hws H. unfold block_body. induction H as [|p bp Hp _ IH].
  - cbn [map concat app]. apply calm_app; [exact Hws|].
    split; reflexivity.
  - cbn [map concat]. rewrite <- !app_assoc.
    apply calm_app; [exact Hp|]. apply calm_app; [exact calm_nl | exact IH].
Qed.

Lemma no_closer_then_closer (x : text) :
  no_closer x -> find_close (x ++ str "*/") = Some (length x).
Proof.
  induction x as [|c x IH]; intros H; [reflexivity|].
  apply no_closer_cons in H. destruct H as [Hc Hx].
  cbn [app find_close length].
  rewrite (IH Hx). cbn [option_map].
  rewrite startswith_closer in Hc |- *.
  destruct x as [|d x]; [|cbn [app]; rewrite Hc; reflexivity].
  cbn [app]. rewrite andb_false_r. reflexivity.
Qed.

Lemma opener_body_well_closed (x : text) :
  no_closer x -> well_closed (str "/**" ++ x ++ str "*/") = true.
Proof.
  intros H. unfold well_closed, block_len.
  change (str "/**" ++ x ++ str "*/")
    with ("/"%char :: "*"%char :: "*"%char :: x ++ str "*/").
  rewrite startswith_opener_cons. cbn [skipn].
  rewrite (no_closer_then_closer H). cbn [option_map length].
  rewrite length_app. apply Nat.eqb_eq. simpl. lia.
Qed.

Lemma new_block_well_closed (ws : text) (inner_lines : list text) :
  calm ws -> Forall no_closer inner_lines ->
  well_closed (IndentFixer.new_block ws inner_lines) = true.
Proof.
  intros Hws Hl. unfold IndentFixer.new_block.
  destruct (@drop_keeps_opener ws
              (IndentFixer.had_trailing_star_blank inner_lines)
              (IndentFixer.build_parts ws false false inner_lines)
              (build_parts_calm Hws Hl false false)) as [bp' [-> Hbp]].
  cbn [app]. rewrite join_cons by (destruct bp'; discriminate).
  rewrite join_body.
  change ([NL] ++ block_body ws bp' ++ str "*/")
    with ((NL :: block_body ws bp') ++ str "*/").
  apply opener_body_well_closed.
  apply (calm_app calm_nl (block_body_calm Hws Hbp)).
Qed.

(** ** The inner text of a block holds no closer *)

Lemma find_close_firstn_none (s : text) :
  forall i, find_close s = Some i -> no_closer (firstn i s).
Proof.
  induction s as [|c s IH]; intros i H; [discriminate|].
  cbn [find_close] in H.
  destruct (Py.startswith (c :: s) (str "*/")) eqn:E.
  - injection H as <-. reflexivity.
  - destruct (find_close s) as [j|] eqn:F; [|discriminate].
    injection H as <-. cbn [firstn]. apply no_closer_cons.
    split; [|apply IH; reflexivity].
    rewrite startswith_closer in E |- *.
    destruct j; [cbn; apply andb_false_r|].
    destruct s; exact E.
Qed.

Lemma blocks_from_in (fuel : nat) :
  forall p s a b,
    In (a, b) (blocks_from fuel p s) ->
    exists k, a = p + k /\ block_len (skipn k s) = Some (b - a).
Proof.
  induction fuel as [|f IH]; intros p s a b H; [destruct H|].
  cbn [blocks_from] in H.
  destruct (first_block s) as [[i n]|] eqn:FB; [|destruct H].
  destruct H as [H|H].
  - injection H as <- <-. exists i. split; [reflexivity|].
    replace (p + i + n - (p + i)) with n by lia.
    apply (first_block_inv _ FB).
  - apply IH in H. destruct H as [k [-> Hk]].
    exists (i + n + k). split; [lia|].
    rewrite skipn_skipn in Hk.
    replace (i + n + k) with (k + (i + n)) by lia.
    replace (b - (p + (k + (i + n)))) with (b - (p + i + n + k)) by lia.
    exact Hk.
Qed.

Lemma inner_no_closer (t : text) (m : Re.match_obj) :
  In m (Re.finditer Checker.SCALADOC_RE t) ->
  no_closer (Re.group_or_empty t m 1).
Proof.
  unfold Re.finditer. rewrite finditer_from_scaladoc. intros H.
  apply in_map_iff in H. destruct H as [[a b] [<- H]].
  apply blocks_from_in in H. destruct H as [k [-> Hk]].
  cbn [fst snd Nat.add] in *.
  unfold Re.group_or_empty, Re.group, block_match.
  cbn [Re.m_caps Re.get_cap Nat.eqb].
  unfold block_len in Hk.
  destruct (Py.startswith (skipn k t) (str "/**")) eqn:E; [|discriminate].
  destruct (startswith_opener _ E) as [s3 Hs3].
  rewrite Hs3 in Hk. cbn [skipn] in Hk.
  destruct (find_close s3) as [i|] eqn:F; [|discriminate].
  injection Hk as Hk.
  unfold Py.slice.
  replace (skipn (k + 3) t) with s3.
  - replace (b - 2 - (k + 3)) with i by lia.
    apply find_close_firstn_none; exact F.
  - replace (k + 3) with (3 + k) by lia.
    rewrite <- skipn_skipn, Hs3. reflexivity.
Qed.

(** ** The whitespace before the opener *)

Lemma star_space_consumes (k : Re.mstate -> option Re.mstate) (fuel : nat) :
  forall st res,
    Re.star_loop true (Re.run Re.Space) k fuel st = Some res ->
    exists consumed st1,
      Re.rest st = consumed ++ Re.rest st1 /\
      Re.pos st1 = Re.pos st + length consumed /\
      all_space consumed /\ k st1 = Some res.
Proof.
  induction fuel as [|f IH]; intros st res H; cbn [Re.star_loop] in H.
  - exists [], st. repeat split; [simpl; lia | constructor | exact H].
  - destruct (Re.run Re.Space st _) as [x|] eqn:E.
    + injection H as ->.
      cbn [Re.run Re.Space] in E.
      destruct (Re.rest st) as [|c tl] eqn:R; [discriminate|].
      destruct (is_space c) eqn:Hc; [|discriminate].
      destruct (Re.pos st <? Re.pos (Re.advance c tl st)); [|discriminate].
      apply IH in E. destruct E as [cs [st1 [H1 [H2 [H3 H4]]]]].
      exists (c :: cs), st1. cbn [Re.advance Re.rest Re.pos] in H1, H2.
      repeat split.
      * rewrite H1. reflexivity.
      * simpl. lia.
      * constructor; assumption.
      * exact H4.
    + exists [], st. repeat split; [simpl; lia | constructor | exact H].
Qed.

Lemma leading_ws_all_space (lp ws : text) :
  Checker.leading_ws_of lp = Some ws -> all_space ws.
Proof.
  unfold Checker.leading_ws_of, Re.rmatch, Re.match_at, Checker.LEADING_WS_RE.
  change (Re.run (Re.Seq Re.Bol (Re.Star true Re.Space))
            (Re.MState 0 None lp []) Some)
    with (Re.star_loop true (Re.run Re.Space) Some (S (length lp))
            (Re.MState 0 None lp [])).
  destruct (Re.star_loop _ _ _ _ _) as [st|] eqn:E; [|discriminate].
  apply star_space_consumes in E.
  destruct E as [cs [st1 [H1 [H2 [H3 H4]]]]]. injection H4 as ->.
  cbn [bind Re.group Re.m_start Re.m_end Re.rest Re.pos] in *.
  intros H. injection H as <-.
  unfold Py.slice. cbn [skipn]. rewrite H2, H1, Nat.sub_0_r.
  replace (0 + length cs) with (length cs + 0) by lia.
  rewrite firstn_app_2. cbn [firstn]. rewrite app_nil_r. exact H3.
Qed.

(** The indentation fixer only ever writes well-closed blocks. *)
Lemma fixer_plan_closed (t : text) (normalize_all : bool) :
  Forall closed_entry (fixer_plan t normalize_all).
Proof.
  unfold fixer_plan. apply Forall_forall. intros e He.
  apply in_map_iff in He. destruct He as [m [<- Hm]].
  unfold closed_entry, fixer_replacement. cbn [snd].
  destruct (Checker.leading_ws_of _) as [ws|] eqn:W; [|exact I].
  repeat match goal with
         | |- match (if ?b then _ else _) with _ => _ end => destruct b
         end; try exact I.
  apply new_block_well_closed.
  - apply calm_spaces, (leading_ws_all_space _ W).
  - apply splitlines_no_closer, inner_no_closer. exact Hm.
Qed.

(** ** What the checker writes *)

(** A line that starts with a star, after whitespace: what follows the star
    is what [STAR_LINE_RE] captures. *)
Lemma star_line_capture (l : text) (m : Re.match_obj) :
  Re.rmatch Checker.STAR_LINE_RE l = Some m ->
  exists ws tl k,
    l = ws ++ "*"%char :: tl /\
    Re.group_or_empty l m 1 = firstn k tl.
Proof.
  unfold Re.rmatch, Re.match_at, Checker.STAR_LINE_RE.
  set (K := fun st1 : Re.mstate =>
              Re.run (Re.Seqs [Re.Chr "*"; Re.Grp 1 (Re.Star true Re.Any);
                               Re.Eol]) st1 Some).
  change (Re.run _ (Re.MState 0 None l []) Some)
    with (Re.star_loop true (Re.run Re.Space) K (S (length l))
            (Re.MState 0 None l [])).
  destruct (Re.star_loop _ _ _ _ _) as [res|] eqn:E; [|discriminate].
  intros H. injection H as <-.
  apply star_space_consumes in E.
  destruct E as [ws [st1 [H1 [H2 [_ H4]]]]].
  cbn [Re.rest Re.pos] in H1, H2.
  unfold K in H4. cbn [Re.Seqs Re.run Re.Chr] in H4.
  destruct (Re.rest st1) as [|c tl] eqn:R; [discriminate|].
  destruct (chr_eqb "*" c) eqn:C; [|discriminate].
  apply chr_eqb_eq in C. subst c.
  apply (@star_loop_continues true (Re.run Re.Any) _ (run_continues Re.Any))
    in H4.
  destruct H4 as [s1 [[cs [Hcs Pcs]] H4]].
  cbn [Re.advance Re.rest Re.pos] in Hcs, Pcs.
  assert (Hres : res = Re.set_cap 1 (S (Re.pos st1)) (Re.pos s1) s1).
  { cbn [Re.advance Re.pos] in H4.
    destruct (Re.rest (Re.set_cap 1 (S (Re.pos st1)) (Re.pos s1) s1))
      as [|d [|d' r]]; try discriminate.
    - injection H4 as <-. reflexivity.
    - destruct (chr_eqb d NL); [|discriminate].
      injection H4 as <-. reflexivity. }
  exists ws, tl, (length cs). split; [exact H1|].
  rewrite Hres. unfold Re.group_or_empty, Re.group.
  cbn [Re.m_caps Re.set_cap Re.caps Re.get_cap Nat.eqb].
  unfold Py.slice. rewrite H1, H2, Pcs.
  replace (S (0 + length ws)) with (length (ws ++ ["*"%char]))
    by (rewrite length_app; simpl; lia).
  replace (ws ++ "*"%char :: tl) with ((ws ++ ["*"%char]) ++ tl)
    by (rewrite <- app_assoc; reflexivity).
  rewrite skipn_app, skipn_all, Nat.sub_diag. cbn [skipn app].
  f_equal. rewrite length_app. cbn [length]. cbn [Nat.add] in H2. lia.
Qed.

Lemma star_suffix_calm (l : text) (m : Re.match_obj) :
  no_closer l ->
  Re.rmatch Checker.STAR_LINE_RE l = Some m ->
  calm (Re.group_or_empty l m 1).
Proof.
  intros Hl Hm. destruct (star_line_capture _ Hm) as [ws [tl [k [El ->]]]].
  rewrite El in Hl. apply no_closer_app_r in Hl.
  apply no_closer_cons in Hl. destruct Hl as [Hc Htl].
  split; [apply no_closer_firstn; exact Htl|].
  rewrite startswith_closer in Hc.
  destruct k; [exact I|]. destruct tl as [|d tl]; [exact I|].
  cbn [firstn no_slash_head]. exact Hc.
Qed.

Lemma rstrip_firstn (s : text) : exists k, Py.rstrip s = firstn k s.
Proof.
  unfold Py.rstrip. destruct (lstrip_skipn (rev s)) as [k ->].
  exists (length s - k). rewrite skipn_rev, rev_involutive. reflexivity.
Qed.

Lemma no_closer_strip (s : text) : no_closer s -> no_closer (Py.strip s).
Proof.
  intros H. unfold Py.strip.
  destruct (rstrip_firstn (Py.lstrip s)) as [k ->].
  apply no_closer_firstn, no_closer_lstrip, H.
Qed.

Lemma star_then_space_calm (ws c : text) :
  calm ws -> no_closer c -> calm (ws ++ str " * " ++ c).
Proof.
  intros Hws Hc. apply calm_app; [exact Hws|].
  change (str " * " ++ c) with (str " *" ++ SP :: c).
  apply calm_app; [exact calm_star | apply calm_space_then; exact Hc].
Qed.

Lemma preserved_line_calm (ws l : text) :
  calm ws -> no_closer l ->
  calm (Checker.emit_preserved ws (Checker.preserve_line l)).
Proof.
  intros Hws Hl. unfold Checker.preserve_line.
  destruct (Re.rmatch Checker.STAR_LINE_RE l) as [m|] eqn:E.
  - pose proof (star_suffix_calm Hl E) as Hs.
    destruct (text_eqb (Re.group_or_empty l m 1) []) eqn:T;
      cbn [Checker.emit_preserved].
    + change (text_eqb [] []) with true. cbv iota.
      apply calm_app; [exact Hws | exact calm_star].
    + rewrite T. apply calm_app; [exact Hws|].
      apply calm_app; [exact calm_star | exact Hs].
  - cbn [Checker.emit_preserved].
    apply star_then_space_calm; [exact Hws | apply no_closer_strip; exact Hl].
Qed.

Lemma new_full_parts_well_closed (ws block : text) (ins : list text) :
  calm ws -> no_closer block -> Forall no_closer ins ->
  well_closed
    (Py.join [NL]
       ([str "/**"]
        ++ map (Checker.emit_preserved ws)
             (map Checker.preserve_line (Py.splitlines block))
        ++ map (fun ln => ws ++ str " * " ++ ln) ins
        ++ [ws ++ str " */"])) = true.
Proof.
  intros Hws Hb Hi.
  set (bp := map (Checker.emit_preserved ws)
               (map Checker.preserve_line (Py.splitlines block))
             ++ map (fun ln => ws ++ str " * " ++ ln) ins).
  assert (Hbp : Forall calm bp).
  { unfold bp. apply Forall_app. split.
    - rewrite map_map. apply Forall_map.
      eapply Forall_impl; [|apply splitlines_no_closer; exact Hb].
      intros l Hl. apply preserved_line_calm; assumption.
    - apply Forall_map. eapply Forall_impl; [|exact Hi].
      intros ln Hln. apply star_then_space_calm; assumption. }
  rewrite app_assoc with (n := [ws ++ str " */"]).
  change (well_closed (Py.join [NL] (str "/**" :: bp ++ [ws ++ str " */"]))
          = true).
  rewrite join_cons by (destruct bp; discriminate).
  rewrite join_body.
  change ([NL] ++ block_body ws bp ++ str "*/")
    with ((NL :: block_body ws bp) ++ str "*/").
  apply opener_body_well_closed.
  apply (calm_app calm_nl (block_body_calm Hws Hbp)).
Qed.

Lemma new_full_well_closed (t : text) (start : nat) (block : text)
  (ins : list text) (nf : text) :
  no_closer block -> Forall no_closer ins ->
  Checker.new_full t start block ins = Some nf ->
  well_closed nf = true.
Proof.
  intros Hb Hi. unfold Checker.new_full.
  destruct (Checker.leading_ws_of _) as [ws|] eqn:W; [|discriminate].
  intros H. injection H as <-.
  apply new_full_parts_well_closed; try assumption.
  apply calm_spaces, (leading_ws_all_space _ W).
Qed.

(** The checker writes well-closed blocks when the lines it inserts hold no
    closer. *)
Lemma checker_plan_closed (t : text) (fix_ : bool) :
  Forall (fun m => Forall no_closer (inserted_lines t fix_ m))
         (Re.finditer Checker.SCALADOC_RE t) ->
  Forall closed_entry (checker_plan t fix_).
Proof.
  intros H. unfold checker_plan. rewrite Forall_forall in H.
  apply Forall_forall. intros e He.
  apply in_map_iff in He. destruct He as [m [<- Hm]].
  specialize (H m Hm).
  unfold closed_entry, checker_replacement, inserted_lines in *. cbn [snd].
  destruct (Checker.parse_declaration _) as [d|]; [|exact I].
  destruct fix_; [|exact I]. cbn [andb].
  destruct (nonempty _); [|exact I].
  destruct (Checker.new_full _ _ _ _) as [nf|] eqn:N; [|exact I].
  exact (@new_full_well_closed _ _ _ _ _ (@inner_no_closer t m Hm) H N).
Qed.

(** ** Lines that start with a star *)

Lemma last_chr_cons (pv : option ascii) (w : ascii) (ws : text) :
  Re.last_chr pv (w :: ws) = Re.last_chr (Some w) ws.
Proof.
  unfold Re.last_chr. cbn [rev].
  destruct (rev ws) as [|x r]; reflexivity.
Qed.

Lemma run_space_cons (pos : nat) (pv : option ascii) (c : ascii) (tl : text)
  (caps : list (nat * (nat * nat))) (k : Re.mstate -> option Re.mstate) :
  Re.run Re.Space (Re.MState pos pv (c :: tl) caps) k
  = if is_space c then k (Re.MState (S pos) (Some c) tl caps) else None.
Proof. reflexivity. Qed.

(** A greedy run over whitespace that is followed by another character
    takes all of it, when the rest of the pattern matches there. *)
Lemma star_space_greedy (k : Re.mstate -> option Re.mstate)
  (c : ascii) (tl : text) (caps : list (nat * (nat * nat)))
  (res : Re.mstate) (ws : text) :
  is_space c = false ->
  all_space ws ->
  forall fuel pos pv,
    length ws < fuel ->
    k (Re.MState (pos + length ws) (Re.last_chr pv ws) (c :: tl) caps)
    = Some res ->
    Re.star_loop true (Re.run Re.Space) k fuel
      (Re.MState pos pv (ws ++ c :: tl) caps) = Some res.
Proof.
  intros Hc. induction 1 as [|w ws Hw _ IH]; intros fuel pos pv Hf Hk;
    (destruct fuel as [|f]; [simpl in Hf; lia|]); cbn [Re.star_loop].
  - cbn [app]. rewrite run_space_cons, Hc.
    cbn [length] in Hk. rewrite Nat.add_0_r in Hk. exact Hk.
  - cbn [app]. rewrite run_space_cons, Hw. cbn [Re.pos].
    replace (pos <? S pos) with true by (symmetry; apply Nat.ltb_lt; lia).
    rewrite (IH f (S pos) (Some w)); [reflexivity | simpl in Hf; lia|].
    rewrite <- (last_chr_cons pv). cbn [length] in Hk.
    replace (S pos + length ws) with (pos + S (length ws)) by lia.
    exact Hk.
Qed.

Lemma star_prefix_sound (l : text) (m : Re.match_obj) :
  Re.rmatch IndentFixer.STAR_PREFIX_RE l = Some m ->
  star_after (Re.group_or_empty l m 1) l.
Proof.
  unfold Re.rmatch, Re.match_at, IndentFixer.STAR_PREFIX_RE.
  set (K := fun s1 : Re.mstate =>
              Re.run (Re.Chr "*") (Re.set_cap 1 0 (Re.pos s1) s1) Some).
  change (Re.run _ (Re.MState 0 None l []) Some)
    with (Re.star_loop true (Re.run Re.Space) K (S (length l))
            (Re.MState 0 None l [])).
  destruct (Re.star_loop _ _ _ _ _) as [res|] eqn:E; [|discriminate].
  intros H. injection H as <-.
  apply star_space_consumes in E.
  destruct E as [ws [st1 [H1 [H2 [H3 H4]]]]].
  cbn [Re.rest Re.pos] in H1, H2.
  unfold K in H4. cbn [Re.run Re.Chr Re.set_cap Re.rest] in H4.
  destruct (Re.rest st1) as [|c tl] eqn:R; [discriminate|].
  destruct (chr_eqb "*" c) eqn:C; [|discriminate].
  apply chr_eqb_eq in C. subst c. injection H4 as <-.
  unfold Re.group_or_empty, Re.group.
  cbn [Re.m_caps Re.advance Re.caps Re.set_cap Re.get_cap Nat.eqb].
  unfold Py.slice. cbn [skipn]. rewrite H2, H1.
  replace (0 + length ws - 0) with (length ws + 0) by lia.
  rewrite firstn_app_2. cbn [firstn]. rewrite app_nil_r.
  split; [exact H3 | exists tl; reflexivity].
Qed.

Lemma star_prefix_complete (ws l : text) :
  star_after ws l ->
  exists m, Re.rmatch IndentFixer.STAR_PREFIX_RE l = Some m /\
            Re.group_or_empty l m 1 = ws.
Proof.
  intros [Hws [tl ->]].
  unfold Re.rmatch, Re.match_at, IndentFixer.STAR_PREFIX_RE.
  set (K := fun s1 : Re.mstate =>
              Re.run (Re.Chr "*") (Re.set_cap 1 0 (Re.pos s1) s1) Some).
  change (Re.run _ (Re.MState 0 None (ws ++ "*"%char :: tl) []) Some)
    with (Re.star_loop true (Re.run Re.Space) K
            (S (length (ws ++ "*"%char :: tl)))
            (Re.MState 0 None (ws ++ "*"%char :: tl) [])).
  erewrite star_space_greedy; [| reflexivity | exact Hws | | reflexivity].
  - eexists. split; [reflexivity|].
    unfold Re.group_or_empty, Re.group.
    cbn [Re.m_caps Re.pos Re.caps Re.advance Re.set_cap Re.get_cap Nat.eqb].
    unfold Py.slice. cbn [skipn Nat.add]. rewrite Nat.sub_0_r.
    replace (length ws) with (length ws + 0) by lia.
    rewrite firstn_app_2. cbn [firstn]. apply app_nil_r.
  - rewrite length_app. simpl. lia.
Qed.

Lemma star_prefixes_spec (lines : list text) (p : text) :
  In p (IndentFixer.star_prefixes lines) <->
  exists l, In l lines /\ star_after p l.
Proof.
  induction lines as [|l ls IH]; cbn [IndentFixer.star_prefixes].
  - split; [intros [] | intros [l [[] _]]].
  - destruct (Re.rmatch IndentFixer.STAR_PREFIX_RE l) as [m|] eqn:E.
    + cbn [In]. rewrite IH. split.
      * intros [<-|[l' [Hl' Hs]]].
        -- exists l. split; [left; reflexivity | apply star_prefix_sound, E].
        -- exists l'. split; [right; exact Hl' | exact Hs].
      * intros [l' [[<-|Hl'] Hs]].
        -- left. destruct (star_prefix_complete Hs) as [m' [E' <-]].
           rewrite E in E'. injection E' as <-. reflexivity.
        -- right. exists l'. auto.
    + rewrite IH. split.
      * intros [l' [Hl' Hs]]. exists l'. split; [right; exact Hl' | exact Hs].
      * intros [l' [[<-|Hl'] Hs]].
        -- destruct (star_prefix_complete Hs) as [m' [E' _]]. congruence.
        -- exists l'. auto.
Qed.

Lemma aligned_on_opener_spec (t : text) (m : Re.match_obj) :
  aligned_on_opener t m = true <-> continuation_aligned t m.
Proof.
  unfold aligned_on_opener, continuation_aligned.
  destruct (Checker.leading_ws_of _) as [ws|];
    [|split; [discriminate | intros [ws0 [H _]]; discriminate]].
  set (lines := Py.splitlines (Re.group_or_empty t m 1)).
  rewrite andb_true_iff, forallb_forall. split.
  - intros [Hne Hall]. exists ws. split; [reflexivity|]. split.
    + destruct (IndentFixer.star_prefixes lines) as [|p ps] eqn:E;
        [discriminate|].
      pose proof (Hall p (or_introl eq_refl)) as Hpw.
      apply text_eqb_spec in Hpw. subst p.
      apply star_prefixes_spec. rewrite E. left; reflexivity.
    + intros l p Hl Hs. apply text_eqb_spec, Hall, star_prefixes_spec.
      exists l. auto.
  - intros [ws0 [E [[l [Hl Hs]] Hall]]]. injection E as <-. split.
    + assert (Hp : In ws (IndentFixer.star_prefixes lines))
        by (apply star_prefixes_spec; exists l; auto).
      destruct (IndentFixer.star_prefixes lines); [destruct Hp | reflexivity].
    + intros p Hp. apply text_eqb_spec.
      apply star_prefixes_spec in Hp. destruct Hp as [l' [Hl' Hs']].
      exact (Hall l' p Hl' Hs').
Qed.

(** ** Text that needs no re-indentation *)

Lemma need_rewrite_aligned (ws : text) (inner_lines : list text) :
  (nonempty (IndentFixer.star_prefixes inner_lines)
   && forallb (fun p => text_eqb p ws)
        (IndentFixer.star_prefixes inner_lines))%bool = true ->
  IndentFixer.need_rewrite false ws inner_lines = false.
Proof.
  unfold IndentFixer.need_rewrite. intros H.
  apply andb_true_iff in H. destruct H as [Hne Hall].
  destruct (IndentFixer.star_prefixes inner_lines) as [|p ps]; [discriminate|].
  cbn [orb length Nat.eqb].
  apply not_true_is_false. intros Hex.
  apply existsb_exists in Hex. destruct Hex as [q [Hq Hneq]].
  rewrite forallb_forall in Hall. rewrite (Hall q Hq) in Hneq. discriminate.
Qed.

Lemma fix_block_skips (t : text) (st : IndentFixer.loop_state)
  (m : Re.match_obj) :
  (multi_line t m = true -> aligned_on_opener t m = true) ->
  IndentFixer.fix_block t false st m = Some st.
Proof.
  unfold multi_line, aligned_on_opener, IndentFixer.fix_block. intros H.
  destruct (leading_ws_total (Checker.line_prefix t (Re.m_start m)))
    as [ws Hws].
  rewrite Hws in *. cbn [bind].
  destruct (Py.contains (Py.slice t (Re.m_start m) (Re.m_end m)) [NL]);
    [|reflexivity].
  cbn [negb andb]. rewrite (need_rewrite_aligned _ _ (H eq_refl)).
  reflexivity.
Qed.

Lemma fix_loop_skips (t : text) (ms : list Re.match_obj)
  (st : IndentFixer.loop_state) :
  Forall (fun m => multi_line t m = true -> aligned_on_opener t m = true) ms ->
  IndentFixer.fix_loop t false st ms = Some st.
Proof.
  induction 1 as [|m ms Hm _ IH]; simpl; [reflexivity|].
  rewrite (fix_block_skips t st m Hm). exact IH.
Qed.

(** When every documentation block of a text that spans several lines
    has its continuation lines aligned on its opener (some line
    starts, after whitespace, with a star, and on every such line the
    whitespace before the star is the whitespace before the opener),
    [analyze_and_fix_text] without [normalize_all] returns the text itself
    and no change. *)
Theorem aligned_text_is_returned_unchanged :
  forall t : text,
    Forall (fun m => multi_line t m = true -> continuation_aligned t m)
           (Re.finditer IndentFixer.SCALADOC_RE t) ->
    IndentFixer.analyze_and_fix_text t false = Some (t, []).
Proof.
  intros t H. unfold IndentFixer.analyze_and_fix_text.
  rewrite (@fix_loop_skips t _ (IndentFixer.LoopState t 0%Z [])).
  - reflexivity.
  - eapply Forall_impl; [|exact H].
    intros m Hm Hml. apply aligned_on_opener_spec, Hm, Hml.
Qed.

Lemma aligned_text_is_returned_unchanged_witness :
  Forall (fun m => multi_line C2_text m = true ->
                   continuation_aligned C2_text m)
         (Re.finditer IndentFixer.SCALADOC_RE C2_text) /\
  existsb (multi_line C2_text) (Re.finditer IndentFixer.SCALADOC_RE C2_text)
  = true /\
  IndentFixer.analyze_and_fix_text C2_text false = Some (C2_text, []).
Proof.
  assert (H : Forall (fun m => multi_line C2_text m = true ->
                               continuation_aligned C2_text m)
                (Re.finditer IndentFixer.SCALADOC_RE C2_text)).
  { assert (E : Re.finditer IndentFixer.SCALADOC_RE C2_text
                = [Re.Match 13 55 [(1, (16, 53))]])
      by (vm_compute; reflexivity).
    rewrite E. constructor; [|constructor].
    intros _. apply aligned_on_opener_spec. vm_compute. reflexivity. }
  split; [exact H|]. split; [vm_compute; reflexivity|].
  exact (@aligned_text_is_returned_unchanged C2_text H).
Defined.


(** ** Splicing with a running offset *)

(** C5, as amended: both tools come to the end of their loop over the
    blocks of any text, and there the running buffer is the original text
    with every block of the plan replaced and every other region kept, the
    running offset is the sum of replacement length minus original length
    over the plan, and each round is the splice at the span shifted by the
    offset reached so far.  A second scan of the buffer finds exactly the
    blocks of the plan, each at its start shifted by the replacements before
    it and with the text the plan gives it: always for the indentation
    fixer, and for the checker when no line that it inserts holds a
    closer. *)
Theorem C5_replacements_spliced_with_running_offset :
  forall t : text,
    (forall fix_ : bool,
        exists st,
          Checker.analyze_loop t fix_ (Checker.LoopState t 0%Z [])
            (Re.finditer Checker.SCALADOC_RE t) = Some st /\
          (Checker.new_text st, Checker.offset st)
          = run_plan t (checker_plan t fix_) /\
          Checker.new_text st = spliced t 0 (checker_plan t fix_) /\
          Checker.offset st = total_shift (checker_plan t fix_) /\
          (Forall (fun m => Forall no_closer (inserted_lines t fix_ m))
                  (Re.finditer Checker.SCALADOC_RE t) ->
           rescan (Checker.new_text st)
           = expected_blocks t 0 (checker_plan t fix_))) /\
    (forall normalize_all : bool,
        exists st,
          IndentFixer.fix_loop t normalize_all (IndentFixer.LoopState t 0%Z [])
            (Re.finditer IndentFixer.SCALADOC_RE t) = Some st /\
          (IndentFixer.new_text st, IndentFixer.offset st)
          = run_plan t (fixer_plan t normalize_all) /\
          IndentFixer.new_text st = spliced t 0 (fixer_plan t normalize_all) /\
          IndentFixer.offset st = total_shift (fixer_plan t normalize_all) /\
          rescan (IndentFixer.new_text st)
          = expected_blocks t 0 (fixer_plan t normalize_all)).
Proof.
  intros t. split.
  - intros fix_.
    destruct (analyze_loop_total t fix_ (Re.finditer Checker.SCALADOC_RE t)
                (Checker.LoopState t 0%Z [])) as [st Hst].
    exists st. split; [exact Hst|].
    pose proof (analyze_loop_plan _ _ _ _ Hst) as Hrun.
    cbn [Checker.new_text Checker.offset] in Hrun.
    destruct (plan_pass t (checker_replacement t fix_)) as [Hsp Hre].
    fold (checker_plan t fix_) in Hrun, Hsp, Hre.
    unfold run_plan in Hsp |- *. rewrite Hsp in Hrun.
    injection Hrun as Hn Ho.
    split; [rewrite Hn, Ho, Hsp; reflexivity|].
    split; [exact Hn|]. split; [exact Ho|].
    intros Hc. rewrite Hn. apply Hre, checker_plan_closed; exact Hc.
  - intros normalize_all.
    pose proof (fixer_plan_closed t normalize_all) as Hc.
    unfold fixer_plan, IndentFixer.SCALADOC_RE in Hc |- *.
    destruct (fix_loop_plan t normalize_all
                (Re.finditer Checker.SCALADOC_RE t)
                (IndentFixer.LoopState t 0%Z [])) as [st [Hst Hrun]].
    exists st. split; [exact Hst|].
    cbn [IndentFixer.new_text IndentFixer.offset] in Hrun.
    destruct (plan_pass t (fixer_replacement t normalize_all)) as [Hsp Hre].
    unfold run_plan in Hsp |- *. rewrite Hsp in Hrun.
    injection Hrun as Hn Ho.
    split; [rewrite Hn, Ho, Hsp; reflexivity|].
    split; [exact Hn|]. split; [exact Ho|].
    rewrite Hn. apply Hre; exact Hc.
Qed.

Lemma C5_replacements_spliced_with_running_offset_witness :
  Forall (fun m => Forall no_closer (inserted_lines C9_file true m))
         (Re.finditer Checker.SCALADOC_RE C9_file) /\
  exists st,
    Checker.analyze_loop C9_file true (Checker.LoopState C9_file 0%Z [])
      (Re.finditer Checker.SCALADOC_RE C9_file) = Some st /\
    rescan (Checker.new_text st)
    = expected_blocks C9_file 0 (checker_plan C9_file true).
Proof.
  assert (Hc : Forall (fun m => Forall no_closer (inserted_lines C9_file true m))
                 (Re.finditer Checker.SCALADOC_RE C9_file)).
  { assert (E : Re.finditer Checker.SCALADOC_RE C9_file
                = [Re.Match 0 16 [(1, (3, 14))]])
      by (vm_compute; reflexivity).
    rewrite E. constructor; [|constructor].
    assert (I : inserted_lines C9_file true (Re.Match 0 16 [(1, (3, 14))])
                = [str "@param x TODO FILL IN PARAM";
                   str "@return TODO FILL IN RETURN"])
      by (vm_compute; reflexivity).
    rewrite I. repeat constructor. }
  split; [exact Hc|].
  destruct (proj1 (C5_replacements_spliced_with_running_offset C9_file) true)
    as [st [H1 [_ [_ [_ H5]]]]].
  exists st. split; [exact H1 | exact (H5 Hc)].
Defined.

(** C5, as stated, fails: the checker run with [fix] on [C5_text] inserts
    the type parameter name [A /* x */] into the block, and a second scan
    of the written text finds a block that ends at the closer inside that
    name, at offset 32, where the replacement ends at offset 118. *)
Lemma C5_rescan_stops_at_inserted_closer :
  exists st,
    Checker.analyze_loop C5_text true (Checker.LoopState C5_text 0%Z [])
      (Re.finditer Checker.SCALADOC_RE C5_text) = Some st /\
    map (fun b => snd (fst b)) (rescan (Checker.new_text st)) = [32] /\
    map (fun b => snd (fst b))
        (expected_blocks C5_text 0 (checker_plan C5_text true)) = [118] /\
    rescan (Checker.new_text st)
    <> expected_blocks C5_text 0 (checker_plan C5_text true).
Proof.
  destruct (analyze_loop_total C5_text true
              (Re.finditer Checker.SCALADOC_RE C5_text)
              (Checker.LoopState C5_text 0%Z [])) as [st Hst].
  exists st. split; [exact Hst|].
  vm_compute in Hst. injection Hst as <-.
  split; [vm_compute; reflexivity|].
  split; [vm_compute; reflexivity|].
  intros H. vm_compute in H. discriminate.
Qed.

(** * Further properties *)

(** ** More on lists *)

Lemma firstn_length_app {A : Type} (a b : list A) :
  firstn (length a) (a ++ b) = a.
Proof. induction a as [|x a IH]; cbn; [destruct b|]; congruence. Qed.

(** ** The blocks that the checker extracts *)

Lemma extract_blocks_from (t : text) :
  Checker.extract_scaladoc_blocks t
  = map (fun ab => (fst ab, snd ab, Py.slice t (fst ab + 3) (snd ab - 2)))
        (blocks_from (S (length t)) 0 t).
Proof.
  unfold Checker.extract_scaladoc_blocks, Re.finditer.
  rewrite finditer_from_scaladoc, map_map. reflexivity.
Qed.

Lemma block_len_text (s : text) (n : nat) :
  block_len s = Some n ->
  exists x, firstn n s = str "/**" ++ x ++ str "*/" /\
            no_closer x /\ length x = n - 5 /\
            firstn (n - 5) (skipn 3 s) = x.
Proof.
  intros H. unfold block_len in H.
  destruct (Py.startswith s (str "/**")) eqn:E; [|discriminate].
  destruct (startswith_opener _ E) as [s3 ->]. cbn [skipn] in H |- *.
  destruct (find_close s3) as [i|] eqn:F; [|discriminate].
  injection H as <-.
  destruct (find_close_split _ F) as [x [z [-> Hx]]].
  exists x.
  assert (Hf : firstn i (x ++ "*"%char :: "/"%char :: z) = x).
  { rewrite <- Hx. apply firstn_length_app. }
  replace (i + 5 - 5) with i by lia.
  split; [|split; [|split; [exact Hx | exact Hf]]].
  - replace ("/"%char :: "*"%char :: "*"%char :: x ++ "*"%char :: "/"%char :: z)
      with ((str "/**" ++ x ++ str "*/") ++ z)
      by (cbn [str list_ascii_of_string app]; rewrite <- app_assoc;
          reflexivity).
    replace (i + 5) with (length (str "/**" ++ x ++ str "*/"))
      by (rewrite !length_app; cbn [str list_ascii_of_string length]; lia).
    apply firstn_length_app.
  - rewrite <- Hf. apply find_close_firstn_none; exact F.
Qed.

(** X1: every block returned by [extract_scaladoc_blocks] lies inside
    the text, and the text of its span is the opener, the returned content,
    and the closer; the content holds no closer, so a block ends at the
    first closer after its opener. *)
Theorem extracted_block_shape :
  forall (t : text) (s e : nat) (c : text),
    In (s, e, c) (Checker.extract_scaladoc_blocks t) ->
    e <= length t /\
    Py.slice t s e = str "/**" ++ c ++ str "*/" /\
    no_closer c.
Proof.
  intros t s e c H. rewrite extract_blocks_from in H.
  apply in_map_iff in H. destruct H as [[a b] [E H]].
  cbn [fst snd] in E. injection E as <- <- <-.
  pose proof H as Hin.
  apply blocks_from_in in H. destruct H as [k [-> Hk]]. cbn [Nat.add] in *.
  destruct (block_len_bound _ Hk) as [H5 Hn].
  rewrite length_skipn in Hn.
  destruct (block_len_text _ Hk) as [x [Hx [Hnc [Hlen Hfx]]]].
  assert (Hc : Py.slice t (k + 3) (b - 2) = x).
  { unfold Py.slice. rewrite <- Hfx, skipn_skipn.
    replace (3 + k) with (k + 3) by lia.
    replace (b - 2 - (k + 3)) with (b - k - 5) by lia. reflexivity. }
  rewrite Hc. split; [lia|]. split; [exact Hx | exact Hnc].
Qed.

Lemma extracted_block_shape_witness :
  In (13, 55, Py.slice X_text 16 53) (Checker.extract_scaladoc_blocks X_text) /\
  55 <= length X_text /\
  Py.slice X_text 13 55 = str "/**" ++ Py.slice X_text 16 53 ++ str "*/" /\
  no_closer (Py.slice X_text 16 53).
Proof.
  assert (H : In (13, 55, Py.slice X_text 16 53)
                (Checker.extract_scaladoc_blocks X_text))
    by (vm_compute; left; reflexivity).
  split; [exact H | exact (@extracted_block_shape X_text 13 55 _ H)].
Defined.

Lemma blocks_from_ok (t : text) (fuel : nat) :
  forall p s,
    blocks_ok p (p + length s)
      (map (fun ab => (fst ab, snd ab, Py.slice t (fst ab + 3) (snd ab - 2)))
           (blocks_from fuel p s)).
Proof.
  induction fuel as [|f IH]; intros p s; [exact I|].
  cbn [blocks_from].
  destruct (first_block s) as [[i n]|] eqn:FB; [|exact I].
  destruct (first_block_bound _ FB) as [H5 Hn].
  cbn [map blocks_ok fst snd].
  split; [lia|]. split; [lia|]. split; [lia|].
  specialize (IH (p + i + n) (skipn (i + n) s)).
  rewrite length_skipn in IH.
  replace (p + i + n + (length s - (i + n))) with (p + length s) in IH by lia.
  exact IH.
Qed.

(** X2: the blocks returned by [extract_scaladoc_blocks] are in source
    order and do not overlap. *)
Theorem extracted_blocks_in_order :
  forall t : text,
    blocks_ok 0 (length t) (Checker.extract_scaladoc_blocks t).
Proof.
  intros t. rewrite extract_blocks_from.
  exact (blocks_from_ok t (S (length t)) 0 t).
Qed.

Lemma first_block_no_closer (s : text) :
  no_closer s -> first_block s = None.
Proof.
  induction s as [|c s IH]; intros H.
  - reflexivity.
  - cbn [first_block].
    assert (Hb : block_len (c :: s) = None).
    { unfold block_len. destruct (Py.startswith (c :: s) (str "/**"));
        [|reflexivity].
      rewrite (no_closer_skipn 3 H). reflexivity. }
    rewrite Hb. apply no_closer_cons in H. rewrite (IH (proj2 H)).
    reflexivity.
Qed.

Lemma first_block_no_opener (s : text) :
  Py.contains s (str "/**") = false -> first_block s = None.
Proof.
  induction s as [|c s IH]; intros H.
  - reflexivity.
  - cbn [Py.contains] in H. apply orb_false_iff in H. destruct H as [H1 H2].
    cbn [first_block]. unfold block_len. rewrite H1, (IH H2). reflexivity.
Qed.

Lemma finditer_no_block (t : text) :
  no_closer t \/ Py.contains t (str "/**") = false ->
  Re.finditer Checker.SCALADOC_RE t = [].
Proof.
  intros H. unfold Re.finditer. rewrite finditer_from_scaladoc.
  cbn [blocks_from].
  assert (E : first_block t = None)
    by (destruct H; [apply first_block_no_closer
                    | apply first_block_no_opener]; assumption).
  rewrite E. reflexivity.
Qed.

(** X3: a text with no closer, such as a file that ends inside a
    documentation comment, or with no opener, has no block: the checker
    returns an empty report and writes nothing, and the indentation fixer
    returns the text with no change. *)
Theorem text_without_block_is_left_alone :
  forall t : text,
    no_closer t \/ Py.contains t (str "/**") = false ->
    Checker.extract_scaladoc_blocks t = [] /\
    (forall fix_ : bool,
        Checker.analyze_file t fix_ = Some (Checker.Outcome [] None)) /\
    (forall normalize_all : bool,
        IndentFixer.analyze_and_fix_text t normalize_all = Some (t, [])).
Proof.
  intros t H. pose proof (finditer_no_block H) as E.
  split; [|split].
  - unfold Checker.extract_scaladoc_blocks. rewrite E. reflexivity.
  - intros fix_. unfold Checker.analyze_file. rewrite E.
    cbn [Checker.analyze_loop bind Checker.results Checker.new_text].
    rewrite text_eqb_refl. cbn [negb]. rewrite andb_false_r. reflexivity.
  - intros n. unfold IndentFixer.analyze_and_fix_text,
      IndentFixer.SCALADOC_RE. rewrite E. reflexivity.
Qed.

Lemma text_without_block_is_left_alone_witness :
  (no_closer (str "/** Never closed.
def f: Int = 1") \/
   Py.contains (str "/** Never closed.
def f: Int = 1") (str "/**") = false) /\
  Checker.analyze_file (str "/** Never closed.
def f: Int = 1") true = Some (Checker.Outcome [] None).
Proof.
  assert (H : no_closer (str "/** Never closed.
def f: Int = 1") \/
   Py.contains (str "/** Never closed.
def f: Int = 1") (str "/**") = false) by (left; vm_compute; reflexivity).
  split; [exact H|].
  exact (proj1 (proj2 (@text_without_block_is_left_alone _ H)) true).
Defined.

(** ** Tags are only read on star lines *)

Lemma run_seq_chr (c : ascii) (b : Re.re) (st : Re.mstate)
  (k : Re.mstate -> option Re.mstate) (res : Re.mstate) :
  Re.run (Re.Seq (Re.Chr c) b) st k = Some res -> In c (Re.rest st).
Proof.
  cbn [Re.run Re.Chr]. destruct (Re.rest st) as [|d tl]; [discriminate|].
  destruct (chr_eqb c d) eqn:E; [|discriminate].
  intros _. left. symmetry. apply chr_eqb_eq; exact E.
Qed.

Lemma reaches_in (c : ascii) (s0 s1 : Re.mstate) :
  reaches s0 s1 -> In c (Re.rest s1) -> In c (Re.rest s0).
Proof.
  intros [consumed [E _]] H. rewrite E. apply in_or_app; right; exact H.
Qed.

Lemma tag_match_needs_star_and_at (st res : Re.mstate) :
  Re.run Checker.TAG_RE st Some = Some res ->
  In "*"%char (Re.rest st) /\ In "@"%char (Re.rest st).
Proof.
  unfold Checker.TAG_RE. cbn [Re.Seqs]. intros H.
  change (Re.run (Re.Seq ?a ?b) ?s ?k)
    with (Re.run a s (fun s1 => Re.run b s1 k)) in H.
  apply run_continues in H. destruct H as [st1 [R1 H]].
  change (Re.run (Re.Seq ?a ?b) ?s ?k)
    with (Re.run a s (fun s1 => Re.run b s1 k)) in H.
  apply run_continues in H. destruct H as [st2 [R2 H]].
  pose proof (run_seq_chr _ _ _ _ H) as Hstar.
  change (Re.run (Re.Seq ?a ?b) ?s ?k)
    with (Re.run a s (fun s1 => Re.run b s1 k)) in H.
  apply run_continues in H. destruct H as [st3 [R3 H]].
  change (Re.run (Re.Seq ?a ?b) ?s ?k)
    with (Re.run a s (fun s1 => Re.run b s1 k)) in H.
  apply run_continues in H. destruct H as [st4 [R4 H]].
  pose proof (run_seq_chr _ _ _ _ H) as Hat.
  split.
  - apply (@reaches_in _ _ _ R1), (@reaches_in _ _ _ R2). exact Hstar.
  - apply (@reaches_in _ _ _ R1), (@reaches_in _ _ _ R2),
      (@reaches_in _ _ _ R3), (@reaches_in _ _ _ R4).
    exact Hat.
Qed.

Lemma search_tag_none (s : text) :
  ~ In "*"%char s \/ ~ In "@"%char s ->
  forall p pv, Re.search_from Checker.TAG_RE p pv s = None.
Proof.
  induction s as [|c s IH]; intros H p pv.
  - cbn [Re.search_from]. unfold Re.match_at.
    destruct (Re.run Checker.TAG_RE (Re.MState p pv [] []) Some) eqn:E;
      [|reflexivity].
    apply tag_match_needs_star_and_at in E. cbn [Re.rest] in E.
    destruct E as [[] _].
  - cbn [Re.search_from]. unfold Re.match_at.
    destruct (Re.run Checker.TAG_RE (Re.MState p pv (c :: s) []) Some) eqn:E.
    + apply tag_match_needs_star_and_at in E. cbn [Re.rest] in E. tauto.
    + apply IH. destruct H as [H|H]; [left|right];
        intros F; apply H; right; exact F.
Qed.

(** X4: [extract_tags] reads a tag only after a star: in a block that
    holds no star, such as the content of a one-line comment, or no at
    sign, it finds no [@param], [@tparam] or [@return] tag. *)
Theorem tags_need_a_star_line :
  forall block : text,
    ~ In "*"%char block \/ ~ In "@"%char block ->
    Checker.extract_tags block = Checker.Tags [] [] [].
Proof.
  intros block H. unfold Checker.extract_tags, Re.finditer.
  cbn [Re.finditer_from]. rewrite (@search_tag_none block H). reflexivity.
Qed.

Lemma tags_need_a_star_line_witness :
  (~ In "*"%char (str " @return the sum ") \/
   ~ In "@"%char (str " @return the sum ")) /\
  Checker.extract_tags (str " @return the sum ") = Checker.Tags [] [] [].
Proof.
  assert (H : ~ In "*"%char (str " @return the sum ") \/
              ~ In "@"%char (str " @return the sum ")).
  { left. cbn. intros F.
    repeat (destruct F as [F|F]; [discriminate F|]). exact F. }
  split; [exact H | exact (@tags_need_a_star_line _ H)].
Defined.

(** ** The chunk after a block *)

Lemma splitlines_aux_no_break (n : nat) :
  forall s cur,
    length s <= n ->
    Forall (fun c => is_linebreak c = false) cur ->
    Forall (Forall (fun c => is_linebreak c = false)) (Py.splitlines_aux cur s).
Proof.
  induction n as [|n IH]; intros s cur Hn H.
  - destruct s; [|simpl in Hn; lia]. cbn [Py.splitlines_aux].
    destruct cur; constructor; [apply Forall_rev; exact H | constructor].
  - destruct s as [|c s]; cbn [Py.splitlines_aux].
    + destruct cur; constructor; [apply Forall_rev; exact H | constructor].
    + simpl in Hn. destruct (is_linebreak c) eqn:E.
      * constructor; [apply Forall_rev; exact H|].
        destruct s as [|d s']; [apply IH; [simpl; lia | constructor]|].
        destruct (chr_eqb c CR && chr_eqb d NL)%bool.
        -- apply IH; [simpl in Hn; lia | constructor].
        -- apply IH; [simpl in Hn |- *; lia | constructor].
      * apply IH; [lia|]. constructor; assumption.
Qed.

Lemma splitlines_no_newline (s : text) :
  Forall (fun l => ~ In NL l) (Py.splitlines s).
Proof.
  pose proof (@splitlines_aux_no_break (length s) s [] (le_n _) (Forall_nil _))
    as H.
  eapply Forall_impl; [|exact H]. cbn. intros l Hl F.
  rewrite Forall_forall in Hl. specialize (Hl _ F). discriminate Hl.
Qed.

Lemma chunk_loop_sub (P : text -> Prop) (ls : list text) :
  forall i,
    length (Checker.chunk_loop i ls) <= length ls /\
    (Forall P ls -> Forall P (Checker.chunk_loop i ls)).
Proof.
  induction ls as [|l ls IH]; intros i; [split; auto|].
  cbn [Checker.chunk_loop length].
  destruct ((i =? 0) && text_eqb (Py.strip l) [])%bool.
  - destruct (IH (S i)) as [H1 H2]. split; [lia|].
    intros H; inversion H; auto.
  - destruct (Checker.stops_chunk l).
    + split; [cbn; lia|]. intros H; inversion H; subst. repeat constructor; auto.
    + destruct (IH (S i)) as [H1 H2]. split; [cbn [length]; lia|].
      intros H; inversion H; subst. constructor; auto.
Qed.

Lemma Forall_firstn_keeps {A : Type} (P : A -> Prop) (n : nat) (l : list A) :
  Forall P l -> Forall P (firstn n l).
Proof.
  revert l; induction n as [|n IH]; intros l H; [constructor|].
  destruct H; cbn [firstn]; constructor; auto.
Qed.

Lemma count_app (c : ascii) (a b : text) :
  Py.count c (a ++ b) = Py.count c a + Py.count c b.
Proof. unfold Py.count. rewrite filter_app, length_app. reflexivity. Qed.

Lemma count_not_in (c : ascii) (s : text) : ~ In c s -> Py.count c s = 0.
Proof.
  unfold Py.count. induction s as [|d s IH]; intros H; [reflexivity|].
  cbn [filter]. destruct (chr_eqb c d) eqn:E.
  - exfalso. apply H. left. symmetry. apply chr_eqb_eq; exact E.
  - apply IH. intros F; apply H; right; exact F.
Qed.

Lemma count_join_lines (ls : list text) :
  Forall (fun l => ~ In NL l) ls ->
  Py.count NL (Py.join [NL] ls) = length ls - 1.
Proof.
  induction 1 as [|l ls Hl _ IH]; [reflexivity|].
  destruct ls as [|l2 ls].
  - cbn [Py.join length]. rewrite (@count_not_in _ _ Hl). reflexivity.
  - rewrite join_cons by discriminate. rewrite !count_app, IH.
    rewrite (@count_not_in _ _ Hl). cbn [length]. 
    assert (E : Py.count NL [NL] = 1) by reflexivity. rewrite E. lia.
Qed.

(** X5: the chunk that [get_declaration_after] returns spans at most 40
    lines. *)
Theorem chunk_spans_at_most_40_lines :
  forall (t : text) (p : nat),
    Py.count NL (fst (Checker.get_declaration_after t p)) <= 39.
Proof.
  intros t p. unfold Checker.get_declaration_after. cbn [fst].
  set (lines := firstn 40 (Py.splitlines (skipn p t))).
  destruct (@chunk_loop_sub (fun l => ~ In NL l) lines 0) as [Hlen HF].
  rewrite count_join_lines.
  - assert (length lines <= 40) by (apply firstn_le_length). lia.
  - apply HF. apply Forall_firstn_keeps. apply splitlines_no_newline.
Qed.

Lemma in_contains (c : ascii) (s : text) :
  In c s -> Py.contains s [c] = true.
Proof.
  induction s as [|d s IH]; intros H; [destruct H|].
  cbn [Py.contains Py.startswith]. destruct H as [->|H].
  - unfold chr_eqb. rewrite Ascii.eqb_refl. destruct s; reflexivity.
  - rewrite (IH H). apply orb_true_r.
Qed.

Lemma chunk_loop_stops (ls : list text) :
  forall i,
    Forall (fun l => Checker.stops_chunk l = false)
           (removelast (Checker.chunk_loop i ls)).
Proof.
  induction ls as [|l ls IH]; intros i; [constructor|].
  cbn [Checker.chunk_loop].
  destruct ((i =? 0) && text_eqb (Py.strip l) [])%bool; [apply IH|].
  destruct (Checker.stops_chunk l) eqn:E; [constructor|].
  specialize (IH (S i)).
  destruct (Checker.chunk_loop (S i) ls) as [|l2 r]; [constructor|].
  change (removelast (l :: l2 :: r)) with (l :: removelast (l2 :: r)).
  constructor; assumption.
Qed.

Lemma split_at_first_newline (l a pre post : text) :
  ~ In NL l ->
  l ++ NL :: a = pre ++ NL :: post ->
  (pre = l /\ a = post) \/
  exists pre', pre = l ++ NL :: pre' /\ a = pre' ++ NL :: post.
Proof.
  revert pre. induction l as [|c l IH]; intros pre Hl E.
  - destruct pre as [|d pre'].
    + left. cbn in E. injection E as E. auto.
    + right. cbn in E. injection E as <- E. exists pre'. auto.
  - destruct pre as [|d pre'].
    + cbn in E. injection E as E _. exfalso. apply Hl. left. exact E.
    + cbn in E. injection E as <- E.
      destruct (IH pre') as [[-> ->] | [p [-> ->]]]; auto.
      * intros F; apply Hl; right; exact F.
      * right. exists p. auto.
Qed.

Lemma join_prefix_no_stop (c : ascii) (ls : list text) :
  c <> NL ->
  Forall (fun l => ~ In NL l) ls ->
  Forall (fun l => ~ In c l) (removelast ls) ->
  forall pre post,
    Py.join [NL] ls = pre ++ NL :: post -> ~ In c pre.
Proof.
  intros Hc. induction ls as [|l ls IH]; intros Hnl Hst pre post E.
  - destruct pre; discriminate E.
  - inversion Hnl as [|? ? Hl Hnl']; subst.
    destruct ls as [|l2 r].
    + cbn [Py.join] in E. exfalso. apply Hl. rewrite E.
      apply in_or_app; right; left; reflexivity.
    + rewrite join_cons in E by discriminate.
      change (removelast (l :: l2 :: r)) with (l :: removelast (l2 :: r)) in Hst.
      inversion Hst as [|? ? Hcl Hst']; subst.
      cbn [app] in E.
      destruct (@split_at_first_newline _ _ _ _ Hl E) as [[-> _] | [p [-> Ep]]].
      * exact Hcl.
      * intros F. apply in_app_or in F. destruct F as [F|[F|F]].
        -- exact (Hcl F).
        -- exact (Hc (eq_sym F)).
        -- exact (IH Hnl' Hst' _ _ Ep F).
Qed.

(** X6: the chunk stops at the first line that holds an opening brace
    or an equals sign: no line of the chunk but the last holds either. *)
Theorem chunk_stops_at_brace_or_equals :
  forall (t : text) (p : nat) (pre post : text),
    fst (Checker.get_declaration_after t p) = pre ++ NL :: post ->
    ~ In "{"%char pre /\ ~ In "="%char pre.
Proof.
  intros t p pre post E. unfold Checker.get_declaration_after in E.
  cbn [fst] in E.
  set (lines := firstn 40 (Py.splitlines (skipn p t))) in E.
  destruct (@chunk_loop_sub (fun l => ~ In NL l) lines 0) as [_ HF].
  assert (Hnl : Forall (fun l => ~ In NL l) (Checker.chunk_loop 0 lines))
    by (apply HF, Forall_firstn_keeps, splitlines_no_newline).
  pose proof (chunk_loop_stops lines 0) as Hst.
  split.
  - refine (@join_prefix_no_stop "{"%char _ _ Hnl _ _ _ E);
      [intros F; discriminate F|].
    eapply Forall_impl; [|exact Hst]. cbn. intros l Hl F.
    unfold Checker.stops_chunk in Hl.
    change (str "{") with ["{"%char] in Hl.
    rewrite (@in_contains _ _ F) in Hl. discriminate Hl.
  - refine (@join_prefix_no_stop "="%char _ _ Hnl _ _ _ E);
      [intros F; discriminate F|].
    eapply Forall_impl; [|exact Hst]. cbn. intros l Hl F.
    unfold Checker.stops_chunk in Hl.
    change (str "=") with ["="%char] in Hl.
    rewrite (@in_contains _ _ F) in Hl.
    rewrite orb_true_r in Hl. discriminate Hl.
Qed.

Lemma chunk_stops_at_brace_or_equals_witness :
  fst (Checker.get_declaration_after X_signature 11)
  = str "def f(" ++ NL :: str "  x: Int
): Int = x" /\
  ~ In "{"%char (str "def f(") /\ ~ In "="%char (str "def f(").
Proof.
  assert (H : fst (Checker.get_declaration_after X_signature 11)
              = str "def f(" ++ NL :: str "  x: Int
): Int = x") by (vm_compute; reflexivity).
  split; [exact H|].
  exact (@chunk_stops_at_brace_or_equals X_signature 11 _ _ H).
Defined.

(** ** Splitting at top-level commas *)

Lemma split_loop_parts (s : text) :
  forall cur depth parts,
    exists ps l,
      cur ++ s = Py.join [","%char] (ps ++ [l]) /\
      Checker.split_loop s cur depth parts
      = parts ++ ps ++ (if nonempty (Py.strip l) then [Py.strip l] else []).
Proof.
  induction s as [|ch s IH]; intros cur depth parts.
  - exists [], cur. split; [apply app_nil_r|].
    cbn [Checker.split_loop app].
    destruct (nonempty (Py.strip cur)); [reflexivity|].
    symmetry; apply app_nil_r.
  - cbn [Checker.split_loop].
    assert (Hkeep : forall d,
      exists ps l,
        cur ++ ch :: s = Py.join [","%char] (ps ++ [l]) /\
        Checker.split_loop s (cur ++ [ch]) d parts
        = parts ++ ps
          ++ (if nonempty (Py.strip l) then [Py.strip l] else [])).
    { intros d. destruct (IH (cur ++ [ch]) d parts) as [ps [l [E R]]].
      exists ps, l. split; [|exact R].
      rewrite <- E, <- app_assoc. reflexivity. }
    destruct (Checker.is_open ch); [apply Hkeep|].
    destruct (Checker.is_close ch); [apply Hkeep|].
    destruct (chr_eqb ch "," && (depth =? 0))%bool eqn:E; [|apply Hkeep].
    apply andb_prop in E. destruct E as [E _].
    apply chr_eqb_eq in E. subst ch.
    destruct (IH [] depth (parts ++ [cur])) as [ps [l [Ej R]]].
    exists (cur :: ps), l. split.
    + cbn [app] in Ej |- *. rewrite join_cons by (destruct ps; discriminate).
      rewrite <- Ej. reflexivity.
    + etransitivity; [exact R|]. rewrite <- app_assoc. reflexivity.
Qed.

(** X7: [split_by_commas_top_level] loses no character: the text is the
    parts joined by commas, where the last part is taken before it is
    stripped, and is left out of the result when it is blank. *)
Theorem split_parts_join_to_the_text :
  forall s : text,
    exists ps l,
      s = Py.join [","%char] (ps ++ [l]) /\
      Checker.split_by_commas_top_level s
      = ps ++ (if nonempty (Py.strip l) then [Py.strip l] else []).
Proof.
  intros s. destruct (split_loop_parts s [] 0 []) as [ps [l [E R]]].
  exists ps, l. split; [exact E | exact R].
Qed.

Lemma split_loop_no_bracket (s : text) :
  no_bracket s ->
  forall cur parts w ws,
    Py.split_chr ","%char s = w :: ws ->
    Checker.split_loop s cur 0 parts = parts ++ strip_last ((cur ++ w) :: ws).
Proof.
  induction 1 as [|ch s [Ho Hc] _ IH]; intros cur parts w ws E.
  - cbn [Py.split_chr] in E. injection E as E1 E2. subst w ws.
    rewrite app_nil_r.
    cbn [Checker.split_loop]. unfold strip_last. cbn [removelast last app].
    destruct (nonempty (Py.strip cur)); [reflexivity|].
    symmetry; apply app_nil_r.
  - cbn [Checker.split_loop]. rewrite Ho, Hc.
    cbn [Py.split_chr] in E.
    destruct (chr_eqb "," ch) eqn:Ec.
    + apply chr_eqb_eq in Ec. subst ch. injection E as <- <-.
      change (chr_eqb "," "," && (0 =? 0))%bool with true. cbn iota.
      destruct (Py.split_chr ","%char s) as [|w' ws'] eqn:Es;
        [exfalso; exact (split_chr_nonempty _ _ Es)|].
      rewrite (IH [] (parts ++ [cur]) w' ws' eq_refl).
      rewrite app_nil_r, <- app_assoc. reflexivity.
    + assert (Ec' : chr_eqb ch "," = false).
      { unfold chr_eqb in Ec |- *. rewrite Ascii.eqb_sym. exact Ec. }
      rewrite Ec'. cbn [andb].
      destruct (Py.split_chr ","%char s) as [|w' ws'] eqn:Es;
        [exfalso; exact (split_chr_nonempty _ _ Es)|].
      injection E as <- <-.
      rewrite (IH (cur ++ [ch]) parts w' ws' eq_refl).
      rewrite <- app_assoc. reflexivity.
Qed.

(** X8: on a text without brackets, [split_by_commas_top_level] is the
    split at every comma, with the last part stripped, and dropped when it
    is blank. *)
Theorem split_without_brackets_is_split_at_commas :
  forall s : text,
    no_bracket s ->
    Checker.split_by_commas_top_level s
    = strip_last (Py.split_chr ","%char s).
Proof.
  intros s H. unfold Checker.split_by_commas_top_level.
  destruct (Py.split_chr ","%char s) as [|w ws] eqn:E;
    [exfalso; exact (split_chr_nonempty _ _ E)|].
  rewrite (split_loop_no_bracket H [] [] E). reflexivity.
Qed.

Lemma split_without_brackets_is_split_at_commas_witness :
  no_bracket (str "x: Int, y: String ") /\
  Checker.split_by_commas_top_level (str "x: Int, y: String ")
  = strip_last (Py.split_chr ","%char (str "x: Int, y: String ")).
Proof.
  assert (H : no_bracket (str "x: Int, y: String "))
    by (repeat constructor).
  split; [exact H|].
  exact (@split_without_brackets_is_split_at_commas _ H).
Defined.

Lemma close_is_not_open (c : ascii) :
  Checker.is_close c = true -> Checker.is_open c = false.
Proof.
  unfold Checker.is_close. intros H.
  apply orb_prop in H. destruct H as [H|H];
    [apply orb_prop in H; destruct H as [H|H]|];
    apply chr_eqb_eq in H; subst c; reflexivity.
Qed.

Lemma split_loop_plain (a : text) :
  plain a ->
  forall s cur depth parts,
    Checker.split_loop (a ++ s) cur depth parts
    = Checker.split_loop s (cur ++ a) depth parts.
Proof.
  induction 1 as [|ch a [Ho [Hc Hk]] _ IH]; intros s cur depth parts.
  - rewrite app_nil_r. reflexivity.
  - cbn [app Checker.split_loop]. rewrite Ho, Hc, Hk. cbn [andb].
    rewrite IH, <- app_assoc. reflexivity.
Qed.

(** Inside a bracket, text with nested brackets is taken over whole. *)
Lemma split_loop_nested (x : text) :
  nested x ->
  forall s cur d parts,
    Checker.split_loop (x ++ s) cur (S d) parts
    = Checker.split_loop s (cur ++ x) (S d) parts.
Proof.
  induction 1 as [|ch Ho Hc|x y _ IHx _ IHy|o c x Ho Hc _ IH];
    intros s cur d parts.
  - rewrite app_nil_r. reflexivity.
  - cbn [app Checker.split_loop]. rewrite Ho, Hc.
    change (S d =? 0) with false. rewrite andb_false_r. reflexivity.
  - rewrite <- app_assoc, IHx, IHy, app_assoc. reflexivity.
  - cbn [app Checker.split_loop]. rewrite Ho.
    replace (S d + 1) with (S (S d)) by lia.
    rewrite <- app_assoc, IH. cbn [app Checker.split_loop].
    rewrite (close_is_not_open _ Hc), Hc.
    replace (Nat.max 0 (S (S d) - 1)) with (S d) by lia.
    replace (cur ++ o :: x ++ [c]) with (((cur ++ [o]) ++ x) ++ [c])
      by (rewrite <- !app_assoc; reflexivity).
    reflexivity.
Qed.

Lemma lstrip_keeps (c : ascii) (s : text) :
  is_space c = false -> In c s -> In c (Py.lstrip s).
Proof.
  intros Hc. induction s as [|d s IH]; intros H; [destruct H|].
  cbn [Py.lstrip]. destruct (is_space d) eqn:E; [|exact H].
  destruct H as [->|H]; [congruence | exact (IH H)].
Qed.

Lemma strip_keeps (c : ascii) (s : text) :
  is_space c = false -> In c s -> In c (Py.strip s).
Proof.
  intros Hc H. unfold Py.strip, Py.rstrip.
  apply in_rev. rewrite rev_involutive.
  apply lstrip_keeps; [exact Hc|]. apply -> in_rev.
  apply lstrip_keeps; assumption.
Qed.

Lemma open_is_not_space (o : ascii) :
  Checker.is_open o = true -> is_space o = false.
Proof.
  unfold Checker.is_open. intros H.
  apply orb_prop in H. destruct H as [H|H];
    [apply orb_prop in H; destruct H as [H|H]|];
    apply chr_eqb_eq in H; subst o; reflexivity.
Qed.

(** X9: commas inside a bracket do not split: a text made of one bracket
    group, whose content may hold commas and further nested groups, between
    two runs without comma or bracket, comes back as a single part. *)
Theorem commas_inside_brackets_do_not_split :
  forall (a : text) (o : ascii) (x : text) (c : ascii) (b : text),
    plain a -> Checker.is_open o = true -> nested x ->
    Checker.is_close c = true -> plain b ->
    Checker.split_by_commas_top_level (a ++ o :: x ++ c :: b)
    = [Py.strip (a ++ o :: x ++ c :: b)].
Proof.
  intros a o x c b Ha Ho Hx Hc Hb. unfold Checker.split_by_commas_top_level.
  rewrite (split_loop_plain Ha). cbn [app Checker.split_loop]. rewrite Ho.
  change (0 + 1) with 1. rewrite (split_loop_nested Hx).
  cbn [Checker.split_loop]. rewrite (close_is_not_open _ Hc), Hc.
  change (Nat.max 0 (1 - 1)) with 0.
  rewrite <- (app_nil_r b) at 1. rewrite (split_loop_plain Hb).
  cbn [Checker.split_loop app].
  replace (((a ++ [o]) ++ x) ++ [c]) with (a ++ o :: x ++ [c])
    by (rewrite <- !app_assoc; reflexivity).
  replace ((a ++ o :: x ++ [c]) ++ b) with (a ++ o :: x ++ c :: b)
    by (rewrite <- !app_assoc; cbn [app]; rewrite <- app_assoc; reflexivity).
  assert (Hin : In o (Py.strip (a ++ o :: x ++ c :: b))).
  { apply strip_keeps; [apply open_is_not_space; exact Ho|].
    apply in_or_app; right; left; reflexivity. }
  destruct (Py.strip (a ++ o :: x ++ c :: b)); [destruct Hin | reflexivity].
Qed.

Lemma commas_inside_brackets_do_not_split_witness :
  plain (str "m: Map") /\ Checker.is_open "["%char = true /\
  nested (str "K, List[V]") /\ Checker.is_close "]"%char = true /\
  plain (str " = empty") /\
  Checker.split_by_commas_top_level
    (str "m: Map" ++ "["%char :: str "K, List[V]" ++ "]"%char :: str " = empty")
  = [Py.strip (str "m: Map" ++ "["%char :: str "K, List[V]" ++ "]"%char
               :: str " = empty")].
Proof.
  assert (H1 : plain (str "m: Map")) by (repeat constructor).
  assert (H2 : nested (str "K, List[V]")).
  { change (str "K, List[V]")
      with (["K"%char] ++ [","%char] ++ [" "%char] ++ ["L"%char] ++ ["i"%char]
            ++ ["s"%char] ++ ["t"%char] ++ ("["%char :: ["V"%char] ++ ["]"%char])).
    repeat (apply nested_app; [apply nested_chr; reflexivity|]).
    apply nested_wrap; [reflexivity | reflexivity |].
    apply nested_chr; reflexivity. }
  assert (H3 : plain (str " = empty")) by (repeat constructor).
  split; [exact H1|]. split; [reflexivity|]. split; [exact H2|].
  split; [reflexivity|]. split; [exact H3|].
  exact (@commas_inside_brackets_do_not_split (str "m: Map") "["%char
           (str "K, List[V]") "]"%char (str " = empty")
           H1 eq_refl H2 eq_refl H3).
Defined.

(** ** The kind of a parsed declaration *)

Lemma run_lit_inv (l : text) :
  forall st k res,
    Re.run (Re.Lit l) st k = Some res ->
    exists st1,
      Re.rest st = l ++ Re.rest st1 /\
      Re.pos st1 = Re.pos st + length l /\
      Re.caps st1 = Re.caps st /\
      k st1 = Some res.
Proof.
  induction l as [|c l IH]; intros st k res H.
  - cbn [Re.Lit Re.run] in H. exists st. cbn [app length].
    rewrite Nat.add_0_r. auto.
  - assert (Hc : exists tl,
               Re.rest st = c :: tl /\
               Re.run (Re.Lit l) (Re.advance c tl st) k = Some res).
    { destruct l as [|d l'].
      - cbn [Re.Lit Re.run Re.Chr] in H |- *.
        destruct (Re.rest st) as [|e tl]; [discriminate|].
        destruct (chr_eqb c e) eqn:E; [|discriminate].
        apply chr_eqb_eq in E. subst e. exists tl. auto.
      - change (Re.Lit (c :: d :: l'))
          with (Re.Seq (Re.Chr c) (Re.Lit (d :: l'))) in H.
        cbn [Re.run Re.Chr] in H.
        destruct (Re.rest st) as [|e tl]; [discriminate|].
        destruct (chr_eqb c e) eqn:E; [|discriminate].
        apply chr_eqb_eq in E. subst e. exists tl. auto. }
    destruct Hc as [tl [Hr Hl]].
    destruct (IH _ _ _ Hl) as [st1 [E1 [E2 [E3 E4]]]].
    exists st1. cbn [Re.advance Re.rest Re.pos Re.caps] in E1, E2, E3.
    rewrite Hr, E1, E2, E3. cbn [app length].
    repeat split; auto; lia.
Qed.

Lemma run_alts_lits_inv (l0 : text) (ls : list text) :
  forall st k res,
    Re.run (Re.Alts (map Re.Lit (l0 :: ls))) st k = Some res ->
    exists l st1,
      In l (l0 :: ls) /\
      Re.rest st = l ++ Re.rest st1 /\
      Re.pos st1 = Re.pos st + length l /\
      Re.caps st1 = Re.caps st /\
      k st1 = Some res.
Proof.
  revert l0. induction ls as [|l1 ls IH]; intros l0 st k res H.
  - cbn [map Re.Alts] in H. apply run_lit_inv in H.
    destruct H as [st1 H]. exists l0, st1. split; [left; reflexivity | exact H].
  - change (Re.Alts (map Re.Lit (l0 :: l1 :: ls)))
      with (Re.Alt (Re.Lit l0) (Re.Alts (map Re.Lit (l1 :: ls)))) in H.
    cbn [Re.run] in H.
    destruct (Re.run (Re.Lit l0) st k) eqn:E.
    + injection H as ->. apply run_lit_inv in E.
      destruct E as [st1 E]. exists l0, st1.
      split; [left; reflexivity | exact E].
    + apply IH in H. destruct H as [l [st1 [Hin H]]].
      exists l, st1. split; [right; exact Hin | exact H].
Qed.

Lemma search_from_inv (r : Re.re) (s : text) :
  forall p pv m,
    Re.search_from r p pv s = Some m ->
    exists k pv', Re.match_at r (p + k) pv' (skipn k s) = Some m.
Proof.
  induction s as [|c s IH]; intros p pv m H; cbn [Re.search_from] in H.
  - destruct (Re.match_at r p pv []) eqn:E; [|discriminate].
    exists 0, pv. rewrite Nat.add_0_r. cbn [skipn]. congruence.
  - destruct (Re.match_at r p pv (c :: s)) eqn:E.
    + exists 0, pv. rewrite Nat.add_0_r. cbn [skipn]. congruence.
    + apply IH in H. destruct H as [k [pv' H]].
      exists (S k), pv'. cbn [skipn].
      replace (p + S k) with (S p + k) by lia. exact H.
Qed.

Lemma decl_start_keyword (s : text) (m : Re.match_obj) :
  Re.search Checker.DECL_START_RE s = Some m ->
  In (Re.group_or_empty s m 1)
     [str "class"; str "trait"; str "object"; str "def"; str "val";
      str "var"].
Proof.
  unfold Re.search. intros H. apply search_from_inv in H.
  destruct H as [k [pv H]]. cbn [Nat.add] in H.
  unfold Re.match_at in H.
  destruct (Re.run Checker.DECL_START_RE (Re.MState k pv (skipn k s) []) Some)
    as [res|] eqn:R; [|discriminate].
  injection H as <-.
  unfold Checker.DECL_START_RE in R. cbn [Re.Seqs] in R.
  do 6 (change (Re.run (Re.Seq ?a ?b) ?st ?k)
          with (Re.run a st (fun s1 => Re.run b s1 k)) in R;
        apply run_continues in R;
        let st' := fresh "st" in
        let Rs := fresh "Rs" in
        destruct R as [st' [Rs R]]).
  assert (Hreach : reaches (Re.MState k pv (skipn k s) []) st4).
  { repeat (eapply reaches_trans; [eassumption|]). apply reaches_refl. }
  clear Rs Rs0 Rs1 Rs2 Rs3 Rs4.
  change (Re.run (Re.Seq ?a ?b) ?st ?k)
    with (Re.run a st (fun s1 => Re.run b s1 k)) in R.
  cbn [Re.run] in R.
  change (Re.Alts [Re.Lit (str "class"); Re.Lit (str "trait");
                   Re.Lit (str "object"); Re.Lit (str "def");
                   Re.Lit (str "val"); Re.Lit (str "var")])
    with (Re.Alts (map Re.Lit [str "class"; str "trait"; str "object";
                               str "def"; str "val"; str "var"])) in R.
  apply run_alts_lits_inv in R.
  destruct R as [l [stl [Hin [Hrest [Hpos [Hcaps R]]]]]].
  destruct (Re.at_boundary (Re.set_cap 1 (Re.pos st4) (Re.pos stl) stl));
    [|discriminate].
  injection R as <-.
  destruct Hreach as [consumed [Hc Hp]]. cbn [Re.rest Re.pos] in Hc, Hp.
  unfold Re.group_or_empty, Re.group.
  cbn [Re.m_caps Re.set_cap Re.caps Re.get_cap Nat.eqb].
  replace (Py.slice s (Re.pos st4) (Re.pos stl)) with l; [exact Hin|].
  unfold Py.slice. rewrite Hpos, Hp.
  replace (k + length consumed + length l - (k + length consumed))
    with (length l) by lia.
  replace (k + length consumed) with (length consumed + k) by lia.
  rewrite <- skipn_skipn, Hc, Hrest.
  replace (skipn (length consumed) (consumed ++ l ++ Re.rest stl))
    with (l ++ Re.rest stl).
  - symmetry. apply firstn_length_app.
  - symmetry. rewrite skipn_app, Nat.sub_diag, skipn_all. reflexivity.
Qed.

(** X10: the kind of a parsed declaration is one of [class], [trait],
    [object], [def], [val], [var] and [unknown]. *)
Theorem declaration_kind_is_known :
  forall (chunk : text) (d : Checker.decl),
    Checker.parse_declaration chunk = Some d -> In (Checker.kind d) kinds.
Proof.
  intros chunk d H. unfold Checker.parse_declaration in H.
  apply bind_some in H. destruct H as [fl [_ H]].
  destruct (Checker.kind_match chunk fl) as [k|] eqn:K.
  - destruct (parse_kind_total chunk k) as [d' [E Hk]].
    rewrite E in H. injection H as <-. rewrite Hk.
    assert (Hin : In k [str "class"; str "trait"; str "object"; str "def";
                        str "val"; str "var"]).
    { unfold Checker.kind_match in K.
      destruct (Re.search Checker.DECL_START_RE fl) as [m|] eqn:S1.
      - injection K as <-. apply decl_start_keyword; exact S1.
      - destruct (Re.search Checker.DECL_START_RE chunk) as [m|] eqn:S2;
          [|discriminate].
        injection K as <-. apply decl_start_keyword; exact S2. }
    unfold kinds. cbn [In] in Hin |- *. tauto.
  - injection H as <-. unfold kinds. cbn. tauto.
Qed.

Lemma declaration_kind_is_known_witness :
  Checker.parse_declaration (str "  def inc(x: Int): Int = x + 1")
  = Some (Checker.Decl (str "def") (str "inc") [] [str "x"]
            (Some (str "Int): Int"))) /\
  In (str "def") kinds.
Proof.
  assert (H : Checker.parse_declaration (str "  def inc(x: Int): Int = x + 1")
              = Some (Checker.Decl (str "def") (str "inc") [] [str "x"]
                        (Some (str "Int): Int"))))
    by (vm_compute; reflexivity).
  split; [exact H|].
  exact (@declaration_kind_is_known _ _ H).
Defined.

(** ** The reconciliation of tags and declaration *)

Lemma mem_in (x : text) (xs : list text) : mem x xs = true <-> In x xs.
Proof.
  unfold mem. rewrite existsb_exists. split.
  - intros [y [Hy E]]. apply text_eqb_spec in E. subst y. exact Hy.
  - intros H. exists x. split; [exact H | apply text_eqb_refl].
Qed.

Lemma missing_of_in (declared documented : list text) (x : text) :
  In x (Checker.missing_of declared documented) <->
  In x declared /\ ~ In x documented.
Proof.
  unfold Checker.missing_of. rewrite filter_In.
  split; intros [H1 H2]; (split; [exact H1|]).
  - intros F. apply mem_in in F. rewrite F in H2. discriminate H2.
  - destruct (mem x documented) eqn:E; [|reflexivity].
    apply mem_in in E. contradiction.
Qed.

Lemma msg_if_in (xs : list text) (head msg : text) :
  In msg (Checker.msg_if xs head) <->
  xs <> [] /\ msg = head ++ Checker.comma_list xs.
Proof.
  unfold Checker.msg_if. destruct xs as [|x xs]; cbn [nonempty].
  - split; [intros [] | intros [H _]; congruence].
  - split.
    + intros [H|[]]. split; [discriminate | symmetry; exact H].
    + intros [_ ->]. left; reflexivity.
Qed.

Lemma nonempty_exists {A : Type} (xs : list A) :
  xs <> [] <-> exists x, In x xs.
Proof.
  destruct xs as [|x xs].
  - split; [congruence | intros [y []]].
  - split; [intros _; exists x; left; reflexivity | discriminate].
Qed.

Lemma in_issues_of (tg : Checker.tags) (d : Checker.decl) (msg : text) :
  In msg (Checker.issues_of tg d) <->
  In msg (Checker.msg_if (Checker.missing_tparam tg d)
            (str "Missing @tparam for: ")) \/
  In msg (Checker.msg_if (Checker.extra_tparam tg d)
            (str "@tparam refers to unknown type params: ")) \/
  In msg (Checker.msg_if (Checker.missing_param tg d)
            (str "Missing @param for: ")) \/
  In msg (Checker.msg_if (Checker.extra_param tg d)
            (str "@param refers to unknown params: ")) \/
  In msg (Checker.return_issues tg d).
Proof. unfold Checker.issues_of. rewrite !in_app_iff. tauto. Qed.

Lemma return_issues_in (tg : Checker.tags) (d : Checker.decl) (msg : text) :
  In msg (Checker.return_issues tg d) ->
  msg = Checker.MSG_UNEXPECTED_RETURN \/ msg = Checker.MSG_MISSING_RETURN.
Proof.
  unfold Checker.return_issues.
  destruct (text_eqb (Checker.kind d) (str "def")); [|intros []].
  destruct (Checker.ret d) as [r|]; [|intros []].
  destruct (nonempty r); [|intros []].
  destruct (Checker.is_unit r).
  - destruct (Checker.documented_return tg); [|intros []].
    intros [H|[]]; left; symmetry; exact H.
  - destruct (negb (Checker.documented_return tg)); [|intros []].
    intros [H|[]]; right; symmetry; exact H.
Qed.

(** The head of a message tells which test of the reconciliation made it. *)
Ltac other_head H :=
  first
    [ apply msg_if_in in H; destruct H as [_ H]; subst;
      match goal with S : Py.startswith _ _ = true |- _ =>
        vm_compute in S; discriminate S end
    | apply return_issues_in in H; destruct H as [H|H]; subst;
      match goal with S : Py.startswith _ _ = true |- _ =>
        vm_compute in S; discriminate S end ].

(** X11: the four tag messages are raised by name, whatever the order
    and the number of the tags: a parameter is reported missing exactly
    when some declared name has no tag, and a tag is reported unknown
    exactly when some documented name is not declared; the same holds of
    the type parameters, among which empty declared names are left out. *)
Theorem tag_issues_compare_names_as_sets :
  forall (tg : Checker.tags) (d : Checker.decl),
    (flagged (str "Missing @param for: ") (Checker.issues_of tg d) <->
     exists p, In p (Checker.params d) /\ ~ In p (Checker.t_param tg)) /\
    (flagged (str "@param refers to unknown params: ")
       (Checker.issues_of tg d) <->
     exists p, In p (Checker.t_param tg) /\ ~ In p (Checker.params d)) /\
    (flagged (str "Missing @tparam for: ") (Checker.issues_of tg d) <->
     exists p, In p (Checker.tparams d) /\ p <> [] /\
               ~ In p (Checker.t_tparam tg)) /\
    (flagged (str "@tparam refers to unknown type params: ")
       (Checker.issues_of tg d) <->
     exists p, In p (Checker.t_tparam tg) /\
               ~ (In p (Checker.tparams d) /\ p <> [])).
Proof.
  intros tg d.
  assert (Hdecl : forall p, In p (Checker.declared_tparams d) <->
                            In p (Checker.tparams d) /\ p <> []).
  { intros p. unfold Checker.declared_tparams. rewrite filter_In.
    destruct p; cbn [nonempty]; intuition congruence. }
  assert (Hflag : forall xs head,
             xs <> [] ->
             In (head ++ Checker.comma_list xs) (Checker.msg_if xs head) /\
             Py.startswith (head ++ Checker.comma_list xs) head = true).
  { intros xs head H. split; [apply msg_if_in; auto | apply startswith_app]. }
  repeat split.
  - intros [msg [H S]]. apply in_issues_of in H.
    destruct H as [H|[H|[H|[H|H]]]]; try (other_head H).
    apply msg_if_in in H. destruct H as [H _].
    apply nonempty_exists in H. destruct H as [p H].
    exists p. apply missing_of_in. exact H.
  - intros [p H]. apply missing_of_in in H.
    assert (Hne : Checker.missing_param tg d <> [])
      by (apply nonempty_exists; exists p; exact H).
    destruct (Hflag _ (str "Missing @param for: ") Hne) as [H1 H2].
    eexists; split; [|exact H2]. apply in_issues_of. tauto.
  - intros [msg [H S]]. apply in_issues_of in H.
    destruct H as [H|[H|[H|[H|H]]]]; try (other_head H).
    apply msg_if_in in H. destruct H as [H _].
    apply nonempty_exists in H. destruct H as [p H].
    exists p. apply missing_of_in. exact H.
  - intros [p H]. apply missing_of_in in H.
    assert (Hne : Checker.extra_param tg d <> [])
      by (apply nonempty_exists; exists p; exact H).
    destruct (Hflag _ (str "@param refers to unknown params: ") Hne)
      as [H1 H2].
    eexists; split; [|exact H2]. apply in_issues_of. tauto.
  - intros [msg [H S]]. apply in_issues_of in H.
    destruct H as [H|[H|[H|[H|H]]]]; try (other_head H).
    apply msg_if_in in H. destruct H as [H _].
    apply nonempty_exists in H. destruct H as [p H].
    exists p. apply missing_of_in in H. rewrite Hdecl in H. tauto.
  - intros [p H].
    assert (Hin : In p (Checker.missing_tparam tg d))
      by (apply missing_of_in; rewrite Hdecl; tauto).
    assert (Hne : Checker.missing_tparam tg d <> [])
      by (apply nonempty_exists; exists p; exact Hin).
    destruct (Hflag _ (str "Missing @tparam for: ") Hne) as [H1 H2].
    eexists; split; [|exact H2]. apply in_issues_of. tauto.
  - intros [msg [H S]]. apply in_issues_of in H.
    destruct H as [H|[H|[H|[H|H]]]]; try (other_head H).
    apply msg_if_in in H. destruct H as [H _].
    apply nonempty_exists in H. destruct H as [p H].
    exists p. apply missing_of_in in H. rewrite Hdecl in H. exact H.
  - intros [p H].
    assert (Hin : In p (Checker.extra_tparam tg d))
      by (apply missing_of_in; rewrite Hdecl; exact H).
    assert (Hne : Checker.extra_tparam tg d <> [])
      by (apply nonempty_exists; exists p; exact Hin).
    destruct (Hflag _ (str "@tparam refers to unknown type params: ") Hne)
      as [H1 H2].
    eexists; split; [|exact H2]. apply in_issues_of. tauto.
Qed.

(** ** The return policy, for every kind and return type *)

Lemma return_issues_policy (tg : Checker.tags) (d : Checker.decl) :
  (Checker.kind d <> str "def" -> Checker.return_issues tg d = []) /\
  (Checker.kind d = str "def" ->
   forall rt,
     Checker.ret d = Some rt -> rt <> [] ->
     (Checker.is_unit rt = true ->
      ~ In Checker.MSG_MISSING_RETURN (Checker.return_issues tg d) /\
      (In Checker.MSG_UNEXPECTED_RETURN (Checker.return_issues tg d) <->
       Checker.t_return tg <> [])) /\
     (Checker.is_unit rt = false ->
      ~ In Checker.MSG_UNEXPECTED_RETURN (Checker.return_issues tg d) /\
      (In Checker.MSG_MISSING_RETURN (Checker.return_issues tg d) <->
       Checker.t_return tg = []))).
Proof.
  unfold Checker.return_issues. split.
  - intros Hk. destruct (text_eqb (Checker.kind d) (str "def")) eqn:E;
      [|reflexivity].
    apply text_eqb_spec in E. contradiction.
  - intros Hk rt Hr Hne. rewrite Hk, Hr.
    change (text_eqb (str "def") (str "def")) with true. cbn iota.
    assert (Hn : nonempty rt = true) by (destruct rt; [congruence | reflexivity]).
    rewrite Hn.
    pose proof (documented_return_iff tg) as Hdoc.
    split; intros Hu; rewrite Hu.
    + destruct (Checker.documented_return tg).
      * split; [intros [F|[]]; discriminate F|].
        split; [intros _; apply Hdoc; reflexivity | intros _; left; reflexivity].
      * split; [intros []|]. split; [intros [] |].
        intros H. apply Hdoc in H. discriminate H.
    + destruct (Checker.documented_return tg); cbn [negb].
      * split; [intros []|]. split; [intros []|].
        intros H. exfalso. apply (proj1 Hdoc); [reflexivity | exact H].
      * split; [intros [F|[]]; discriminate F|].
        split; [|intros _; left; reflexivity].
        intros _. destruct (Checker.t_return tg); [reflexivity|].
        exfalso. assert (F : false = true) by (apply Hdoc; discriminate).
        discriminate F.
Qed.

(** X12: the return messages in the report of [analyze_file].  A block
    whose declaration is not a [def] carries neither.  For a [def] with a
    non-empty extracted return type: when the type, stripped, starts with
    [Unit], the block carries the message on an unexpected tag exactly when
    it has a [@return] tag, and never the message on a missing one;
    otherwise it carries the message on a missing tag exactly when it has
    no [@return] tag, and never the other. *)
Theorem return_policy_of_the_report :
  forall (t : text) (fix_ : bool) (o : Checker.outcome) (r : Checker.result),
    Checker.analyze_file t fix_ = Some o ->
    In r (Checker.report o) ->
    (Checker.kind (Checker.r_decl r) <> str "def" ->
     ~ In Checker.MSG_MISSING_RETURN (Checker.r_issues r) /\
     ~ In Checker.MSG_UNEXPECTED_RETURN (Checker.r_issues r)) /\
    (Checker.kind (Checker.r_decl r) = str "def" ->
     forall rt,
       Checker.ret (Checker.r_decl r) = Some rt -> rt <> [] ->
       (Checker.is_unit rt = true ->
        ~ In Checker.MSG_MISSING_RETURN (Checker.r_issues r) /\
        (In Checker.MSG_UNEXPECTED_RETURN (Checker.r_issues r) <->
         Checker.t_return (Checker.r_tags r) <> [])) /\
       (Checker.is_unit rt = false ->
        ~ In Checker.MSG_UNEXPECTED_RETURN (Checker.r_issues r) /\
        (In Checker.MSG_MISSING_RETURN (Checker.r_issues r) <->
         Checker.t_return (Checker.r_tags r) = []))).
Proof.
  intros t fix_ o r Ho Hin.
  unfold Checker.analyze_file in Ho. apply bind_some in Ho.
  destruct Ho as [st [Hloop Ho]]. injection Ho as <-.
  cbn [Checker.report] in Hin.
  pose proof (@analyze_loop_issues t fix_ _ _ _ Hloop (Forall_nil _)) as HF.
  rewrite Forall_forall in HF.
  assert (EM : In Checker.MSG_MISSING_RETURN (Checker.r_issues r) <->
               In Checker.MSG_MISSING_RETURN
                  (Checker.return_issues (Checker.r_tags r) (Checker.r_decl r)))
    by (rewrite (HF r Hin); apply in_issues_missing_return).
  assert (EU : In Checker.MSG_UNEXPECTED_RETURN (Checker.r_issues r) <->
               In Checker.MSG_UNEXPECTED_RETURN
                  (Checker.return_issues (Checker.r_tags r) (Checker.r_decl r)))
    by (rewrite (HF r Hin); apply in_issues_unexpected_return).
  destruct (return_issues_policy (Checker.r_tags r) (Checker.r_decl r))
    as [H1 H2].
  split.
  - intros Hk. rewrite EM, EU, (H1 Hk). split; intros [].
  - intros Hk rt Hr Hne. destruct (H2 Hk rt Hr Hne) as [A B].
    split; intros Hu; [destruct (A Hu) | destruct (B Hu)];
      rewrite EM, EU; tauto.
Qed.

Lemma return_policy_of_the_report_witness :
  Checker.analyze_file X_text false = Some (Checker.Outcome X_report None) /\
  In X_result X_report /\
  Checker.kind (Checker.r_decl X_result) = str "def" /\
  Checker.ret (Checker.r_decl X_result) = Some (str "Int, y: Int): Int") /\
  Checker.is_unit (str "Int, y: Int): Int") = false /\
  ~ In Checker.MSG_UNEXPECTED_RETURN (Checker.r_issues X_result) /\
  (In Checker.MSG_MISSING_RETURN (Checker.r_issues X_result) <->
   Checker.t_return (Checker.r_tags X_result) = []).
Proof.
  assert (H1 : Checker.analyze_file X_text false
               = Some (Checker.Outcome X_report None))
    by (vm_compute; reflexivity).
  assert (H2 : In X_result (Checker.report (Checker.Outcome X_report None)))
    by (left; reflexivity).
  split; [exact H1|]. split; [exact H2|].
  split; [reflexivity|]. split; [reflexivity|]. split; [reflexivity|].
  refine (proj2 (proj2 (@return_policy_of_the_report X_text false _ X_result
                          H1 H2) eq_refl (str "Int, y: Int): Int") eq_refl _)
            eq_refl).
  discriminate.
Defined.

(** ** What the checker inserts under [fix] *)

Lemma needs_return_stub_iff (tg : Checker.tags) (d : Checker.decl) :
  Checker.needs_return_stub tg d = true <->
  In Checker.MSG_MISSING_RETURN (Checker.return_issues tg d).
Proof.
  unfold Checker.needs_return_stub, Checker.return_issues.
  destruct (text_eqb (Checker.kind d) (str "def")); cbn [andb];
    [|split; [discriminate | intros []]].
  destruct (Checker.ret d) as [r|]; [|split; [discriminate | intros []]].
  destruct (nonempty r); cbn [andb]; [|split; [discriminate | intros []]].
  destruct (Checker.is_unit r); cbn [negb andb].
  - split; [discriminate|].
    destruct (Checker.documented_return tg); [|intros []].
    intros [F|[]]; discriminate F.
  - destruct (Checker.documented_return tg); cbn [negb].
    + split; [discriminate | intros []].
    + split; [intros _; left; reflexivity | reflexivity].
Qed.

Lemma insert_lines_nil (tg : Checker.tags) (d : Checker.decl) :
  Checker.insert_lines tg d = [] <->
  Checker.missing_tparam tg d = [] /\ Checker.missing_param tg d = [] /\
  Checker.needs_return_stub tg d = false.
Proof.
  unfold Checker.insert_lines. split.
  - intros H. apply app_eq_nil in H. destruct H as [H1 H].
    apply app_eq_nil in H. destruct H as [H2 H3].
    apply map_eq_nil in H1. apply map_eq_nil in H2.
    split; [exact H1|]. split; [exact H2|].
    destruct (Checker.needs_return_stub tg d); [discriminate H3 | reflexivity].
  - intros [-> [-> ->]]. reflexivity.
Qed.

Lemma insert_lines_flagged (tg : Checker.tags) (d : Checker.decl) :
  Checker.insert_lines tg d <> [] <->
  flagged (str "Missing @") (Checker.issues_of tg d).
Proof.
  split.
  - intros H.
    destruct (Checker.missing_tparam tg d) as [|x xs] eqn:E1.
    + destruct (Checker.missing_param tg d) as [|y ys] eqn:E2.
      * destruct (Checker.needs_return_stub tg d) eqn:E3.
        -- exists Checker.MSG_MISSING_RETURN. split; [|reflexivity].
           apply in_issues_missing_return, needs_return_stub_iff. exact E3.
        -- exfalso. apply H. apply insert_lines_nil. auto.
      * exists (str "Missing @param for: " ++ Checker.comma_list (y :: ys)).
        split; [|reflexivity].
        apply in_issues_of. right; right; left. rewrite E2. left; reflexivity.
    + exists (str "Missing @tparam for: " ++ Checker.comma_list (x :: xs)).
      split; [|reflexivity].
      apply in_issues_of. left. rewrite E1. left; reflexivity.
  - intros [msg [H S]] E. apply insert_lines_nil in E.
    destruct E as [E1 [E2 E3]].
    apply in_issues_of in H. rewrite E1, E2 in H. cbn [Checker.msg_if nonempty] in H.
    destruct H as [[]|[H|[[]|[H|H]]]]; try (other_head H).
    pose proof (return_issues_in _ _ _ H) as H'. destruct H' as [E|E]; subst msg.
    + vm_compute in S; discriminate S.
    + apply needs_return_stub_iff in H. congruence.
Qed.

(** X13: under [fix] the checker has lines to insert into a block exactly
    when the issues of the block hold a message on a missing tag. *)
Theorem stubs_inserted_iff_missing_reported :
  forall (tg : Checker.tags) (d : Checker.decl),
    Checker.insert_lines tg d <> [] <->
    flagged (str "Missing @") (Checker.issues_of tg d).
Proof. intros tg d. apply insert_lines_flagged. Qed.

(** The report lists, block after block, what the loop computes. *)
Lemma analyze_loop_report (t : text) (fix_ : bool) (ms : list Re.match_obj) :
  forall st st',
    Checker.analyze_loop t fix_ st ms = Some st' ->
    Checker.results st'
    = Checker.results st ++ map (fun m => block_result t m (decl_after t m)) ms.
Proof.
  induction ms as [|m ms IH]; intros st st' H; cbn [Checker.analyze_loop] in H.
  - injection H as <-. symmetry; apply app_nil_r.
  - apply bind_some in H. destruct H as [st1 [H1 H2]].
    rewrite (IH _ _ H2).
    destruct (analyze_block_results t fix_ st m) as [d [a [Hd [Ha R]]]].
    rewrite Ha in H1; injection H1 as <-. rewrite R, <- app_assoc.
    cbn [map app]. unfold decl_after. rewrite Hd. reflexivity.
Qed.

Lemma analyze_file_report (t : text) (fix_ : bool) (o : Checker.outcome) :
  Checker.analyze_file t fix_ = Some o ->
  Checker.report o
  = map (fun m => block_result t m (decl_after t m))
        (Re.finditer Checker.SCALADOC_RE t).
Proof.
  unfold Checker.analyze_file. intros H. apply bind_some in H.
  destruct H as [st [Hloop H]]. injection H as <-.
  cbn [Checker.report]. rewrite (analyze_loop_report _ _ _ _ Hloop).
  reflexivity.
Qed.

Lemma fold_apply_entry_none (plan : list plan_entry) (st : text * Z) :
  Forall (fun e => snd e = None) plan ->
  fold_left apply_entry plan st = st.
Proof.
  induction 1 as [|[[a b] r] plan Hr _ IH]; [reflexivity|].
  cbn [fold_left]. cbn [snd] in Hr. subst r. exact IH.
Qed.

(** X14: the checker writes a file only under [fix] and only when some
    block of its report carries a message on a missing tag. *)
Theorem no_missing_tag_no_write :
  forall (t : text) (fix_ : bool) (o : Checker.outcome),
    Checker.analyze_file t fix_ = Some o ->
    fix_ = false \/
    Forall (fun r => ~ flagged (str "Missing @") (Checker.r_issues r))
           (Checker.report o) ->
    Checker.written o = None.
Proof.
  intros t fix_ o Ho Hcase.
  pose proof (analyze_file_report _ _ Ho) as Hrep.
  unfold Checker.analyze_file in Ho. apply bind_some in Ho.
  destruct Ho as [st [Hloop Ho]]. injection Ho as <-.
  cbn [Checker.written Checker.report] in *.
  destruct fix_; [|reflexivity].
  destruct Hcase as [F|HF]; [discriminate F|].
  pose proof (analyze_loop_plan _ _ _ _ Hloop) as Hplan.
  cbn [Checker.new_text Checker.offset] in Hplan.
  rewrite fold_apply_entry_none in Hplan.
  - injection Hplan as -> _. rewrite text_eqb_refl. reflexivity.
  - rewrite Hrep in HF. rewrite Forall_map in HF |- *.
    eapply Forall_impl; [|exact HF]. cbn [snd]. intros m Hm.
    unfold checker_replacement. unfold decl_after in Hm.
    destruct (Checker.parse_declaration
                (fst (Checker.get_declaration_after t (Re.m_end m))))
      as [d|]; [|reflexivity].
    unfold block_result in Hm. cbn [Checker.r_issues] in Hm.
    destruct (Checker.insert_lines
                (Checker.extract_tags (Re.group_or_empty t m 1)) d) eqn:E;
      [reflexivity|].
    exfalso. apply Hm. apply insert_lines_flagged.
    rewrite E. discriminate.
Qed.

Lemma no_missing_tag_no_write_witness :
  Checker.analyze_file C9_fixed true = Some X_fixed_outcome /\
  (true = false \/
   Forall (fun r => ~ flagged (str "Missing @") (Checker.r_issues r))
          (Checker.report X_fixed_outcome)) /\
  Checker.written X_fixed_outcome = None.
Proof.
  assert (H : Checker.analyze_file C9_fixed true = Some X_fixed_outcome)
    by (vm_compute; reflexivity).
  assert (H2 : true = false \/
               Forall (fun r => ~ flagged (str "Missing @") (Checker.r_issues r))
                      (Checker.report X_fixed_outcome)).
  { right. constructor; [|constructor].
    cbn [Checker.r_issues]. intros [msg [[] _]]. }
  split; [exact H|]. split; [exact H2|].
  exact (@no_missing_tag_no_write C9_fixed true _ H H2).
Defined.

(** ** The report follows the blocks *)

Lemma count_firstn_mono (c : ascii) (t : text) (p q : nat) :
  p <= q -> Py.count c (firstn p t) <= Py.count c (firstn q t).
Proof.
  intros H. replace q with (p + (q - p)) by lia.
  rewrite firstn_plus, count_app. lia.
Qed.

Lemma spans_nondecreasing (g : nat -> nat) (n : nat) :
  (forall p q, p <= q -> g p <= g q) ->
  forall (ms : list Re.match_obj) (p : nat),
    spans_ok p n ms ->
    Forall (fun y => g p <= y) (map (fun m => g (Re.m_end m)) ms) /\
    nondecreasing (map (fun m => g (Re.m_end m)) ms).
Proof.
  intros Hg. induction ms as [|m ms IH]; intros p H.
  - split; constructor.
  - cbn [spans_ok] in H. destruct H as [H1 [H2 [H3 H4]]].
    destruct (IH _ H4) as [HF Hnd]. cbn [map nondecreasing].
    split; [|split; assumption].
    constructor; [apply Hg; lia|].
    eapply Forall_impl; [|exact HF]. cbn. intros y Hy.
    assert (g p <= g (Re.m_end m)) by (apply Hg; lia). lia.
Qed.

(** X15: the report of [analyze_file] has one entry for each block of the
    text, in source order: the entry carries the number of the line on
    which the block ends, the tags of the block and the first three lines
    of its stripped content, so the line numbers of the report never
    decrease. *)
Theorem report_follows_the_blocks :
  forall (t : text) (fix_ : bool) (o : Checker.outcome),
    Checker.analyze_file t fix_ = Some o ->
    map (fun r => (Checker.r_line r, Checker.r_tags r, Checker.r_excerpt r))
        (Checker.report o)
    = map (fun b => (Py.count NL (firstn (snd (fst b)) t) + 1,
                     Checker.extract_tags (snd b),
                     firstn 3 (Py.splitlines (Py.strip (snd b)))))
          (Checker.extract_scaladoc_blocks t) /\
    nondecreasing (map Checker.r_line (Checker.report o)).
Proof.
  intros t fix_ o Ho. rewrite (analyze_file_report _ _ Ho).
  unfold Checker.extract_scaladoc_blocks. rewrite !map_map.
  split; [reflexivity|].
  cbn [block_result Checker.r_line Checker.get_declaration_after snd].
  apply (@spans_nondecreasing (fun p => Py.count NL (firstn p t) + 1)
           (length t)) with (p := 0).
  - intros p q H. pose proof (@count_firstn_mono NL t p q H). lia.
  - apply finditer_spans.
Qed.

Lemma report_follows_the_blocks_witness :
  Checker.analyze_file X_text false = Some (Checker.Outcome X_report None) /\
  map Checker.r_line X_report = [4; 6] /\
  nondecreasing (map Checker.r_line X_report).
Proof.
  assert (H : Checker.analyze_file X_text false
              = Some (Checker.Outcome X_report None))
    by (vm_compute; reflexivity).
  split; [exact H|]. split; [reflexivity|].
  exact (proj2 (@report_follows_the_blocks X_text false _ H)).
Defined.

(** ** The exit status of the checker *)

Lemma list_sum_zero (xs : list nat) :
  list_sum xs = 0 <-> Forall (fun x => x = 0) xs.
Proof.
  induction xs as [|x xs IH]; simpl.
  - split; [constructor | reflexivity].
  - split.
    + intros H. constructor; [lia|]. apply IH. lia.
    + intros H. inversion H as [|? ? Hx Hxs]; subst. apply IH in Hxs. lia.
Qed.

Lemma gather_in (files : list text) (fix_ : bool) (r : list Checker.result) :
  In r (Checker.gather files fix_) <->
  exists f o, In f files /\ Checker.analyze_file f fix_ = Some o /\
              r = Checker.report o.
Proof.
  induction files as [|f fs IH]; cbn [Checker.gather].
  - split; [intros [] | intros [f [o [[] _]]]].
  - destruct (Checker.analyze_file f fix_) as [o|] eqn:E.
    + cbn [In]. rewrite IH. split.
      * intros [<-|[g [o' [Hg H]]]].
        -- exists f, o. split; [left; reflexivity | split; [exact E | reflexivity]].
        -- exists g, o'. split; [right; exact Hg | exact H].
      * intros [g [o' [[<-|Hg] [H1 H2]]]].
        -- left. rewrite E in H1. injection H1 as <-. symmetry; exact H2.
        -- right. exists g, o'. auto.
    + rewrite IH. split.
      * intros [g [o' [Hg H]]]. exists g, o'. split; [right; exact Hg | exact H].
      * intros [g [o' [[<-|Hg] [H1 H2]]]]; [congruence|].
        exists g, o'. auto.
Qed.

(** X16: when the folder exists, the checker exits with status 0
    exactly when no block of any file has an issue, and with status 1
    otherwise; it exits with status 2 when the folder does not exist. *)
Theorem checker_exit_status_by_issues :
  forall (files : list text) (fix_ : bool),
    Checker.main false files fix_ = 2 /\
    (Checker.main true files fix_ = 0 \/ Checker.main true files fix_ = 1) /\
    (Checker.main true files fix_ = 0 <->
     forall f o r,
       In f files -> Checker.analyze_file f fix_ = Some o ->
       In r (Checker.report o) -> Checker.r_issues r = []).
Proof.
  intros files fix_. unfold Checker.main. cbn [negb].
  split; [reflexivity|].
  destruct (Checker.summarize_reports (Checker.gather files fix_) =? 0) eqn:E.
  - split; [left; reflexivity|]. split; [|reflexivity]. intros _ f o r Hf Ho Hr.
    apply Nat.eqb_eq in E. unfold Checker.summarize_reports in E.
    apply list_sum_zero in E. rewrite Forall_map in E.
    rewrite Forall_forall in E.
    assert (Hg : In (Checker.report o) (Checker.gather files fix_))
      by (apply gather_in; exists f, o; auto).
    specialize (E _ Hg). cbn in E. apply list_sum_zero in E.
    rewrite Forall_map, Forall_forall in E. specialize (E _ Hr).
    apply length_zero_iff_nil. exact E.
  - split; [right; reflexivity|]. split; [discriminate|]. intros H. exfalso.
    apply Nat.eqb_neq in E. apply E. unfold Checker.summarize_reports.
    apply list_sum_zero. rewrite Forall_map, Forall_forall.
    intros rep Hrep. apply gather_in in Hrep.
    destruct Hrep as [f [o [Hf [Ho ->]]]].
    apply list_sum_zero. rewrite Forall_map, Forall_forall.
    intros r Hr. rewrite (H f o r Hf Ho Hr). reflexivity.
Qed.

(** ** Fenced code in the indentation fixer *)

Lemma build_parts_in_code (ws : text) (pre : bool) (closing : text)
  (rest : list text) (body : list text) :
  Forall (fun l => Py.contains (line_content l) (str "}}}") = false) body ->
  Py.contains (line_content closing) (str "}}}") = true ->
  IndentFixer.build_parts ws true pre (body ++ closing :: rest)
  = map (fun l => IndentFixer.emit_preserve ws (line_content l))
        (body ++ [closing])
    ++ IndentFixer.build_parts ws false pre rest.
Proof.
  intros Hb Hc. induction Hb as [|l body Hl _ IH].
  - cbn [app map IndentFixer.build_parts]. fold (line_content closing).
    cbn [negb andb]. rewrite Hc. reflexivity.
  - cbn [app map IndentFixer.build_parts]. fold (line_content l).
    cbn [negb andb]. rewrite Hl. cbn [negb]. rewrite IH. reflexivity.
Qed.

(** X17: the indentation fixer keeps the lines of a fenced code block as
    they are: from a line whose content opens a fence, up to the next line
    whose content holds the end of a fence, every line is emitted by
    [emit_preserve], which keeps the content after the star, and the fence
    is over after that line. *)
Theorem fenced_code_is_preserved :
  forall (ws : text) (pre : bool) (opening : text) (body : list text)
         (closing : text) (rest : list text),
    Py.startswith (Py.lstrip (line_content opening)) (str "{{{") = true ->
    Forall (fun l => Py.contains (line_content l) (str "}}}") = false) body ->
    Py.contains (line_content closing) (str "}}}") = true ->
    IndentFixer.build_parts ws false pre (opening :: body ++ closing :: rest)
    = map (fun l => IndentFixer.emit_preserve ws (line_content l))
          (opening :: body ++ [closing])
      ++ IndentFixer.build_parts ws false pre rest.
Proof.
  intros ws pre opening body closing rest Ho Hb Hc.
  cbn [app map IndentFixer.build_parts]. fold (line_content opening).
  rewrite Ho. cbn [negb andb].
  rewrite (@build_parts_in_code ws pre closing rest body Hb Hc). reflexivity.
Qed.

Lemma fenced_code_is_preserved_witness :
  IndentFixer.build_parts (str "  ") false false
    (str "   * {{{" :: [str "   *   val x  =  1"] ++ str "   * }}}"
     :: [str "   *    end"])
  = [str "   * {{{"; str "   *   val x  =  1"; str "   * }}}";
     str "   *    end"].
Proof.
  assert (Ho : Py.startswith (Py.lstrip (line_content (str "   * {{{")))
                 (str "{{{") = true) by (vm_compute; reflexivity).
  assert (Hb : Forall (fun l => Py.contains (line_content l) (str "}}}") = false)
                 [str "   *   val x  =  1"])
    by (constructor; [vm_compute; reflexivity | constructor]).
  assert (Hc : Py.contains (line_content (str "   * }}}")) (str "}}}") = true)
    by (vm_compute; reflexivity).
  etransitivity;
    [exact (@fenced_code_is_preserved (str "  ") false (str "   * {{{")
              [str "   *   val x  =  1"] (str "   * }}}")
              [str "   *    end"] Ho Hb Hc)
    | vm_compute; reflexivity].
Defined.

(** ** Changes reported and text changed *)

Lemma fix_block_changes (t : text) (normalize_all : bool)
  (st : IndentFixer.loop_state) (m : Re.match_obj) :
  exists st',
    IndentFixer.fix_block t normalize_all st m = Some st' /\
    length (IndentFixer.changes st')
    = length (IndentFixer.changes st)
      + (if rewritten (Re.m_start m, Re.m_end m,
                       fixer_replacement t normalize_all m) then 1 else 0).
Proof.
  unfold IndentFixer.fix_block, fixer_replacement, rewritten. cbn [snd].
  destruct (leading_ws_total (Checker.line_prefix t (Re.m_start m)))
    as [ws ->].
  cbn [bind].
  match goal with |- context [if ?b then Some st else _] => destruct b end;
    [exists st; split; [reflexivity | lia]|].
  match goal with |- context [if ?b then Some st else _] => destruct b end;
    [exists st; split; [reflexivity | lia]|].
  match goal with |- context [if ?b then _ else Some st] => destruct b end;
    [|exists st; split; [reflexivity | lia]].
  destruct (preview_total (Py.slice t (Re.m_start m) (Re.m_end m))) as [p1 ->].
  match goal with |- context [IndentFixer.preview ?b] =>
    destruct (preview_total b) as [p2 ->] end.
  cbn [bind]. eexists; split; [reflexivity|].
  cbn [IndentFixer.changes]. rewrite length_app. reflexivity.
Qed.

Lemma fix_loop_changes (t : text) (normalize_all : bool)
  (ms : list Re.match_obj) :
  forall st st',
    IndentFixer.fix_loop t normalize_all st ms = Some st' ->
    length (IndentFixer.changes st')
    = length (IndentFixer.changes st)
      + length (filter rewritten
                  (map (fun m => (Re.m_start m, Re.m_end m,
                                  fixer_replacement t normalize_all m)) ms)).
Proof.
  induction ms as [|m ms IH]; intros st st' H;
    cbn [IndentFixer.fix_loop map filter] in H |- *.
  - injection H as <-. cbn [length]. lia.
  - destruct (fix_block_changes t normalize_all st m) as [st1 [E L]].
    rewrite E in H. cbn [bind] in H. rewrite (IH _ _ H), L.
    destruct (rewritten _); cbn [length]; lia.
Qed.

Lemma filter_nil_forall {A : Type} (f : A -> bool) (l : list A) :
  length (filter f l) = 0 <-> Forall (fun x => f x = false) l.
Proof.
  induction l as [|x l IH]; cbn [filter].
  - split; [constructor | reflexivity].
  - destruct (f x) eqn:E; cbn [length].
    + split; [discriminate|]. intros H. inversion H; congruence.
    + rewrite IH. split; [constructor; assumption|].
      intros H. inversion H; assumption.
Qed.

Lemma app_same_length {A : Type} (x y a b : list A) :
  length x = length y -> x ++ a = y ++ b -> x = y /\ a = b.
Proof.
  revert y. induction x as [|c x IH]; intros [|d y] L E;
    try discriminate L.
  - split; [reflexivity | exact E].
  - cbn in E. injection E as -> E. cbn in L.
    destruct (IH y (eq_add_S _ _ L) E) as [-> ->]. split; reflexivity.
Qed.

(** A pass that replaces a block by a different well-closed block does
    not give back the text. *)
Lemma spliced_same (t : text) (plan : list plan_entry) :
  forall from,
    plan_ok from (length t) plan ->
    Forall closed_entry plan ->
    Forall (fun e => block_len (skipn (fst (fst e)) t)
                     = Some (snd (fst e) - fst (fst e))) plan ->
    Forall (fun e => forall r, snd e = Some r ->
                     r <> Py.slice t (fst (fst e)) (snd (fst e))) plan ->
    spliced t from plan = skipn from t ->
    Forall (fun e => rewritten e = false) plan.
Proof.
  induction plan as [|[[a b] r] plan IH]; intros from Hok Hc Hb Hd E;
    [constructor|].
  cbn [plan_ok] in Hok. destruct Hok as [H1 [H2 [H3 H4]]].
  inversion Hc as [|? ? Hc1 Hc2]; subst.
  inversion Hb as [|? ? Hb1 Hb2]; subst.
  inversion Hd as [|? ? Hd1 Hd2]; subst.
  cbn [fst snd] in *.
  cbn [spliced fst snd] in E.
  rewrite <- (@slice_skipn t from a H1) in E.
  apply app_inv_head in E.
  rewrite <- (@slice_skipn t a b H2) in E.
  assert (Hlen : length (Py.slice t a b) = b - a)
    by (apply slice_length; assumption).
  destruct r as [repl|].
  - exfalso. cbn [entry_text] in E.
    unfold closed_entry in Hc1. cbn [snd] in Hc1.
    pose proof (well_closed_app repl (spliced t b plan) Hc1) as Hw.
    rewrite E, slice_skipn, Hb1 in Hw by assumption.
    injection Hw as Hw.
    destruct (@app_same_length _ repl (Py.slice t a b) _ _
                (eq_trans (eq_sym Hw) (eq_sym Hlen)) E) as [Hr _].
    exact (Hd1 repl eq_refl Hr).
  - cbn [entry_text] in E. apply app_inv_head in E.
    constructor; [reflexivity|].
    exact (IH b H4 Hc2 Hb2 Hd2 E).
Qed.

Lemma fixer_plan_blocks (t : text) (normalize_all : bool) :
  Forall (fun e => block_len (skipn (fst (fst e)) t)
                   = Some (snd (fst e) - fst (fst e)))
         (fixer_plan t normalize_all).
Proof.
  unfold fixer_plan, IndentFixer.SCALADOC_RE, Re.finditer.
  rewrite finditer_from_scaladoc, map_map, Forall_map.
  apply Forall_forall. intros [a b] H. cbn [fst snd block_match Re.m_start
    Re.m_end].
  apply blocks_from_in in H. destruct H as [k [-> Hk]]. exact Hk.
Qed.

Lemma fixer_plan_differs (t : text) (normalize_all : bool) :
  Forall (fun e => forall r, snd e = Some r ->
                   r <> Py.slice t (fst (fst e)) (snd (fst e)))
         (fixer_plan t normalize_all).
Proof.
  unfold fixer_plan. rewrite Forall_map. apply Forall_forall.
  intros m _ r. cbn [fst snd]. unfold fixer_replacement.
  destruct (Checker.leading_ws_of _) as [ws|]; [|discriminate].
  repeat match goal with
         | |- (if ?b then _ else _) = _ -> _ => destruct b eqn:?
         end; try discriminate.
  intros E. injection E as <-. intros F.
  match goal with H : negb (text_eqb _ _) = true |- _ =>
    rewrite F, text_eqb_refl in H; discriminate H end.
Qed.

(** What [analyze_and_fix_text] returns, in terms of the plan. *)
Lemma analyze_and_fix_text_plan (t : text) (normalize_all : bool) :
  exists ch,
    IndentFixer.analyze_and_fix_text t normalize_all
    = Some (spliced t 0 (fixer_plan t normalize_all), ch) /\
    length ch = length (filter rewritten (fixer_plan t normalize_all)).
Proof.
  unfold IndentFixer.analyze_and_fix_text.
  destruct (fix_loop_plan t normalize_all
              (Re.finditer IndentFixer.SCALADOC_RE t)
              (IndentFixer.LoopState t 0%Z [])) as [st [Hst Hrun]].
  rewrite Hst. cbn [bind].
  pose proof (fix_loop_changes _ _ _ _ Hst) as Hch.
  cbn [IndentFixer.changes length Nat.add] in Hch.
  cbn [IndentFixer.new_text IndentFixer.offset] in Hrun.
  destruct (plan_pass t (fixer_replacement t normalize_all)) as [Hsp _].
  unfold run_plan in Hsp. unfold IndentFixer.SCALADOC_RE in Hrun.
  rewrite Hsp in Hrun. injection Hrun as Hn _.
  exists (IndentFixer.changes st). rewrite Hn. split; [reflexivity|].
  exact Hch.
Qed.

Lemma fixer_changes_spec (t t' : text) (normalize_all : bool)
  (ch : list IndentFixer.change) :
  IndentFixer.analyze_and_fix_text t normalize_all = Some (t', ch) ->
  (ch = [] <-> t' = t) /\
  length ch <= length (Re.finditer IndentFixer.SCALADOC_RE t) /\
  length (Re.finditer IndentFixer.SCALADOC_RE t')
  = length (Re.finditer IndentFixer.SCALADOC_RE t).
Proof.
  intros H.
  destruct (analyze_and_fix_text_plan t normalize_all) as [ch' [E L]].
  rewrite E in H. injection H as <- <-.
  assert (Hok : plan_ok 0 (length t) (fixer_plan t normalize_all))
    by (apply spans_plan_ok, finditer_spans).
  split; [split|split].
  - intros Hnil. rewrite Hnil in L. cbn [length] in L. symmetry in L.
    apply filter_nil_forall in L.
    pose proof (@run_plan_spliced t _ Hok) as Hrun.
    unfold run_plan in Hrun. rewrite fold_apply_entry_none in Hrun.
    + injection Hrun as <- _. reflexivity.
    + eapply Forall_impl; [|exact L]. intros [[a b] [r|]]; cbn;
        [discriminate | reflexivity].
  - intros Hsame.
    assert (HF : Forall (fun e => rewritten e = false)
                   (fixer_plan t normalize_all)).
    { apply (@spliced_same t _ 0 Hok).
      - apply fixer_plan_closed.
      - apply fixer_plan_blocks.
      - apply fixer_plan_differs.
      - exact Hsame. }
    apply filter_nil_forall in HF. rewrite HF in L.
    destruct ch'; [reflexivity | discriminate L].
  - rewrite L. etransitivity; [apply filter_length_le|].
    unfold fixer_plan. rewrite length_map. apply le_n.
  - destruct (plan_pass t (fixer_replacement t normalize_all)) as [_ Hre].
    pose proof (fixer_plan_closed t normalize_all) as Hc.
    unfold fixer_plan, IndentFixer.SCALADOC_RE in Hc |- *.
    specialize (Hre Hc).
    apply (f_equal (@length _)) in Hre. unfold rescan in Hre.
    rewrite length_map in Hre. rewrite Hre. clear.
    assert (G : forall plan sh,
               length (expected_blocks t sh plan) = length plan).
    { induction plan as [|e plan IH]; intros sh; cbn [expected_blocks length];
        [reflexivity | rewrite IH; reflexivity]. }
    rewrite G. apply length_map.
Qed.

(** X18: the indentation fixer reports a change exactly when the text
    it returns differs from the text it was given; it reports at most one
    change for each block, and the returned text has as many blocks as the
    given one. *)
Theorem changes_reported_iff_text_changed :
  forall (t t' : text) (normalize_all : bool) (ch : list IndentFixer.change),
    IndentFixer.analyze_and_fix_text t normalize_all = Some (t', ch) ->
    (ch = [] <-> t' = t) /\
    length ch <= length (Re.finditer IndentFixer.SCALADOC_RE t) /\
    length (Re.finditer IndentFixer.SCALADOC_RE t')
    = length (Re.finditer IndentFixer.SCALADOC_RE t).
Proof. intros t t' n ch H. exact (fixer_changes_spec _ _ H). Qed.

Lemma changes_reported_iff_text_changed_witness :
  IndentFixer.analyze_and_fix_text C3_input false
  = Some (C3_once, [(1, str "/**", str "/**")]) /\
  ([(1, str "/**", str "/**")] = [] <-> C3_once = C3_input) /\
  1 <= length (Re.finditer IndentFixer.SCALADOC_RE C3_input) /\
  length (Re.finditer IndentFixer.SCALADOC_RE C3_once)
  = length (Re.finditer IndentFixer.SCALADOC_RE C3_input).
Proof.
  assert (H : IndentFixer.analyze_and_fix_text C3_input false
              = Some (C3_once, [(1, str "/**", str "/**")]))
    by (vm_compute; reflexivity).
  split; [exact H|].
  exact (@changes_reported_iff_text_changed C3_input C3_once false _ H).
Defined.

(** ** The exit status of the indentation fixer, and [process_file] *)

Lemma changed_files_nil (files : list text) (normalize_all : bool) :
  IndentFixer.changed_files files normalize_all = [] <->
  forall f, In f files ->
            IndentFixer.analyze_and_fix_text f normalize_all = Some (f, []).
Proof.
  induction files as [|f fs IH]; cbn [IndentFixer.changed_files].
  - split; [intros _ f [] | reflexivity].
  - destruct (analyze_and_fix_text_plan f normalize_all) as [ch [E L]].
    pose proof (fixer_changes_spec _ _ E) as [Hiff _].
    rewrite E. destruct ch as [|c ch]; cbn [nonempty].
    + rewrite IH. split.
      * intros H g [<-|Hg]; [|exact (H g Hg)].
        rewrite E. rewrite (proj1 Hiff eq_refl). reflexivity.
      * intros H g Hg. apply H. right; exact Hg.
    + split; [discriminate|]. intros H. exfalso.
      specialize (H f (or_introl eq_refl)). rewrite E in H.
      discriminate H.
Qed.

(** X19: the indentation fixer exits with status 2 when the folder does
    not exist and with status 0 after a run with [fix]; a dry run exits
    with status 0 exactly when every file comes back from
    [analyze_and_fix_text] as it is, with no change, and with status 1
    otherwise. *)
Theorem fixer_exit_status_by_changes :
  forall (files : list text) (fix_ normalize_all : bool),
    IndentFixer.main false files fix_ normalize_all = 2 /\
    IndentFixer.main true files true normalize_all = 0 /\
    (IndentFixer.main true files false normalize_all = 0 \/
     IndentFixer.main true files false normalize_all = 1) /\
    (IndentFixer.main true files false normalize_all = 0 <->
     forall f, In f files ->
               IndentFixer.analyze_and_fix_text f normalize_all
               = Some (f, [])).
Proof.
  intros files fix_ normalize_all. unfold IndentFixer.main. cbn [negb andb].
  split; [reflexivity|]. split; [reflexivity|].
  rewrite <- changed_files_nil.
  destruct (IndentFixer.changed_files files normalize_all); cbn [nonempty].
  - split; [left; reflexivity|]. split; reflexivity.
  - split; [right; reflexivity|]. split; discriminate.
Qed.

(** X20: [process_file] never raises; it counts at most one change for
    each block examined; it writes the file exactly when run with [fix] on
    a text with a change, and what it writes differs from the text read and
    has as many blocks. *)
Theorem process_file_counts_and_writes :
  forall (t : text) (fix_ normalize_all : bool),
    exists (w : option text) (examined changed : nat),
      process_file t fix_ normalize_all = Some (w, (examined, changed)) /\
      changed <= examined /\
      (w = None <-> fix_ = false \/ changed = 0) /\
      (forall t', w = Some t' ->
                  t' <> t /\
                  length (Re.finditer IndentFixer.SCALADOC_RE t') = examined).
Proof.
  intros t fix_ normalize_all. unfold process_file.
  destruct (analyze_and_fix_text_plan t normalize_all) as [ch [E L]].
  pose proof (fixer_changes_spec _ _ E) as [Hiff [Hle Hsame]].
  rewrite E. cbn [bind fst snd].
  eexists _, _, _. split; [reflexivity|]. split; [exact Hle|].
  destruct ch as [|c ch]; cbn [nonempty andb length].
  - split; [split; [intros _; right; reflexivity | reflexivity]|].
    intros t' F; discriminate F.
  - destruct fix_.
    + split.
      * split; [discriminate | intros [F|F]; discriminate F].
      * intros t' F. injection F as <-. split; [|exact Hsame].
        intros F. apply Hiff in F. discriminate F.
    + split; [split; [intros _; left; reflexivity | reflexivity]|].
      intros t' F; discriminate F.
Qed.

(** ** The trackers of check_docs *)

Lemma process_line_ok (line : text) (f : bool) (b : CheckDocs.brace_tracker) :
  tracker_ok (CheckDocs.process_line line f b).
Proof.
  unfold CheckDocs.process_line, tracker_ok.
  match goal with |- context [if ?c then CheckDocs.BraceTracker 0 false else _] =>
    destruct c eqn:E end; cbn [CheckDocs.depth CheckDocs.in_method_body].
  - split; [lia | discriminate].
  - apply Z.leb_gt in E. split; [lia | intros _; lia].
Qed.

Lemma step_braces (lines : list text) (st : CheckDocs.scan_state)
  (il : nat * text) :
  CheckDocs.braces (CheckDocs.step lines st il) = CheckDocs.braces st \/
  exists f, CheckDocs.braces (CheckDocs.step lines st il)
            = CheckDocs.process_line (snd il) f (CheckDocs.braces st).
Proof.
  destruct il as [i line]. unfold CheckDocs.step. cbn [snd].
  repeat match goal with
  | |- context [if ?c then CheckDocs.ScanState _ _ _ _ else _] => destruct c
  | |- context [match Re.rmatch ?p ?l with Some _ => CheckDocs.ScanState _ _ _ _ | None => _ end] =>
      destruct (Re.rmatch p l)
  end; cbn [CheckDocs.braces]; eauto.
Qed.

(** An invariant of the scan carries over from the initial state to the
    state after any number of lines. *)
Lemma state_after_ind (lines : list text) (P : CheckDocs.scan_state -> Prop) :
  P CheckDocs.init_state ->
  (forall st k l, nth_error lines k = Some l -> P st ->
                  P (CheckDocs.step lines st (k, l))) ->
  forall k, P (CheckDocs.state_after lines k).
Proof.
  intros H0 HS. induction k as [|k IH]; [exact H0|].
  destruct (nth_error lines k) as [l|] eqn:E.
  - rewrite (state_after_S _ _ E). apply (HS _ _ _ E IH).
  - apply nth_error_None in E.
    rewrite state_after_end by lia.
    rewrite <- (@state_after_end lines k) by lia. exact IH.
Qed.

(** X21: after any number of lines of [analyze_file], the depth of the
    brace tracker is not negative, and its method-body flag is only up at a
    positive depth: the flag falls whenever the depth comes back to zero. *)
Theorem brace_depth_never_negative :
  forall (lines : list text) (k : nat),
    tracker_ok (CheckDocs.braces (CheckDocs.state_after lines k)).
Proof.
  intros lines. apply (@state_after_ind lines (fun st => tracker_ok (CheckDocs.braces st))).
  - split; cbn; [lia | discriminate].
  - intros st k l _ H.
    destruct (step_braces lines st (k, l)) as [-> | [f ->]];
      [exact H | apply process_line_ok].
Qed.

Lemma pop_exited_descending (i : nat) (stk : list CheckDocs.frame) :
  descending (map fst stk) ->
  descending (map fst (CheckDocs.pop_exited i stk)) /\
  Forall (fun y => y < i) (map fst (CheckDocs.pop_exited i stk)).
Proof.
  induction stk as [|[lvl v] below IH]; intros H.
  - split; constructor.
  - cbn [CheckDocs.pop_exited]. destruct H as [Hlt Hd].
    destruct (i <=? lvl) eqn:E.
    + apply IH; exact Hd.
    + apply Nat.leb_gt in E. split; [split; assumption|].
      cbn [map fst]. constructor; [exact E|].
      eapply Forall_impl; [|exact Hlt]. cbn; intros; lia.
Qed.

Lemma step_stack (lines : list text) (st : CheckDocs.scan_state)
  (i : nat) (line : text) :
  CheckDocs.stack (CheckDocs.step lines st (i, line))
  = CheckDocs.update_for_line line (CheckDocs.stack st) \/
  (nonempty (Py.strip line) = true /\
   exists v, CheckDocs.stack (CheckDocs.step lines st (i, line))
             = CheckDocs.enter_container (CheckDocs.indent_of line) v
                 (CheckDocs.update_for_line line (CheckDocs.stack st))).
Proof.
  unfold CheckDocs.step.
  destruct (Py.contains (Py.strip line) (str "*/")); [left; reflexivity|].
  match goal with |- context [if ?c then CheckDocs.ScanState _ _ _ _ else _] =>
    destruct c end; [left; reflexivity|].
  destruct (nonempty (Py.strip line)) eqn:Hne; cbn [negb orb];
    [|left; reflexivity].
  destruct (Py.startswith (Py.strip line) (str "//")); [left; reflexivity|].
  destruct (Re.rmatch CheckDocs.class_pattern line).
  { right. split; [reflexivity|]. eexists. reflexivity. }
  left.
  repeat match goal with
  | |- context [if ?c then CheckDocs.ScanState _ _ _ _ else _] => destruct c
  | |- context [match Re.rmatch ?p ?l with Some _ => CheckDocs.ScanState _ _ _ _ | None => _ end] =>
      destruct (Re.rmatch p l)
  end; reflexivity.
Qed.

(** X22: after any number of lines of [analyze_file], the indentation
    levels on the stack of the visibility tracker strictly decrease from
    the top of the stack to its bottom: a container is only pushed above
    containers that start further left. *)
Theorem container_stack_descending :
  forall (lines : list text) (k : nat),
    descending (map fst (CheckDocs.stack (CheckDocs.state_after lines k))).
Proof.
  intros lines.
  apply (@state_after_ind lines
           (fun st => descending (map fst (CheckDocs.stack st)))).
  - exact I.
  - intros st k l _ H.
    destruct (step_stack lines st k l) as [-> | [Hne [v ->]]].
    + unfold CheckDocs.update_for_line.
      destruct (negb (nonempty (Py.strip l))); [exact H|].
      apply pop_exited_descending; exact H.
    + unfold CheckDocs.update_for_line, CheckDocs.enter_container.
      rewrite Hne. cbn [negb map fst].
      destruct (pop_exited_descending (CheckDocs.indent_of l) _ H) as [Hd Hlt].
      split; assumption.
Qed.

(** ** What check_docs reports *)

Lemma report_if_undocumented_new (lines : list text) (i : nat)
  (ty nm stripped : text) (und : list CheckDocs.entry) :
  exists new,
    CheckDocs.report_if_undocumented lines i ty nm stripped und = und ++ new /\
    Forall (fun e => CheckDocs.is_documented lines i = false /\
                     e = CheckDocs.Entry (i + 1) ty nm (firstn 80 stripped))
           new.
Proof.
  unfold CheckDocs.report_if_undocumented.
  destruct (CheckDocs.is_documented lines i); cbn [negb].
  - exists []; split; [symmetry; apply app_nil_r | constructor].
  - eexists; split; [reflexivity|]. constructor; [split; reflexivity | constructor].
Qed.

(** One round of the loop appends to [undocumented] only entries that
    satisfy [reported]. *)
Lemma step_reports (lines : list text) (st : CheckDocs.scan_state)
  (i : nat) (line : text) :
  exists new,
    CheckDocs.undocumented (CheckDocs.step lines st (i, line))
    = CheckDocs.undocumented st ++ new /\
    Forall (reported lines i line) new.
Proof.
  assert (Hnil : forall u : list CheckDocs.entry,
             exists new, u = u ++ new /\ Forall (reported lines i line) new).
  { intros u; exists []; split; [symmetry; apply app_nil_r | constructor]. }
  unfold CheckDocs.step.
  destruct (Py.contains (Py.strip line) (str "*/")) eqn:Hclose;
    [apply Hnil|].
  match goal with |- context [if ?c then CheckDocs.ScanState _ _ _ _ else _] =>
    destruct c end; [apply Hnil|].
  destruct (nonempty (Py.strip line)) eqn:Hne; cbn [negb orb]; [|apply Hnil].
  destruct (Py.startswith (Py.strip line) (str "//")) eqn:Hcom; [apply Hnil|].
  assert (Hrep : forall ty nm e,
             classified line (CheckDocs.Entry (i + 1) ty nm
                                (firstn 80 (Py.strip line))) ->
             CheckDocs.should_check_docs (CheckDocs.get_visibility line) = true ->
             CheckDocs.is_documented lines i = false /\
             e = CheckDocs.Entry (i + 1) ty nm (firstn 80 (Py.strip line)) ->
             reported lines i line e).
  { intros ty nm e Hcl Hv [Hd ->]. unfold reported.
    cbn [CheckDocs.e_line CheckDocs.e_content]. repeat split; auto. }
  destruct (Re.rmatch CheckDocs.class_pattern line) as [cm|] eqn:Hcm.
  { cbn [CheckDocs.undocumented].
    destruct (CheckDocs.should_check_docs (CheckDocs.get_visibility line)) eqn:Hv;
      cbn [andb]; [|apply Hnil].
    match goal with |- context [if ?c then _ else _] => destruct c end;
      [|apply Hnil].
    match goal with |- context [CheckDocs.report_if_undocumented ?a ?b ?c ?d ?e ?f] =>
      destruct (report_if_undocumented_new a b c d e f) as [new [-> HF]] end.
    exists new; split; [reflexivity|].
    eapply Forall_impl; [|exact HF]. intros e He.
    refine (Hrep _ _ e _ eq_refl He). unfold classified. rewrite Hcm.
    split; reflexivity. }
  destruct (Re.rmatch CheckDocs.def_pattern line) as [dm|] eqn:Hdm.
  { match goal with |- context [if ?c then CheckDocs.ScanState _ _ _ _ else _] =>
      destruct c end; [apply Hnil|].
    cbn [CheckDocs.undocumented].
    destruct (CheckDocs.should_check_docs (CheckDocs.get_visibility line)) eqn:Hv;
      [|apply Hnil].
    match goal with |- context [CheckDocs.report_if_undocumented ?a ?b ?c ?d ?e ?f] =>
      destruct (report_if_undocumented_new a b c d e f) as [new [-> HF]] end.
    exists new; split; [reflexivity|].
    eapply Forall_impl; [|exact HF]. intros e He.
    refine (Hrep _ _ e _ eq_refl He). unfold classified. rewrite Hcm, Hdm.
    split; reflexivity. }
  match goal with |- context [if ?c then CheckDocs.ScanState _ _ _ _ else _] =>
    destruct c end; [apply Hnil|].
  match goal with |- context [if ?c then CheckDocs.ScanState _ _ _ _ else _] =>
    destruct c end; [apply Hnil|].
  destruct (CheckDocs.should_check_docs (CheckDocs.get_visibility line)) eqn:Hv;
    cbn [negb]; [|apply Hnil].
  cbn [CheckDocs.undocumented].
  assert (Hval : exists n1,
     match Re.rmatch CheckDocs.val_pattern line with
     | Some val_match =>
         CheckDocs.report_if_undocumented lines i (str "val")
           (Re.group_or_empty line val_match 1) (Py.strip line)
           (CheckDocs.undocumented st)
     | None => CheckDocs.undocumented st
     end = CheckDocs.undocumented st ++ n1
     /\ Forall (reported lines i line) n1).
  { destruct (Re.rmatch CheckDocs.val_pattern line) as [vm|] eqn:Hvm;
      [|apply Hnil].
    match goal with |- context [CheckDocs.report_if_undocumented ?a ?b ?c ?d ?e ?f] =>
      destruct (report_if_undocumented_new a b c d e f) as [new [-> HF]] end.
    exists new; split; [reflexivity|].
    eapply Forall_impl; [|exact HF]. intros e He.
    refine (Hrep _ _ e _ eq_refl He). unfold classified. rewrite Hcm, Hdm.
    left. exists vm. split; [exact Hvm | split; reflexivity]. }
  destruct Hval as [n1 [-> H1]].
  destruct (Re.rmatch CheckDocs.var_pattern line) as [wm|] eqn:Hwm.
  - match goal with |- context [CheckDocs.report_if_undocumented ?a ?b ?c ?d ?e ?f] =>
      destruct (report_if_undocumented_new a b c d e f) as [n2 [-> H2]] end.
    exists (n1 ++ n2). rewrite app_assoc. split; [reflexivity|].
    apply Forall_app; split; [exact H1|].
    eapply Forall_impl; [|exact H2]. intros e He.
    refine (Hrep _ _ e _ eq_refl He). unfold classified. rewrite Hcm, Hdm.
    right. exists wm. split; [exact Hwm | split; reflexivity].
  - exists n1; split; [reflexivity | exact H1].
Qed.

(** Every entry of the list after [j] lines was appended for one of these
    lines, and no entry for an earlier line follows one for a later line. *)
Lemma undocumented_reported (lines : list text) (j : nat) :
  Forall (fun e => exists k l, k < j /\ nth_error lines k = Some l /\
                               reported lines k l e)
         (CheckDocs.undocumented (CheckDocs.state_after lines j)) /\
  nondecreasing (map CheckDocs.e_line
                   (CheckDocs.undocumented (CheckDocs.state_after lines j))).
Proof.
  induction j as [|j [IH1 IH2]]; [split; constructor|].
  destruct (nth_error lines j) as [l|] eqn:E.
  - rewrite (state_after_S _ _ E).
    destruct (step_reports lines (CheckDocs.state_after lines j) j l)
      as [new [-> HF]].
    split.
    + apply Forall_app; split.
      * eapply Forall_impl; [|exact IH1]. cbn.
        intros e [k [l' [Hk H]]]. exists k, l'. split; [lia | exact H].
      * eapply Forall_impl; [|exact HF]. cbn.
        intros e H. exists j, l. split; [lia|]. split; assumption.
    + assert (Hold : Forall (fun y => y <= j)
                       (map CheckDocs.e_line
                          (CheckDocs.undocumented
                             (CheckDocs.state_after lines j)))).
      { rewrite Forall_map. eapply Forall_impl; [|exact IH1]. cbn.
        intros e [k [l' [Hk [_ [Hl _]]]]]. lia. }
      assert (Hnew : Forall (fun y => y = j + 1) (map CheckDocs.e_line new)).
      { rewrite Forall_map. eapply Forall_impl; [|exact HF]. cbn.
        intros e [Hl _]. exact Hl. }
      rewrite map_app.
      revert IH2 Hold.
      generalize (map CheckDocs.e_line
                    (CheckDocs.undocumented (CheckDocs.state_after lines j))).
      intros old. induction old as [|x old IHo]; intros Hnd Hold.
      * cbn [app]. clear -Hnew.
        induction (map CheckDocs.e_line new) as [|y ys IHy]; [exact I|].
        inversion Hnew; subst. split; [|apply IHy; assumption].
        eapply Forall_impl; [|eassumption]. cbn; intros; lia.
      * cbn [app nondecreasing]. destruct Hnd as [Hx Hnd].
        inversion Hold; subst. split; [|apply IHo; assumption].
        apply Forall_app; split; [exact Hx|].
        eapply Forall_impl; [|exact Hnew]. cbn; intros; lia.
  - apply nth_error_None in E.
    rewrite state_after_end by lia.
    rewrite <- (@state_after_end lines j) by lia.
    split; [|exact IH2].
    eapply Forall_impl; [|exact IH1]. cbn.
    intros e [k [l' [Hk H]]]. exists k, l'. split; [lia | exact H].
Qed.

Lemma analyze_file_reported (lines : list text) (e : CheckDocs.entry) :
  In e (CheckDocs.analyze_file lines) ->
  exists k l, k < length lines /\ nth_error lines k = Some l /\
              reported lines k l e.
Proof.
  rewrite analyze_file_state_after. intros H.
  destruct (undocumented_reported lines (length lines)) as [HF _].
  rewrite Forall_forall in HF. exact (HF e H).
Qed.

Lemma reported_line (lines : list text) (k : nat) (l : text)
  (e : CheckDocs.entry) :
  reported lines k l e -> CheckDocs.e_line e - 1 = k /\ 1 <= CheckDocs.e_line e.
Proof. intros [H _]. lia. Qed.

(** X23: every entry of the report of [analyze_file] carries the number of
    a line of the file, counted from one, and its content is the first 80
    characters of that line, stripped. *)
Theorem entry_points_to_its_line :
  forall (lines : list text) (e : CheckDocs.entry),
    In e (CheckDocs.analyze_file lines) ->
    1 <= CheckDocs.e_line e <= length lines /\
    exists l,
      nth_error lines (CheckDocs.e_line e - 1) = Some l /\
      CheckDocs.e_content e = firstn 80 (Py.strip l) /\
      length (CheckDocs.e_content e) <= 80.
Proof.
  intros lines e H.
  destruct (analyze_file_reported lines e H) as [k [l [Hk [Hl Hr]]]].
  destruct (reported_line Hr) as [E H1]. rewrite E.
  split; [lia|]. exists l. split; [exact Hl|].
  destruct Hr as [_ [Hc _]]. split; [exact Hc|].
  rewrite Hc. apply firstn_le_length.
Qed.

Lemma entry_points_to_its_line_witness :
  In X_entry (CheckDocs.analyze_file X_lines) /\
  1 <= CheckDocs.e_line X_entry <= length X_lines /\
  exists l,
    nth_error X_lines (CheckDocs.e_line X_entry - 1) = Some l /\
    CheckDocs.e_content X_entry = firstn 80 (Py.strip l) /\
    length (CheckDocs.e_content X_entry) <= 80.
Proof.
  assert (H : In X_entry (CheckDocs.analyze_file X_lines))
    by (vm_compute; right; left; reflexivity).
  split; [exact H | exact (@entry_points_to_its_line X_lines X_entry H)].
Defined.

(** X24: an entry of the report stands for a line that is not documented,
    whose visibility is public or protected, and that is neither blank,
    nor a line comment, nor a line that holds the end of a comment. *)
Theorem entry_is_undocumented_and_visible :
  forall (lines : list text) (e : CheckDocs.entry),
    In e (CheckDocs.analyze_file lines) ->
    exists l,
      nth_error lines (CheckDocs.e_line e - 1) = Some l /\
      CheckDocs.is_documented lines (CheckDocs.e_line e - 1) = false /\
      CheckDocs.should_check_docs (CheckDocs.get_visibility l) = true /\
      Py.contains (Py.strip l) (str "*/") = false /\
      Py.strip l <> [] /\
      Py.startswith (Py.strip l) (str "//") = false.
Proof.
  intros lines e H.
  destruct (analyze_file_reported lines e H) as [k [l [Hk [Hl Hr]]]].
  destruct (reported_line Hr) as [E H1]. rewrite E.
  exists l. split; [exact Hl|].
  destruct Hr as [_ [_ [Hd [Hv [Hc [Hn [Hs _]]]]]]].
  repeat split; auto. apply nonempty_true; exact Hn.
Qed.

Lemma entry_is_undocumented_and_visible_witness :
  In X_entry (CheckDocs.analyze_file X_lines) /\
  exists l,
    nth_error X_lines (CheckDocs.e_line X_entry - 1) = Some l /\
    CheckDocs.is_documented X_lines (CheckDocs.e_line X_entry - 1) = false /\
    CheckDocs.should_check_docs (CheckDocs.get_visibility l) = true /\
    Py.contains (Py.strip l) (str "*/") = false /\
    Py.strip l <> [] /\
    Py.startswith (Py.strip l) (str "//") = false.
Proof.
  assert (H : In X_entry (CheckDocs.analyze_file X_lines))
    by (vm_compute; right; left; reflexivity).
  split; [exact H | exact (@entry_is_undocumented_and_visible X_lines X_entry H)].
Defined.

(** X25: the type and the name of an entry are read off its line by the
    first pattern that matches, in the order class, def, then val and var:
    a line that the class pattern matches is never reported as a def, and
    a line that the class or the def pattern matches never as a val or a
    var. *)
Theorem entry_classified_by_first_pattern :
  forall (lines : list text) (e : CheckDocs.entry),
    In e (CheckDocs.analyze_file lines) ->
    exists l,
      nth_error lines (CheckDocs.e_line e - 1) = Some l /\ classified l e.
Proof.
  intros lines e H.
  destruct (analyze_file_reported lines e H) as [k [l [Hk [Hl Hr]]]].
  destruct (reported_line Hr) as [E H1]. rewrite E.
  exists l. split; [exact Hl|]. apply Hr.
Qed.

Lemma entry_classified_by_first_pattern_witness :
  In X_entry (CheckDocs.analyze_file X_lines) /\
  exists l,
    nth_error X_lines (CheckDocs.e_line X_entry - 1) = Some l /\
    classified l X_entry.
Proof.
  assert (H : In X_entry (CheckDocs.analyze_file X_lines))
    by (vm_compute; right; left; reflexivity).
  split; [exact H | exact (@entry_classified_by_first_pattern X_lines X_entry H)].
Defined.

(** X26: the entries of the report are in the order of the lines of the
    file. *)
Theorem entries_in_line_order :
  forall lines : list text,
    nondecreasing (map CheckDocs.e_line (CheckDocs.analyze_file lines)).
Proof.
  intros lines. rewrite analyze_file_state_after.
  apply undocumented_reported.
Qed.

(** ** The backward walk of [is_documented] *)

Lemma walk_skips (mid before : list text) :
  Forall (fun l => skippable l = true) mid ->
  CheckDocs.walk false (mid ++ before) = CheckDocs.walk false before.
Proof.
  induction 1 as [|l mid Hl _ IH]; [reflexivity|].
  cbn [app CheckDocs.walk]. unfold skippable in Hl.
  destruct (nonempty (Py.strip l)); cbn [negb orb] in Hl |- *; [|exact IH].
  destruct (Py.startswith (Py.strip l) (str "//")); [exact IH|].
  cbn [orb] in Hl. rewrite Hl. exact IH.
Qed.

(** X27: blank lines, line comments and annotations directly above a
    declaration do not change whether it counts as documented. *)
Theorem is_documented_skips_blank_comment_annotation :
  forall (pre mid post : list text),
    Forall (fun l => skippable l = true) mid ->
    CheckDocs.is_documented (pre ++ mid ++ post) (length pre + length mid)
    = CheckDocs.is_documented (pre ++ post) (length pre).
Proof.
  intros pre mid post H. unfold CheckDocs.is_documented.
  rewrite app_assoc.
  rewrite <- (length_app pre mid).
  rewrite !firstn_length_app.
  rewrite rev_app_distr. apply walk_skips.
  apply Forall_rev. exact H.
Qed.

Lemma is_documented_skips_blank_comment_annotation_witness :
  Forall (fun l => skippable l = true)
         [str "  @inline
"; str "
"; str "  // note
"] /\
  CheckDocs.is_documented
    ([str "  /** Doc. */
"] ++ [str "  @inline
"; str "
"; str "  // note
"] ++ [str "  def f: Int = 1
"]) (1 + 3)
  = CheckDocs.is_documented
      ([str "  /** Doc. */
"] ++ [str "  def f: Int = 1
"]) 1.
Proof.
  assert (H : Forall (fun l => skippable l = true)
                [str "  @inline
"; str "
"; str "  // note
"]) by (repeat constructor).
  split; [exact H|].
  exact (@is_documented_skips_blank_comment_annotation
           [str "  /** Doc. */
"] _ [str "  def f: Int = 1
"] H).
Defined.

Lemma walk_in_comment (rest before : list text) (opener : text) :
  Py.contains opener (str "/**") = true ->
  Forall (fun l => Py.contains l (str "/*") = false) rest ->
  CheckDocs.walk true (rest ++ opener :: before) = true.
Proof.
  intros Ho. induction 1 as [|l rest Hl _ IH].
  - cbn [app CheckDocs.walk]. unfold CheckDocs.comment_opener.
    rewrite Ho. reflexivity.
  - cbn [app CheckDocs.walk]. unfold CheckDocs.comment_opener.
    destruct (Py.contains l (str "/**")); [reflexivity|].
    rewrite Hl. cbn [andb]. exact IH.
Qed.

(** X28: a declaration counts as documented when the lines directly above
    it are a comment that opens with the documentation opener, holds no
    further comment opener, and ends on a line whose stripped text ends
    with the closer. *)
Theorem is_documented_below_doc_comment :
  forall (pre : list text) (opener : text) (rest post : list text),
    Py.contains opener (str "/**") = true ->
    Forall (fun l => Py.contains l (str "/*") = false) rest ->
    ends_comment (last rest opener) = true ->
    CheckDocs.is_documented (pre ++ opener :: rest ++ post)
      (length pre + S (length rest)) = true.
Proof.
  intros pre opener rest post Ho Hr He. unfold CheckDocs.is_documented.
  replace (pre ++ opener :: rest ++ post)
    with ((pre ++ opener :: rest) ++ post)
    by (rewrite <- app_assoc; reflexivity).
  replace (length pre + S (length rest)) with (length (pre ++ opener :: rest))
    by (rewrite length_app; reflexivity).
  rewrite firstn_length_app.
  rewrite rev_app_distr. cbn [rev]. rewrite <- app_assoc. cbn [app].
  unfold ends_comment, skippable in He.
  apply andb_prop in He. destruct He as [Hs Hend].
  apply negb_true_iff in Hs.
  apply orb_false_iff in Hs. destruct Hs as [Hs Hat].
  apply orb_false_iff in Hs. destruct Hs as [Hne Hcom].
  destruct (rev rest) as [|closer revrest] eqn:Erev.
  - assert (rest = []) as -> by (apply (f_equal (@rev text)) in Erev;
      rewrite rev_involutive in Erev; exact Erev).
    cbn [last] in Hne, Hcom, Hat, Hend. cbn [app CheckDocs.walk].
    rewrite Hne, Hcom, Hat, Hend. unfold CheckDocs.comment_opener.
    rewrite Ho. reflexivity.
  - assert (Er : rest = rev revrest ++ [closer]).
    { apply (f_equal (@rev text)) in Erev.
      rewrite rev_involutive in Erev. exact Erev. }
    assert (Hl : last rest opener = closer).
    { rewrite Er. apply last_last. }
    rewrite Hl in Hne, Hcom, Hat, Hend.
    cbn [app CheckDocs.walk]. rewrite Hne, Hcom, Hat, Hend.
    assert (Hall : Forall (fun l => Py.contains l (str "/*") = false)
                     (closer :: revrest)).
    { rewrite <- Erev. apply Forall_rev. exact Hr. }
    inversion Hall as [|? ? Hc Hrr]; subst.
    unfold CheckDocs.comment_opener.
    destruct (Py.contains closer (str "/**")); [reflexivity|].
    rewrite Hc. cbn [andb]. apply walk_in_comment; assumption.
Qed.

Lemma is_documented_below_doc_comment_witness :
  Py.contains (str "  /**
") (str "/**") = true /\
  Forall (fun l => Py.contains l (str "/*") = false)
         [str "   * Doc.
"; str "   */
"] /\
  ends_comment (last [str "   * Doc.
"; str "   */
"] (str "  /**
")) = true /\
  CheckDocs.is_documented
    ([str "object A {
"] ++ str "  /**
" :: [str "   * Doc.
"; str "   */
"] ++ [str "  def f: Int = 1
"]) (1 + 3) = true.
Proof.
  assert (H1 : Py.contains (str "  /**
") (str "/**") = true) by reflexivity.
  assert (H2 : Forall (fun l => Py.contains l (str "/*") = false)
         [str "   * Doc.
"; str "   */
"]) by (repeat constructor).
  assert (H3 : ends_comment (last [str "   * Doc.
"; str "   */
"] (str "  /**
")) = true) by reflexivity.
  split; [exact H1|]. split; [exact H2|]. split; [exact H3|].
  exact (@is_documented_below_doc_comment [str "object A {
"] _ _ [str "  def f: Int = 1
"] H1 H2 H3).
Defined.

(** ** Entries are never taken back *)

Lemma undocumented_grows (lines : list text) (e : CheckDocs.entry) (j : nat) :
  forall d,
    In e (CheckDocs.undocumented (CheckDocs.state_after lines j)) ->
    In e (CheckDocs.undocumented (CheckDocs.state_after lines (j + d))).
Proof.
  induction d as [|d IH]; intros H.
  - rewrite Nat.add_0_r. exact H.
  - replace (j + S d) with (S (j + d)) by lia.
    destruct (nth_error lines (j + d)) as [l|] eqn:E.
    + rewrite (state_after_S _ _ E).
      destruct (step_appends lines (CheckDocs.state_after lines (j + d))
                  (j + d) l) as [new [-> _]].
      apply in_or_app; left. exact (IH H).
    + apply nth_error_None in E.
      rewrite state_after_end by lia.
      rewrite <- (@state_after_end lines (j + d)) by lia. exact (IH H).
Qed.

Lemma reported_stays (lines : list text) (e : CheckDocs.entry) (j : nat) :
  In e (CheckDocs.undocumented (CheckDocs.state_after lines j)) ->
  In e (CheckDocs.analyze_file lines).
Proof.
  intros H. rewrite analyze_file_state_after.
  destruct (Nat.le_ge_cases j (length lines)) as [Hj|Hj].
  - replace (length lines) with (j + (length lines - j)) by lia.
    apply undocumented_grows; exact H.
  - rewrite <- (state_after_end lines Hj). exact H.
Qed.

(** X29: a line that the def pattern matches, and the class pattern does
    not, is reported as a [def] whenever it is not documented, its
    visibility is public or protected, no private container encloses it,
    and it stands outside comments; the state of the brace tracker plays no
    part. *)
Theorem undocumented_visible_def_is_reported :
  forall (lines : list text) (k : nat) (l : text) (m : Re.match_obj),
    nth_error lines k = Some l ->
    CheckDocs.in_multiline_comment (CheckDocs.state_after lines k) = false ->
    Py.contains (Py.strip l) (str "/*") = false ->
    Py.contains (Py.strip l) (str "*/") = false ->
    Py.strip l <> [] ->
    Py.startswith (Py.strip l) (str "//") = false ->
    Re.rmatch CheckDocs.class_pattern l = None ->
    Re.rmatch CheckDocs.def_pattern l = Some m ->
    CheckDocs.is_in_private_container
      (CheckDocs.update_for_line l
         (CheckDocs.stack (CheckDocs.state_after lines k))) = false ->
    CheckDocs.should_check_docs (CheckDocs.get_visibility l) = true ->
    CheckDocs.is_documented lines k = false ->
    In (CheckDocs.Entry (k + 1) (str "def") (Re.group_or_empty l m 1)
          (firstn 80 (Py.strip l)))
       (CheckDocs.analyze_file lines).
Proof.
  intros lines k l m Hl Himc Hopen Hclose Hne Hcom Hcm Hdm Hp Hv Hd.
  apply (@reported_stays lines _ (S k)).
  rewrite (state_after_S _ _ Hl). unfold CheckDocs.step.
  rewrite Hclose, Hopen. cbn [andb]. rewrite Himc.
  assert (Hn : nonempty (Py.strip l) = true)
    by (destruct (Py.strip l); [congruence | reflexivity]).
  rewrite Hn, Hcom. cbn [negb orb]. rewrite Hcm, Hdm, Hp, Hv.
  cbn [CheckDocs.undocumented]. unfold CheckDocs.report_if_undocumented.
  rewrite Hd. cbn [negb]. apply in_or_app; right. left. reflexivity.
Qed.

Lemma undocumented_visible_def_is_reported_witness :
  In (CheckDocs.Entry (1 + 1) (str "def")
        (Re.group_or_empty (str "  def bar(x: Int): Int = x
") (Re.Match 0 10 [(1, (6, 9))]) 1)
        (firstn 80 (Py.strip (str "  def bar(x: Int): Int = x
"))))
     (CheckDocs.analyze_file X_lines).
Proof.
  apply (@undocumented_visible_def_is_reported X_lines 1
           (str "  def bar(x: Int): Int = x
") (Re.Match 0 10 [(1, (6, 9))]));
    try (vm_compute; reflexivity).
  vm_compute; discriminate.
Defined.

(** ** The keyword private in [get_visibility] *)

Lemma search_needs_chr (c : ascii) (b : Re.re) (s : text) :
  ~ In c s ->
  forall p pv, Re.search_from (Re.Seq (Re.Chr c) b) p pv s = None.
Proof.
  induction s as [|d s IH]; intros H p pv; cbn [Re.search_from];
    unfold Re.match_at.
  - destruct (Re.run (Re.Seq (Re.Chr c) b) (Re.MState p pv [] []) Some) eqn:E;
      [|reflexivity].
    apply run_seq_chr in E. destruct E.
  - destruct (Re.run (Re.Seq (Re.Chr c) b) (Re.MState p pv (d :: s) []) Some)
      eqn:E.
    + apply run_seq_chr in E. contradiction.
    + apply IH. intros F; apply H; right; exact F.
Qed.

Lemma sub_empty_needs_chr (c : ascii) (b : Re.re) (s : text) :
  ~ In c s -> Re.sub_empty (Re.Seq (Re.Chr c) b) s = s.
Proof.
  intros H. unfold Re.sub_empty, Re.finditer. cbn [Re.finditer_from].
  rewrite (@search_needs_chr c b s H). reflexivity.
Qed.

Lemma search_from_later (r : Re.re) (a s : text) :
  forall p pv,
    Re.match_at r (p + length a) (Re.last_chr pv a) s <> None ->
    Re.search_from r p pv (a ++ s) <> None.
Proof.
  induction a as [|c a IH]; intros p pv H.
  - cbn [app]. cbn [length Re.last_chr rev] in H. rewrite Nat.add_0_r in H.
    destruct s; cbn [Re.search_from];
      destruct (Re.match_at r p pv _); congruence.
  - cbn [app Re.search_from].
    destruct (Re.match_at r p pv (c :: a ++ s)); [discriminate|].
    apply IH. rewrite last_chr_cons in H.
    replace (S p + length a) with (p + length (c :: a))
      by (cbn [length]; lia).
    exact H.
Qed.

Lemma private_matches (p : nat) (pv : option ascii) (rest : text) :
  Re.word_opt pv = false ->
  Re.word_opt (hd_error rest) = false ->
  Re.match_at CheckDocs.PRIVATE_RE p pv (str "private" ++ rest) <> None.
Proof.
  intros H1 H2. unfold Re.match_at, CheckDocs.PRIVATE_RE.
  cbn [Re.Seqs Re.run Re.Lit str list_ascii_of_string app Re.Chr Re.rest
       Re.advance Re.pos Re.prev Re.caps].
  unfold Re.at_boundary at 1. cbn [Re.prev Re.rest hd_error]. rewrite H1.
  change (xorb false (Re.word_opt (Some "p"%char))) with true. cbn iota.
  unfold chr_eqb. cbn [Ascii.eqb Bool.eqb].
  unfold Re.at_boundary, Re.advance.
  cbn [Re.prev Re.rest Re.pos Re.caps]. rewrite H2.
  change (xorb (Re.word_opt (Some "e"%char)) false) with true. cbn iota.
  discriminate.
Qed.

(** X30: a line that holds no quote and holds [private] as a whole word,
    wherever it stands on the line, has visibility private. *)
Theorem whole_word_private_is_private :
  forall a rest : text,
    ~ In CheckDocs.DQUOTE (a ++ str "private" ++ rest) ->
    ~ In CheckDocs.SQUOTE (a ++ str "private" ++ rest) ->
    Re.word_opt (Re.last_chr None a) = false ->
    Re.word_opt (hd_error rest) = false ->
    CheckDocs.get_visibility (a ++ str "private" ++ rest) = CheckDocs.Private.
Proof.
  intros a rest Hd Hs Ha Hr. unfold CheckDocs.get_visibility.
  unfold CheckDocs.STRING_RE, CheckDocs.CHAR_RE. cbn [Re.Seqs].
  rewrite (@sub_empty_needs_chr _ _ _ Hd), (@sub_empty_needs_chr _ _ _ Hs).
  unfold CheckDocs.found, Re.search.
  pose proof (@search_from_later CheckDocs.PRIVATE_RE a
                (str "private" ++ rest) 0 None
                (@private_matches (0 + length a) _ rest Ha Hr)) as H.
  destruct (Re.search_from CheckDocs.PRIVATE_RE 0 None
              (a ++ str "private" ++ rest)); [reflexivity | congruence].
Qed.

Lemma whole_word_private_is_private_witness :
  CheckDocs.get_visibility
    (str "  def f: Int = 1 // " ++ str "private" ++ str " note")
  = CheckDocs.Private.
Proof.
  apply whole_word_private_is_private.
  - intros F. vm_compute in F.
    repeat (destruct F as [F|F]; [discriminate F|]). exact F.
  - intros F. vm_compute in F.
    repeat (destruct F as [F|F]; [discriminate F|]). exact F.
  - vm_compute. reflexivity.
  - vm_compute. reflexivity.
Defined.
